(** * just-metrics: a buffering metrics client

    A shallow embedding of [src/index.ts] and a verification of its
    buffering, flushing and wire-encoding behaviour.

    The source file exists in two revisions: a compact one, in which
    [createMetrics] holds everything inline ([flush], [add]), and a factored
    one with the helpers [parseDSN], [generateTraceId], [formatAttributeValue],
    [formatAttributes], [scheduleFlush], [createMetric], [flush] and
    [buildEnvelope].  They are embedded as the modules [Compact] and
    [Factored]; the properties are stated for clients built by either. *)

From Stdlib Require Import ZArith NArith PArith QArith Lia Bool List.
From Stdlib Require Import Strings.Ascii Strings.String Strings.Byte.
From Stdlib Require Import Floats.SpecFloat.
Import ListNotations.

Set Warnings "-register-all,-notation-for-abbreviation".

Local Open Scope list_scope.
Local Open Scope string_scope.
Local Open Scope Z_scope.

(* ================================================================== *)
(** * JavaScript values used by the client *)
(* ================================================================== *)

(** ** Numbers

    A JavaScript [number] is an IEEE 754 binary64 value; it is represented by
    its sign, mantissa and exponent ([spec_float]). *)

Definition number : Type := spec_float.

Definition prec64 : Z := 53.
Definition emax64 : Z := 1024.

(** The number nearest to the integer [z], and to [m * 2^e]. *)
Definition Number_of_Z (z : Z) : number := binary_normalize prec64 emax64 z 0 false.
Definition Number_of_scaled (m e : Z) : number := binary_normalize prec64 emax64 m e false.

(** The [/] operator on numbers. *)
Definition Number_div (x y : number) : number := SFdiv prec64 emax64 x y.

(** [Number.isInteger(x)]: [x] is finite and [floor(abs(x))] is [abs(x)].
    A finite [m * 2^e] with [e < 0] is an integer exactly when the low [-e]
    bits of [m] are zero. *)
Definition Number_isInteger (x : number) : bool :=
  match x with
  | S754_zero _ => true
  | S754_infinity _ => false
  | S754_nan => false
  | S754_finite _ m e =>
      if 0 <=? e then true else Z.pos m mod 2 ^ (- e) =? 0
  end.

Definition Number_isFinite (x : number) : bool :=
  match x with
  | S754_zero _ | S754_finite _ _ _ => true
  | S754_infinity _ | S754_nan => false
  end.

(** The rational value of a finite number (the specification view of it). *)
Definition Number_value (x : number) : option Q :=
  match x with
  | S754_zero _ => Some 0%Q
  | S754_finite s m e =>
      let mag := if 0 <=? e then inject_Z (Z.pos m * 2 ^ e)
                 else (Z.pos m # Z.to_pos (2 ^ (- e)))%Q in
      Some (if s then Qopp mag else mag)
  | S754_infinity _ | S754_nan => None
  end.

(** A rational with no fractional part: it is an integer. *)
Definition Q_integral (q : Q) : Prop := exists z : Z, (q == inject_Z z)%Q.

(** ** Strings

    A string is a sequence of code units; the code units of the ASCII range
    are all the client itself ever inspects or produces. *)

(** Truthiness of a string: the empty string is falsy. *)
Definition truthy (s : string) : bool :=
  match s with EmptyString => false | String _ _ => true end.

(** [s.slice(1)]. *)
Definition slice1 (s : string) : string :=
  match s with EmptyString => EmptyString | String _ r => r end.

(** [parts.join(sep)]. *)
Fixpoint join (sep : string) (parts : list string) : string :=
  match parts with
  | [] => EmptyString
  | [p] => p
  | p :: rest => p ++ sep ++ join sep rest
  end.

(** [s.split(sep)] for a separator of one character. *)
Fixpoint split (sep : ascii) (s : string) : list string :=
  match s with
  | EmptyString => [EmptyString]
  | String c r =>
      if Ascii.eqb c sep then EmptyString :: split sep r
      else match split sep r with
           | [] => [String c EmptyString]
           | p :: ps => String c p :: ps
           end
  end.

(** [s.replace(/-/g, empty)]: every occurrence of the character is removed. *)
Fixpoint remove_char (x : ascii) (s : string) : string :=
  match s with
  | EmptyString => EmptyString
  | String c r => if Ascii.eqb c x then remove_char x r else String c (remove_char x r)
  end.

(** [s.padStart(n, fill)]: the fill string is repeated, and cut, to the
    missing length; a string already long enough is unchanged. *)
Fixpoint repeat_to (n : nat) (fill cur : string) : string :=
  match n with
  | O => EmptyString
  | S n' =>
      match cur with
      | EmptyString =>
          match fill with
          | EmptyString => EmptyString
          | String c r => String c (repeat_to n' fill r)
          end
      | String c r => String c (repeat_to n' fill r)
      end
  end.

Definition padStart (n : nat) (fill s : string) : string :=
  if (n <=? String.length s)%nat then s
  else if truthy fill then repeat_to (n - String.length s) fill fill ++ s
  else s.

Definition LF : ascii := "010"%char.

(** All characters of a string satisfy a test. *)
Fixpoint all_chars (p : ascii -> bool) (s : string) : bool :=
  match s with
  | EmptyString => true
  | String c r => p c && all_chars p r
  end.

Definition is_lower_hex (c : ascii) : bool :=
  let n := N_of_ascii c in
  ((48 <=? n) && (n <=? 57) || (97 <=? n) && (n <=? 102))%N.

Definition not_LF (c : ascii) : bool := negb (Ascii.eqb c LF).

(** ** Integers as text *)

Definition digit_char (d : Z) : ascii :=
  ascii_of_N (Z.to_N (if d <? 10 then 48 + d else 87 + d)).

(** The digits of [n] in [radix] (at most 16), most significant first, as
    [n.toString(radix)] writes a non-negative integer; lowercase letters. *)
Fixpoint digits_fuel (fuel : nat) (radix n : Z) (acc : string) : string :=
  match fuel with
  | O => acc
  | S f =>
      let acc' := String (digit_char (n mod radix)) acc in
      if n / radix =? 0 then acc' else digits_fuel f radix (n / radix) acc'
  end.

Definition Z_toString (radix n : Z) : string :=
  digits_fuel (S (Z.to_nat (Z.log2 n))) radix n EmptyString.

(** Decimal text of fixed width, zero-padded on the left. *)
Definition pad_decimal (width : nat) (n : Z) : string :=
  padStart width "0" (Z_toString 10 n).


(** ** Dates

    [new Date(t).toISOString()] for a time value [t] in milliseconds since the
    epoch: [YYYY-MM-DDTHH:mm:ss.sssZ], with the expanded year form (a sign and
    six digits) outside the years 0 to 9999. *)

Definition msPerDay : Z := 86400000.

Record civil := { year : Z; month : Z; day : Z }.

(** The proleptic Gregorian date of a day number (days since 1970-01-01). *)
Definition civil_of_days (z : Z) : civil :=
  let z := z + 719468 in
  let era := z / 146097 in
  let doe := z - era * 146097 in
  let yoe := (doe - doe / 1460 + doe / 36524 - doe / 146096) / 365 in
  let doy := doe - (365 * yoe + yoe / 4 - yoe / 100) in
  let mp := (5 * doy + 2) / 153 in
  let d := doy - (153 * mp + 2) / 5 + 1 in
  let m := if mp <? 10 then mp + 3 else mp - 9 in
  let y := yoe + era * 400 in
  {| year := if m <=? 2 then y + 1 else y; month := m; day := d |}.

Definition year_text (y : Z) : string :=
  if (0 <=? y) && (y <=? 9999) then pad_decimal 4 y
  else (if y <? 0 then "-" else "+") ++ pad_decimal 6 (Z.abs y).

Definition Date_toISOString (t : Z) : string :=
  let c := civil_of_days (t / msPerDay) in
  let r := t mod msPerDay in
  year_text (year c) ++ "-" ++ pad_decimal 2 (month c) ++ "-" ++ pad_decimal 2 (day c)
  ++ "T" ++ pad_decimal 2 (r / 3600000) ++ ":" ++ pad_decimal 2 (r / 60000 mod 60)
  ++ ":" ++ pad_decimal 2 (r / 1000 mod 60) ++ "." ++ pad_decimal 3 (r mod 1000) ++ "Z".

(* ================================================================== *)
(** * JSON text, as [JSON.stringify] writes it *)
(* ================================================================== *)

(** The values [JSON.stringify] meets in this program.  An object is the
    list of its own properties in enumeration order; a property that is
    absent (or [undefined]) is simply not in the list. *)
Inductive json : Type :=
| JNull
| JBool (b : bool)
| JNum (x : number)
| JStr (s : string)
| JArr (items : list json)
| JObj (props : list (string * json)).

Definition DQ : ascii := "034"%char.
Definition BSL : ascii := "092"%char.

(** One character of a quoted string: the quote, the backslash and the
    control characters are escaped, everything else is copied. *)
Definition quote_char (c : ascii) : string :=
  let n := Z.of_N (N_of_ascii c) in
  if n =? 8 then String BSL "b"
  else if n =? 9 then String BSL "t"
  else if n =? 10 then String BSL "n"
  else if n =? 12 then String BSL "f"
  else if n =? 13 then String BSL "r"
  else if n =? 34 then String BSL (String DQ EmptyString)
  else if n =? 92 then String BSL (String BSL EmptyString)
  else if n <? 32 then String BSL "u" ++ padStart 4 "0" (Z_toString 16 n)
  else String c EmptyString.

Fixpoint quote_chars (s : string) : string :=
  match s with
  | EmptyString => EmptyString
  | String c r => quote_char c ++ quote_chars r
  end.

Definition QuoteJSONString (s : string) : string :=
  String DQ (quote_chars s ++ String DQ EmptyString).

Section Stringify.

(** [Number::toString], the platform's shortest round-trip decimal text of
    a finite number. *)
Variable Number_toString : number -> string.

(** A non-finite number is written [null]. *)
Definition stringify_number (x : number) : string :=
  if Number_isFinite x then Number_toString x else "null".

Fixpoint JSON_stringify (j : json) : string :=
  match j with
  | JNull => "null"
  | JBool b => if b then "true" else "false"
  | JNum x => stringify_number x
  | JStr s => QuoteJSONString s
  | JArr items => "[" ++ join "," (map JSON_stringify items) ++ "]"
  | JObj props =>
      "{" ++ join "," (map (fun kv => QuoteJSONString (fst kv) ++ ":" ++ JSON_stringify (snd kv)) props)
      ++ "}"
  end.

End Stringify.

(* ================================================================== *)
(** * Data model *)
(* ================================================================== *)

(** [type MetricType = "counter" | "gauge" | "distribution"]. *)
Inductive MetricType : Type := counter | gauge | distribution.

Definition MetricType_text (t : MetricType) : string :=
  match t with
  | counter => "counter"
  | gauge => "gauge"
  | distribution => "distribution"
  end.

(** [type AttributeValue = string | number | boolean]. *)
Inductive AttributeValue : Type :=
| AString (s : string)
| ANumber (x : number)
| ABoolean (b : bool).

(** The [typeof] operator on an attribute value. *)
Definition typeof (v : AttributeValue) : string :=
  match v with
  | AString _ => "string"
  | ANumber _ => "number"
  | ABoolean _ => "boolean"
  end.

(** A [Record<string, T>] as an object literal or [JSON.parse] creates it: the
    own properties in enumeration order, one entry per key.  Its prototype is
    [Object.prototype]. *)
Definition Obj (T : Type) : Type := list (string * T).

Fixpoint obj_get {T} (k : string) (o : Obj T) : option T :=
  match o with
  | [] => None
  | (k', v) :: r => if String.eqb k k' then Some v else obj_get k r
  end.

(** The own data property [k] set to [v]: an existing property keeps its
    place, a new one goes last.  (The source assigns the keys of
    [Object.entries] in the order they come in, which is enumeration order;
    last is then the place of a new key in enumeration order too.) *)
Fixpoint define_own {T} (k : string) (v : T) (o : Obj T) : Obj T :=
  match o with
  | [] => [(k, v)]
  | (k', v') :: r => if String.eqb k k' then (k, v) :: r else (k', v') :: define_own k v r
  end.

(** [o[k] = v].  The name [__proto__] is an accessor property of
    [Object.prototype]: assigning to it calls the inherited setter, which
    replaces the prototype of [o] (by [v], when [v] is an object) and gives
    [o] no own property, so the own properties of [o] stay as they are.
    Every other name the prototype answers is a writable data property, and
    the assignment makes, or updates, an own property of [o]. *)
Definition obj_set {T} (k : string) (v : T) (o : Obj T) : Obj T :=
  if String.eqb k "__proto__" then o else define_own k v o.

Definition Object_entries {T} (o : Obj T) : list (string * T) := o.

Definition Attributes : Type := Obj AttributeValue.

(** [interface MetricOptions { unit?: string; attributes?: Attributes }]. *)
Record MetricOptions : Type := {
  opt_unit : option string;
  opt_attributes : option Attributes
}.

(** [options?.unit] and [options?.attributes]. *)
Definition options_unit (options : option MetricOptions) : option string :=
  match options with Some o => opt_unit o | None => None end.

Definition options_attributes (options : option MetricOptions) : option Attributes :=
  match options with Some o => opt_attributes o | None => None end.

(** [interface FormattedAttribute { value; type }]. *)
Record FormattedAttribute : Type := {
  fa_value : AttributeValue;
  fa_type : string
}.

(** [interface MetricPayload] (the type [Metric] of the compact revision).
    The optional fields [unit] and [attributes] are [None] when the property
    does not exist on the object. *)
Record MetricPayload : Type := {
  m_timestamp : number;
  m_trace_id : string;
  m_name : string;
  m_value : number;
  m_type : MetricType;
  m_unit : option string;
  m_attributes : option (Obj FormattedAttribute)
}.

Definition set_unit (u : string) (m : MetricPayload) : MetricPayload :=
  {| m_timestamp := m_timestamp m; m_trace_id := m_trace_id m; m_name := m_name m;
     m_value := m_value m; m_type := m_type m; m_unit := Some u;
     m_attributes := m_attributes m |}.

Definition set_attributes (a : Obj FormattedAttribute) (m : MetricPayload) : MetricPayload :=
  {| m_timestamp := m_timestamp m; m_trace_id := m_trace_id m; m_name := m_name m;
     m_value := m_value m; m_type := m_type m; m_unit := m_unit m;
     m_attributes := Some a |}.

(** ** The objects as [JSON.stringify] sees them *)

Definition json_of_value (v : AttributeValue) : json :=
  match v with
  | AString s => JStr s
  | ANumber x => JNum x
  | ABoolean b => JBool b
  end.

Definition json_of_attribute (a : FormattedAttribute) : json :=
  JObj [("value", json_of_value (fa_value a)); ("type", JStr (fa_type a))].

Definition optional_prop {T} (k : string) (f : T -> json) (v : option T) : list (string * json) :=
  match v with Some x => [(k, f x)] | None => [] end.

Definition json_of_metric (m : MetricPayload) : json :=
  JObj ([("timestamp", JNum (m_timestamp m));
         ("trace_id", JStr (m_trace_id m));
         ("name", JStr (m_name m));
         ("value", JNum (m_value m));
         ("type", JStr (MetricType_text (m_type m)))]
        ++ optional_prop "unit" JStr (m_unit m)
        ++ optional_prop "attributes"
             (fun a => JObj (map (fun kv => (fst kv, json_of_attribute (snd kv))) a))
             (m_attributes m))%list.

(* ================================================================== *)
(** * The platform *)
(* ================================================================== *)

(** The parts of a parsed [URL] the client reads. *)
Record URL : Type := {
  url_username : string;
  url_host : string;
  url_pathname : string
}.

(** The request handed to [fetch]. *)
Record Request : Type := {
  req_url : string;
  req_method : string;
  req_headers : list (string * string);
  req_body : string
}.

(** What becomes of a [fetch] call: a response (with its [ok] flag), a
    rejection of the returned promise, or an exception raised by the call
    itself. *)
Inductive Delivery : Type :=
| Responds (ok : bool)
| Rejects (reason : string)
| Raises (reason : string).

(** What the host environment decides: URL parsing ([None] when the [URL]
    constructor throws), the random bytes, the fate of each request, and the
    decimal text of numbers. *)
Record Platform : Type := {
  URL_parse : string -> option URL;
  entropy : nat -> byte;
  network : Request -> Delivery;
  Number_toString : number -> string
}.

Inductive JSError : Type :=
| TypeError (message : string)
| Error (message : string).

(** Calls made to the platform, in the order they are made. *)
Inductive Call : Type :=
| CallSetTimeout (handle : positive) (due : Z)
| CallClearTimeout (handle : positive)
| CallFetch (request : Request).

(** The state of one client and of the platform around it.  [buffer] and
    [flushTimer] are the two variables closed over by [createMetrics];
    [flushTimer] is a timer handle (a positive number, hence truthy) or
    [None] for [null]. *)
Record State : Type := {
  buffer : list MetricPayload;
  flushTimer : option positive;
  clock : Z;
  timers : list (positive * Z);
  next_handle : positive;
  drawn : nat;
  calls : list Call
}.

Definition with_buffer (b : list MetricPayload) (s : State) : State :=
  {| buffer := b; flushTimer := flushTimer s; clock := clock s; timers := timers s;
     next_handle := next_handle s; drawn := drawn s; calls := calls s |}.

Definition with_flushTimer (t : option positive) (s : State) : State :=
  {| buffer := buffer s; flushTimer := t; clock := clock s; timers := timers s;
     next_handle := next_handle s; drawn := drawn s; calls := calls s |}.

(** ** A monad for state and exceptions *)

Inductive Completion (A : Type) : Type :=
| Normal (a : A)
| Throw (e : JSError).
Arguments Normal {A} a.
Arguments Throw {A} e.

Definition M (A : Type) : Type := State -> Completion A * State.

Definition ret {A} (a : A) : M A := fun s => (Normal a, s).

Definition bind {A B} (c : M A) (k : A -> M B) : M B :=
  fun s => match c s with
           | (Normal a, s') => k a s'
           | (Throw e, s') => (Throw e, s')
           end.

Definition throw {A} (e : JSError) : M A := fun s => (Throw e, s).

(** [try { c } catch { h }]. *)
Definition try_catch {A} (c : M A) (h : JSError -> M A) : M A :=
  fun s => match c s with
           | (Normal a, s') => (Normal a, s')
           | (Throw e, s') => h e s'
           end.

Definition gets {A} (f : State -> A) : M A := fun s => (Normal (f s), s).
Definition modify (f : State -> State) : M unit := fun s => (Normal tt, f s).

Declare Scope js_scope.
Delimit Scope js_scope with js.
Notation "x <- c ;; k" := (bind c (fun x => k))
  (at level 61, c at next level, right associativity) : js_scope.
Notation "c ;; k" := (bind c (fun _ => k))
  (at level 61, right associativity) : js_scope.

Definition exec {A} (c : M A) (s : State) : State := snd (c s).
Definition result {A} (c : M A) (s : State) : Completion A := fst (c s).

(** ** Promises *)

Inductive Promise (A : Type) : Type :=
| Fulfilled (a : A)
| Rejected (e : JSError).
Arguments Fulfilled {A} a.
Arguments Rejected {A} e.

(** An [async] function runs its body and returns a promise: an exception of
    the body rejects the promise instead of reaching the caller.  The body
    runs to its end here: the only [await] of the program is followed by
    nothing that changes the state. *)
Definition async {A} (body : M A) : M (Promise A) :=
  fun s => match body s with
           | (Normal a, s') => (Normal (Fulfilled a), s')
           | (Throw e, s') => (Normal (Rejected e), s')
           end.

Definition await {A} (p : Promise A) : M A :=
  match p with
  | Fulfilled a => ret a
  | Rejected e => throw e
  end.

(** ** Platform calls *)

Local Open Scope js_scope.

(** [Date.now()]. *)
Definition Date_now : M Z := gets clock.

(** [setTimeout(callback, delay)].  The handle is a fresh positive number.
    The only callback this program registers is its own [flush], so a
    pending timeout is recorded by its handle and the time it is due. *)
Definition setTimeout (delay : Z) : M positive :=
  fun s =>
    let h := next_handle s in
    let due := clock s + delay in
    (Normal h,
     {| buffer := buffer s; flushTimer := flushTimer s; clock := clock s;
        timers := (timers s ++ [(h, due)])%list;
        next_handle := Pos.succ h; drawn := drawn s;
        calls := (calls s ++ [CallSetTimeout h due])%list |}).

(** [clearTimeout(handle)]: the timeout, if still pending, is removed. *)
Definition clearTimeout (h : positive) : M unit :=
  fun s =>
    (Normal tt,
     {| buffer := buffer s; flushTimer := flushTimer s; clock := clock s;
        timers := filter (fun t => negb (Pos.eqb (fst t) h)) (timers s);
        next_handle := next_handle s; drawn := drawn s;
        calls := (calls s ++ [CallClearTimeout h])%list |}).

Section PlatformCalls.

Variable pf : Platform.

(** [crypto.getRandomValues(new Uint8Array(n))]: the next [n] bytes of the
    random source. *)
Definition getRandomValues (n : nat) : M (list byte) :=
  fun s =>
    (Normal (map (entropy pf) (seq (drawn s) n)),
     {| buffer := buffer s; flushTimer := flushTimer s; clock := clock s;
        timers := timers s; next_handle := next_handle s;
        drawn := (drawn s + n)%nat; calls := calls s |}).

(** [fetch(url, init)]: the call is recorded; the platform decides whether
    it raises, or how the promise it returns settles. *)
Definition fetch (req : Request) : M (Promise bool) :=
  fun s =>
    let s' := {| buffer := buffer s; flushTimer := flushTimer s; clock := clock s;
                 timers := timers s; next_handle := next_handle s;
                 drawn := drawn s; calls := (calls s ++ [CallFetch req])%list |} in
    match network pf req with
    | Responds ok => (Normal (Fulfilled ok), s')
    | Rejects reason => (Normal (Rejected (TypeError reason)), s')
    | Raises reason => (Throw (TypeError reason), s')
    end.

End PlatformCalls.

(** [b.toString(16).padStart(2, "0")] for a byte. *)
Definition hex2 (b : byte) : string :=
  padStart 2 "0" (Z_toString 16 (Z.of_N (Byte.to_N b))).

Fixpoint update_at {A} (i : nat) (f : A -> A) (l : list A) {struct l} : list A :=
  match l, i with
  | [], _ => []
  | x :: r, O => f x :: r
  | x :: r, S j => x :: update_at j f r
  end.

(** The sixteen bytes of a version 4 UUID made from sixteen random bytes:
    the version nibble of byte 6 and the variant bits of byte 8 are fixed. *)
Definition uuid_bytes (bs : list byte) : list Z :=
  update_at 8 (fun b => Z.lor (Z.land b 63) 128)
    (update_at 6 (fun b => Z.lor (Z.land b 15) 64)
       (map (fun b => Z.of_N (Byte.to_N b)) bs)).

Definition hex2_Z (b : Z) : string := padStart 2 "0" (Z_toString 16 b).

Definition hex_group (from len : nat) (bs : list Z) : string :=
  join EmptyString (map hex2_Z (firstn len (skipn from bs))).

(** [crypto.randomUUID()]: the 8-4-4-4-12 lowercase text of a fresh
    version 4 UUID. *)
Definition randomUUID (pf : Platform) : M string :=
  bs <- getRandomValues pf 16;;
  let u := uuid_bytes bs in
  ret (join "-" [hex_group 0 4 u; hex_group 4 2 u; hex_group 6 2 u;
                 hex_group 8 2 u; hex_group 10 6 u]).

(** [String(value)]. *)
Definition JS_String (pf : Platform) (v : AttributeValue) : string :=
  match v with
  | AString s => s
  | ANumber x =>
      match x with
      | S754_nan => "NaN"
      | S754_infinity false => "Infinity"
      | S754_infinity true => "-Infinity"
      | _ => Number_toString pf x
      end
  | ABoolean b => if b then "true" else "false"
  end.

(** [Number.isInteger(value)] on a value of any type: [false] unless it is a
    number. *)
Definition isInteger (v : AttributeValue) : bool :=
  match v with
  | ANumber x => Number_isInteger x
  | _ => false
  end.

(** [interface Metrics]: the object returned by [createMetrics]. *)
Module Metrics.
Record t : Type := {
  count : string -> option number -> option MetricOptions -> M unit;
  gauge : string -> number -> option MetricOptions -> M unit;
  distribution : string -> number -> option MetricOptions -> M unit;
  flush : M (Promise unit)
}.
End Metrics.

(** [value = 1], the default of a parameter. *)
Definition default_to (d : number) (v : option number) : number :=
  match v with Some x => x | None => d end.

Definition sentry_headers (publicKey : string) : list (string * string) :=
  [("Content-Type", "application/x-sentry-envelope");
   ("X-Sentry-Auth", "Sentry sentry_key=" ++ publicKey ++ ", sentry_version=7")].

(* ================================================================== *)
(** * The factored revision *)
(* ================================================================== *)

Module Factored.

Record ParsedDSN : Type := {
  publicKey : string;
  host : string;
  projectId : string
}.

Definition BUFFER_SIZE_LIMIT : nat := 100.
Definition FLUSH_INTERVAL_MS : Z := 5000.

Definition parseDSN (pf : Platform) (dsn : string) : Completion ParsedDSN :=
  match URL_parse pf dsn with
  | None => Throw (TypeError "Invalid URL")
  | Some url =>
      let publicKey := url_username url in
      let host := url_host url in
      let projectId := slice1 (url_pathname url) in
      if negb (truthy publicKey) || negb (truthy host) || negb (truthy projectId)
      then Throw (Error "Invalid DSN: missing required components")
      else Normal {| publicKey := publicKey; host := host; projectId := projectId |}
  end.

Definition generateTraceId (pf : Platform) : M string :=
  bytes <- getRandomValues pf 16;;
  ret (join EmptyString (map hex2 bytes)).

Definition formatAttributeValue (pf : Platform) (value : AttributeValue)
  : FormattedAttribute :=
  let typeOfValue := typeof value in
  if String.eqb typeOfValue "string" then {| fa_value := value; fa_type := "string" |}
  else if String.eqb typeOfValue "boolean" then {| fa_value := value; fa_type := "boolean" |}
  else if String.eqb typeOfValue "number" then
    if isInteger value
    then {| fa_value := value; fa_type := "integer" |}
    else {| fa_value := value; fa_type := "double" |}
  else {| fa_value := AString (JS_String pf value); fa_type := "string" |}.

Definition formatAttributes (pf : Platform) (attributes : option Attributes)
  : option (Obj FormattedAttribute) :=
  match attributes with
  | None => None
  | Some a =>
      Some (fold_left
              (fun formatted kv => obj_set (fst kv) (formatAttributeValue pf (snd kv)) formatted)
              (Object_entries a) [])
  end.

(** The functions that close over [dsn], [publicKey], [envelopeUrl] and the
    variables [buffer] and [flushTimer]. *)
Section Closure.

Variable pf : Platform.
Variables dsn publicKey envelopeUrl : string.

Definition buildEnvelope (metrics : list MetricPayload) : M string :=
  now <- Date_now;;
  let header :=
    JSON_stringify (Number_toString pf)
      (JObj [("dsn", JStr dsn); ("sent_at", JStr (Date_toISOString now))]) in
  let itemHeader :=
    JSON_stringify (Number_toString pf)
      (JObj [("type", JStr "trace_metric");
             ("item_count", JNum (Number_of_Z (Z.of_nat (List.length metrics))));
             ("content_type", JStr "application/vnd.sentry.items.trace-metric+json")]) in
  let itemPayload :=
    JSON_stringify (Number_toString pf)
      (JObj [("items", JArr (map json_of_metric metrics))]) in
  ret (header ++ String LF itemHeader ++ String LF itemPayload).

Definition flush : M (Promise unit) :=
  async (
    t <- gets flushTimer;;
    match t with
    | Some h => clearTimeout h;; modify (with_flushTimer None)
    | None => ret tt
    end;;
    b <- gets buffer;;
    if (List.length b =? 0)%nat then ret tt
    else
      let metricsToSend := b in
      modify (with_buffer []);;
      envelope <- buildEnvelope metricsToSend;;
      try_catch
        (p <- fetch pf {| req_url := envelopeUrl; req_method := "POST";
                          req_headers := sentry_headers publicKey;
                          req_body := envelope |};;
         _ <- await p;;
         ret tt)
        (fun _ => ret tt)).

Definition scheduleFlush : M unit :=
  t <- gets flushTimer;;
  match t with
  | Some _ => ret tt
  | None =>
      h <- setTimeout FLUSH_INTERVAL_MS;;
      modify (with_flushTimer (Some h))
  end.

Definition createMetric (name : string) (value : number) (type : MetricType)
           (options : option MetricOptions) : M unit :=
  now <- Date_now;;
  id <- generateTraceId pf;;
  let metric :=
    {| m_timestamp := Number_div (Number_of_Z now) (Number_of_Z 1000);
       m_trace_id := id; m_name := name; m_value := value; m_type := type;
       m_unit := None; m_attributes := None |} in
  let metric :=
    match options_unit options with
    | Some u => if truthy u then set_unit u metric else metric
    | None => metric
    end in
  let formattedAttributes := formatAttributes pf (options_attributes options) in
  let metric :=
    match formattedAttributes with
    | Some fa => set_attributes fa metric
    | None => metric
    end in
  modify (fun s => with_buffer (buffer s ++ [metric])%list s);;
  b <- gets buffer;;
  if (BUFFER_SIZE_LIMIT <=? List.length b)%nat then (_ <- flush;; ret tt)
  else scheduleFlush.

End Closure.

Definition createMetrics (pf : Platform) (dsn : string) : M Metrics.t :=
  match parseDSN pf dsn with
  | Throw e => throw e
  | Normal parsed =>
      let envelopeUrl :=
        "https://" ++ host parsed ++ "/api/" ++ projectId parsed ++ "/envelope/" in
      modify (with_buffer []);;
      modify (with_flushTimer None);;
      ret {| Metrics.count := fun name value options =>
               createMetric pf dsn (publicKey parsed) envelopeUrl
                 name (default_to (Number_of_Z 1) value) counter options;
             Metrics.gauge := fun name value options =>
               createMetric pf dsn (publicKey parsed) envelopeUrl name value gauge options;
             Metrics.distribution := fun name value options =>
               createMetric pf dsn (publicKey parsed) envelopeUrl
                 name value distribution options;
             Metrics.flush := flush pf dsn (publicKey parsed) envelopeUrl |}
  end.

End Factored.

(* ================================================================== *)
(** * The compact revision *)
(* ================================================================== *)

Module Compact.

Section Closure.

Variable pf : Platform.
Variables dsn publicKey envelopeUrl : string.

Definition flush : M (Promise unit) :=
  async (
    t <- gets flushTimer;;
    match t with
    | Some h => clearTimeout h;; modify (with_flushTimer None)
    | None => ret tt
    end;;
    b <- gets buffer;;
    if (List.length b =? 0)%nat then ret tt
    else
      let items := b in
      modify (with_buffer []);;
      try_catch
        (now <- Date_now;;
         p <- fetch pf
                {| req_url := envelopeUrl; req_method := "POST";
                   req_headers := sentry_headers publicKey;
                   req_body :=
                     join (String LF EmptyString)
                       [JSON_stringify (Number_toString pf)
                          (JObj [("dsn", JStr dsn);
                                 ("sent_at", JStr (Date_toISOString now))]);
                        JSON_stringify (Number_toString pf)
                          (JObj [("type", JStr "trace_metric");
                                 ("item_count",
                                  JNum (Number_of_Z (Z.of_nat (List.length items))));
                                 ("content_type",
                                  JStr "application/vnd.sentry.items.trace-metric+json")]);
                        JSON_stringify (Number_toString pf)
                          (JObj [("items", JArr (map json_of_metric items))])] |};;
         _ <- await p;;
         ret tt)
        (fun _ => ret tt)).

Definition add (name : string) (value : number) (type : MetricType)
           (options : option MetricOptions) : M unit :=
  now <- Date_now;;
  uuid <- randomUUID pf;;
  let metric :=
    {| m_timestamp := Number_div (Number_of_Z now) (Number_of_Z 1000);
       m_trace_id := remove_char "-"%char uuid;
       m_name := name; m_value := value; m_type := type;
       m_unit := None; m_attributes := None |} in
  let metric :=
    match options_unit options with
    | Some u => if truthy u then set_unit u metric else metric
    | None => metric
    end in
  let metric :=
    match options_attributes options with
    | Some attributes =>
        set_attributes
          (fold_left
             (fun attrs kv =>
                let k := fst kv in
                let v := snd kv in
                let t := typeof v in
                obj_set k
                  {| fa_value := v;
                     fa_type := if String.eqb t "number"
                                then (if isInteger v then "integer" else "double")
                                else t |}
                  attrs)
             (Object_entries attributes) [])
          metric
    | None => metric
    end in
  modify (fun s => with_buffer (buffer s ++ [metric])%list s);;
  b <- gets buffer;;
  if (100 <=? List.length b)%nat then (_ <- flush;; ret tt)
  else
    t <- gets flushTimer;;
    match t with
    | Some _ => ret tt
    | None => h <- setTimeout 5000;; modify (with_flushTimer (Some h))
    end.

End Closure.

Definition createMetrics (pf : Platform) (dsn : string) : M Metrics.t :=
  match URL_parse pf dsn with
  | None => throw (TypeError "Invalid URL")
  | Some url =>
      let publicKey := url_username url in
      if negb (truthy publicKey) || negb (truthy (url_host url))
         || negb (truthy (slice1 (url_pathname url)))
      then throw (Error "Invalid DSN: missing required components")
      else
        let envelopeUrl :=
          "https://" ++ url_host url ++ "/api" ++ url_pathname url ++ "/envelope/" in
        modify (with_buffer []);;
        modify (with_flushTimer None);;
        ret {| Metrics.count := fun name value options =>
                 add pf dsn publicKey envelopeUrl
                   name (default_to (Number_of_Z 1) value) counter options;
               Metrics.gauge := fun name value options =>
                 add pf dsn publicKey envelopeUrl name value gauge options;
               Metrics.distribution := fun name value options =>
                 add pf dsn publicKey envelopeUrl name value distribution options;
               Metrics.flush := flush pf dsn publicKey envelopeUrl |}
  end.

End Compact.

(* ================================================================== *)
(** * Running a client *)
(* ================================================================== *)

(** What can happen to a client: a call of one of its four methods, time
    passing, and the event loop running the callback of the oldest timeout
    that is due (nothing happens when none is). *)
Inductive Event : Type :=
| Count (name : string) (value : option number) (options : option MetricOptions)
| Gauge (name : string) (value : number) (options : option MetricOptions)
| Distribution (name : string) (value : number) (options : option MetricOptions)
| Flush
| Advance (ms : N)
| Timer.

Definition is_recording (e : Event) : bool :=
  match e with
  | Count _ _ _ | Gauge _ _ _ | Distribution _ _ _ => true
  | _ => false
  end.

Definition is_flush (e : Event) : bool :=
  match e with Flush => true | _ => false end.

Definition with_clock (t : Z) (s : State) : State :=
  {| buffer := buffer s; flushTimer := flushTimer s; clock := t; timers := timers s;
     next_handle := next_handle s; drawn := drawn s; calls := calls s |}.

Definition with_timers (ts : list (positive * Z)) (s : State) : State :=
  {| buffer := buffer s; flushTimer := flushTimer s; clock := clock s; timers := ts;
     next_handle := next_handle s; drawn := drawn s; calls := calls s |}.

(** The oldest pending timeout that is due. *)
Definition due_timer (s : State) : option positive :=
  match filter (fun t => snd t <=? clock s) (timers s) with
  | [] => None
  | (h, _) :: _ => Some h
  end.

(** A timeout that fires leaves the list of pending timeouts. *)
Definition expire (h : positive) (s : State) : State :=
  with_timers (filter (fun t => negb (Pos.eqb (fst t) h)) (timers s)) s.

Definition step (m : Metrics.t) (s : State) (e : Event) : State :=
  match e with
  | Count name value options => exec (Metrics.count m name value options) s
  | Gauge name value options => exec (Metrics.gauge m name value options) s
  | Distribution name value options => exec (Metrics.distribution m name value options) s
  | Flush => exec (Metrics.flush m) s
  | Advance ms => with_clock (clock s + Z.of_N ms) s
  | Timer =>
      match due_timer s with
      | Some h => exec (Metrics.flush m) (expire h s)
      | None => s
      end
  end.

Definition run (m : Metrics.t) (s : State) (trace : list Event) : State :=
  fold_left (step m) trace s.

(** What a call of a method gives back to its caller: [Normal] when it
    returns (a flush returns a promise, which may have been rejected), or the
    exception it throws.  Time passing and timer callbacks have no caller. *)
Definition outcome (m : Metrics.t) (s : State) (e : Event) : Completion (Promise unit) :=
  match e with
  | Count name value options =>
      match result (Metrics.count m name value options) s with
      | Normal _ => Normal (Fulfilled tt) | Throw err => Throw err end
  | Gauge name value options =>
      match result (Metrics.gauge m name value options) s with
      | Normal _ => Normal (Fulfilled tt) | Throw err => Throw err end
  | Distribution name value options =>
      match result (Metrics.distribution m name value options) s with
      | Normal _ => Normal (Fulfilled tt) | Throw err => Throw err end
  | Flush => result (Metrics.flush m) s
  | Advance _ => Normal (Fulfilled tt)
  | Timer =>
      match due_timer s with
      | Some h => result (Metrics.flush m) (expire h s)
      | None => Normal (Fulfilled tt)
      end
  end.

(** The platform at time [t0], before anything has run. *)
Definition boot (t0 : Z) : State :=
  {| buffer := []; flushTimer := None; clock := t0; timers := [];
     next_handle := 1%positive; drawn := O; calls := [] |}.

(** The requests handed to the transport so far, oldest first. *)
Fixpoint requests (cs : list Call) : list Request :=
  match cs with
  | [] => []
  | CallFetch r :: rest => r :: requests rest
  | _ :: rest => requests rest
  end.

Definition transport_calls (s : State) : list Request := requests (calls s).

(* ================================================================== *)
(** * The scheduler, as a function on states *)
(* ================================================================== *)

(** The two revisions differ in how they are written and in how they draw an
    identifier; what their methods do to the state is described once, by the
    functions below, and each revision is shown to compute them. *)
Module Scheduler.

Section Client.

Variable pf : Platform.
Variables dsn publicKey envelopeUrl : string.

(** How an identifier is rendered from sixteen random bytes. *)
Variable render : list byte -> string.

(** The three segments of the payload for a batch sent at time [now]. *)
Definition segments (now : Z) (items : list MetricPayload) : list string :=
  [JSON_stringify (Number_toString pf)
     (JObj [("dsn", JStr dsn); ("sent_at", JStr (Date_toISOString now))]);
   JSON_stringify (Number_toString pf)
     (JObj [("type", JStr "trace_metric");
            ("item_count", JNum (Number_of_Z (Z.of_nat (List.length items))));
            ("content_type", JStr "application/vnd.sentry.items.trace-metric+json")]);
   JSON_stringify (Number_toString pf)
     (JObj [("items", JArr (map json_of_metric items))])].

Definition request (now : Z) (items : list MetricPayload) : Request :=
  {| req_url := envelopeUrl; req_method := "POST";
     req_headers := sentry_headers publicKey;
     req_body := join (String LF EmptyString) (segments now items) |}.

(** The pending deadline is cancelled and forgotten. *)
Definition cancel (s : State) : State :=
  match flushTimer s with
  | Some h => with_flushTimer None (exec (clearTimeout h) s)
  | None => s
  end.

(** A drain: cancel, then send the buffer, if it holds anything, and
    leave it empty. *)
Definition drain (s : State) : State :=
  match buffer s with
  | [] => cancel s
  | items => exec (fetch pf (request (clock s) items)) (with_buffer [] (cancel s))
  end.

(** A deadline is scheduled unless one is pending. *)
Definition arm (s : State) : State :=
  match flushTimer s with
  | Some _ => s
  | None =>
      let s' := exec (setTimeout 5000) s in
      with_flushTimer (Some (next_handle s)) s'
  end.

Definition classify (v : AttributeValue) : FormattedAttribute :=
  {| fa_value := v;
     fa_type := match v with
                | AString _ => "string"
                | ABoolean _ => "boolean"
                | ANumber x => if Number_isInteger x then "integer" else "double"
                end |}.

Definition encode_attributes (a : Attributes) : Obj FormattedAttribute :=
  fold_left (fun acc kv => obj_set (fst kv) (classify (snd kv)) acc) a [].

(** The record encoded for one recording call made at time [now] with the
    identifier [id]. *)
Definition encode (id : string) (now : Z) (name : string) (value : number)
           (type : MetricType) (options : option MetricOptions) : MetricPayload :=
  {| m_timestamp := Number_div (Number_of_Z now) (Number_of_Z 1000);
     m_trace_id := id; m_name := name; m_value := value; m_type := type;
     m_unit := match options_unit options with
               | Some u => if truthy u then Some u else None
               | None => None
               end;
     m_attributes := option_map encode_attributes (options_attributes options) |}.

Definition next_bytes (s : State) : list byte :=
  map (entropy pf) (seq (drawn s) 16).

(** The record a recording call made in state [s] appends. *)
Definition record_of (s : State) (name : string) (value : number)
           (type : MetricType) (options : option MetricOptions) : MetricPayload :=
  encode (render (next_bytes s)) (clock s) name value type options.

(** The record joins the buffer; sixteen random bytes are used up. *)
Definition push (r : MetricPayload) (s : State) : State :=
  with_buffer (buffer s ++ [r])%list (exec (getRandomValues pf 16) s).

(** A recording call: append the record; drain at a hundred records,
    otherwise make sure a deadline is pending. *)
Definition record (name : string) (value : number) (type : MetricType)
           (options : option MetricOptions) (s : State) : State :=
  let s2 := push (record_of s name value type options) s in
  if (100 <=? List.length (buffer s2))%nat then drain s2 else arm s2.

(** A client whose methods do exactly this. *)
Definition implements (m : Metrics.t) : Prop :=
  (forall name value options s,
      Metrics.count m name value options s
      = (Normal tt, record name (default_to (Number_of_Z 1) value) counter options s))
  /\ (forall name value options s,
         Metrics.gauge m name value options s
         = (Normal tt, record name value gauge options s))
  /\ (forall name value options s,
         Metrics.distribution m name value options s
         = (Normal tt, record name value distribution options s))
  /\ (forall s, Metrics.flush m s = (Normal (Fulfilled tt), drain s)).

(** The machine of [step], on these functions. *)
Definition next (s : State) (e : Event) : State :=
  match e with
  | Count name value options =>
      record name (default_to (Number_of_Z 1) value) counter options s
  | Gauge name value options => record name value gauge options s
  | Distribution name value options => record name value distribution options s
  | Flush => drain s
  | Advance ms => with_clock (clock s + Z.of_N ms) s
  | Timer =>
      match due_timer s with
      | Some h => drain (expire h s)
      | None => s
      end
  end.

End Client.

End Scheduler.

(** How each revision renders an identifier from the sixteen bytes it draws. *)
Definition render_factored (bs : list byte) : string :=
  join EmptyString (map hex2 bs).

Definition render_compact (bs : list byte) : string :=
  let u := uuid_bytes bs in
  remove_char "-"%char
    (join "-" [hex_group 0 4 u; hex_group 4 2 u; hex_group 6 2 u;
               hex_group 8 2 u; hex_group 10 6 u]).

(** A client, built by either revision of [createMetrics] for [dsn] on a
    platform in state [s]; [s'] is the state it starts in. *)
Definition built (pf : Platform) (dsn : string) (s : State) (m : Metrics.t) (s' : State)
  : Prop :=
  Factored.createMetrics pf dsn s = (Normal m, s')
  \/ Compact.createMetrics pf dsn s = (Normal m, s').


(* ================================================================== *)
(** * States between operations *)
(* ================================================================== *)

(** The two states of a scheduler between operations: nothing buffered and
    no deadline, or between one and ninety-nine records buffered and exactly
    one deadline pending, whose handle [flushTimer] holds. *)
Definition Idle (s : State) : Prop :=
  buffer s = [] /\ flushTimer s = None /\ timers s = [].

Definition Accumulating (s : State) : Prop :=
  buffer s <> [] /\ (List.length (buffer s) < 100)%nat
  /\ exists h due, flushTimer s = Some h /\ timers s = [(h, due)].

Definition settled (s : State) : Prop := Idle s \/ Accumulating s.

(** The time at which the pending deadline is due, if one is pending. *)
Definition deadline (s : State) : option Z :=
  match timers s with
  | [] => None
  | (_, due) :: _ => Some due
  end.

(** Time passed during a trace, and time passed after its first recording
    call (the call that schedules the deadline of a client that had none). *)
Fixpoint elapsed (trace : list Event) : Z :=
  match trace with
  | [] => 0
  | Advance ms :: rest => Z.of_N ms + elapsed rest
  | _ :: rest => elapsed rest
  end.

Fixpoint elapsed_since_first_recording (trace : list Event) : Z :=
  match trace with
  | [] => 0
  | e :: rest => if is_recording e then elapsed rest else elapsed_since_first_recording rest
  end.

Definition recordings (trace : list Event) : nat :=
  List.length (filter is_recording trace).

(** The name, value and kind given to a recording call. *)
Definition event_name (e : Event) : string :=
  match e with
  | Count n _ _ | Gauge n _ _ | Distribution n _ _ => n
  | _ => EmptyString
  end.

Definition event_value (e : Event) : number :=
  match e with
  | Count _ v _ => default_to (Number_of_Z 1) v
  | Gauge _ v _ | Distribution _ v _ => v
  | _ => S754_nan
  end.

Definition event_type (e : Event) : MetricType :=
  match e with
  | Gauge _ _ _ => gauge
  | Distribution _ _ _ => distribution
  | _ => counter
  end.

Definition event_options (e : Event) : option MetricOptions :=
  match e with
  | Count _ _ o | Gauge _ _ o | Distribution _ _ o => o
  | _ => None
  end.

(** The payload of a batch [items] sent at time [now] by a client for [dsn]. *)
Definition payload (pf : Platform) (dsn : string) (now : Z) (items : list MetricPayload)
  : string :=
  join (String LF EmptyString)
    (Scheduler.segments pf dsn now items).

(** A step from [s] to [s'] appended the record [r]: it is the last record of
    the buffer, or, when the step drained the buffer, the last record of the
    one batch the step sent. *)
Definition appended (pf : Platform) (dsn : string) (s s' : State) (r : MetricPayload)
  : Prop :=
  (buffer s' = buffer s ++ [r])%list
  \/ (buffer s' = []
      /\ exists req,
          transport_calls s' = (transport_calls s ++ [req])%list
          /\ req_body req = payload pf dsn (clock s) (buffer s ++ [r])%list).

(** The platform calls of a drain: the cancellation of the deadline the
    client holds, then the request, when there is something to send. *)
Definition cancellation (s : State) : list Call :=
  match flushTimer s with Some h => [CallClearTimeout h] | None => [] end.

Definition transmission (pf : Platform) (dsn publicKey envelopeUrl : string) (s : State)
  : list Call :=
  match buffer s with
  | [] => []
  | items => [CallFetch (Scheduler.request pf dsn publicKey envelopeUrl (clock s) items)]
  end.

(** The same platform with another transport behaviour. *)
Definition with_network (n : Request -> Delivery) (pf : Platform) : Platform :=
  {| URL_parse := URL_parse pf; entropy := entropy pf; network := n;
     Number_toString := Number_toString pf |}.

(** The object each revision of [createMetrics] returns. *)
Definition Factored_client (pf : Platform) (dsn publicKey envelopeUrl : string) : Metrics.t :=
  {| Metrics.count := fun name value options =>
       Factored.createMetric pf dsn publicKey envelopeUrl
         name (default_to (Number_of_Z 1) value) counter options;
     Metrics.gauge := fun name value options =>
       Factored.createMetric pf dsn publicKey envelopeUrl name value gauge options;
     Metrics.distribution := fun name value options =>
       Factored.createMetric pf dsn publicKey envelopeUrl name value distribution options;
     Metrics.flush := Factored.flush pf dsn publicKey envelopeUrl |}.

Definition Compact_client (pf : Platform) (dsn publicKey envelopeUrl : string) : Metrics.t :=
  {| Metrics.count := fun name value options =>
       Compact.add pf dsn publicKey envelopeUrl
         name (default_to (Number_of_Z 1) value) counter options;
     Metrics.gauge := fun name value options =>
       Compact.add pf dsn publicKey envelopeUrl name value gauge options;
     Metrics.distribution := fun name value options =>
       Compact.add pf dsn publicKey envelopeUrl name value distribution options;
     Metrics.flush := Compact.flush pf dsn publicKey envelopeUrl |}.


(** A set of characters that holds the digits of a radix. *)
Definition holds_digits (p : ascii -> bool) (radix : Z) : Prop :=
  forall d, 0 <= d < radix -> p (digit_char d) = true.


(** The last character of a string. *)
Fixpoint last_char (s : string) : option ascii :=
  match s with
  | EmptyString => None
  | String c EmptyString => Some c
  | String _ r => last_char r
  end.


(** ** Induction on JSON values *)

Section JsonInd.

Variable P : json -> Prop.
Hypothesis Hnull : P JNull.
Hypothesis Hbool : forall b, P (JBool b).
Hypothesis Hnum : forall x, P (JNum x).
Hypothesis Hstr : forall s, P (JStr s).
Hypothesis Harr : forall items, Forall P items -> P (JArr items).
Hypothesis Hobj : forall props, Forall (fun kv => P (snd kv)) props -> P (JObj props).

Fixpoint json_induction (j : json) : P j :=
  match j with
  | JNull => Hnull
  | JBool b => Hbool b
  | JNum x => Hnum x
  | JStr s => Hstr s
  | JArr items =>
      Harr items
        ((fix all (l : list json) : Forall P l :=
            match l with
            | [] => Forall_nil _
            | x :: r => Forall_cons x (json_induction x) (all r)
            end) items)
  | JObj props =>
      Hobj props
        ((fix all (l : list (string * json)) : Forall (fun kv => P (snd kv)) l :=
            match l with
            | [] => Forall_nil _
            | x :: r => Forall_cons x (json_induction (snd x)) (all r)
            end) props)
  end.

End JsonInd.


(** A request that carries a batch of between one and a hundred records,
    sent at some time by the client for [dsn]. *)
Definition batch_request (pf : Platform) (dsn : string) (req : Request) : Prop :=
  exists now items,
    (1 <= List.length items <= 100)%nat
    /\ req_method req = "POST"
    /\ req_body req = payload pf dsn now items.

(** The events that drain the buffer of a client in state [s]: a manual
    flush, the callback of a due timer, and the recording call that brings
    the buffer to a hundred records. *)
Definition drains (s : State) (e : Event) : bool :=
  match e with
  | Flush => true
  | Timer => match due_timer s with Some _ => true | None => false end
  | Advance _ => false
  | _ => (99 <=? List.length (buffer s))%nat
  end.

(** An address with a component missing: the [URL] constructor rejects it, or
    the credential (user name), the host, or the path after its leading
    slash is empty. *)
Definition missing_component (pf : Platform) (dsn : string) : Prop :=
  match URL_parse pf dsn with
  | None => True
  | Some url =>
      url_username url = EmptyString \/ url_host url = EmptyString
      \/ slice1 (url_pathname url) = EmptyString
  end.

(** The classification rule, in the words of the data model: a string is a
    [string], a boolean a [boolean], a number with no fractional part an
    [integer] and a number with a fractional part a [double]. *)
Inductive kind_of : AttributeValue -> string -> Prop :=
| kind_string (s : string) : kind_of (AString s) "string"
| kind_boolean (b : bool) : kind_of (ABoolean b) "boolean"
| kind_integer (x : number) (q : Q) :
    Number_value x = Some q -> Q_integral q -> kind_of (ANumber x) "integer"
| kind_double (x : number) (q : Q) :
    Number_value x = Some q -> ~ Q_integral q -> kind_of (ANumber x) "double".

(** The numbers 42 and 187.5. *)
Definition forty_two : number := Number_of_Z 42.
Definition one_eight_seven_and_a_half : number := Number_of_scaled 375 (-1).

(** The tags that become properties of a record's attributes: all but one
    named [__proto__], in their order. *)
Definition kept_tags {T} (tags : list (string * T)) : list (string * T) :=
  filter (fun kv => negb (String.eqb (fst kv) "__proto__")) tags.

(** The property names of a serialised object, and its property values. *)
Definition json_keys (j : json) : list string :=
  match j with JObj props => map fst props | _ => [] end.

Definition json_values (j : json) : list json :=
  match j with JObj props => map snd props | _ => [] end.

(** Reading a byte back from its two hexadecimal digits. *)
Definition hex_value (c : ascii) : N :=
  let n := N_of_ascii c in
  if (n <? 58)%N then (n - 48)%N else (n - 87)%N.

Definition unhex2 (s : string) : option byte :=
  match s with
  | String c1 (String c2 EmptyString) => Byte.of_N (16 * hex_value c1 + hex_value c2)
  | _ => None
  end.

(** A number that is the value of a byte. *)
Definition is_byte (z : Z) : Prop := exists b : byte, z = Z.of_N (Byte.to_N b).

(** The sixteen random bytes drawn by the recording call that follows [n]
    earlier ones. *)
Definition draw (pf : Platform) (n : nat) : list byte :=
  map (entropy pf) (seq (16 * n) 16).

(* ================================================================== *)
(** * A test platform *)
(* ================================================================== *)

(** A small platform on which the client can be run: a URL parser for
    addresses of the shape [scheme://user@host/path], a fixed sequence of
    random bytes, a transport that accepts every request, and numbers written
    by their exact decimal expansion.  The general statements below hold on
    every platform; this one serves to run them. *)
Module TestPlatform.

(** The text before and after the first occurrence of a separator. *)
Definition cut (sep s : string) : option (string * string) :=
  match String.index 0 sep s with
  | Some i =>
      Some (String.substring 0 i s,
            String.substring (i + String.length sep) (String.length s) s)
  | None => None
  end.

Definition parse (address : string) : option URL :=
  match cut "://" address with
  | None => None
  | Some (scheme, rest) =>
      let (authority, path) :=
        match cut "/" rest with
        | Some (a, p) => (a, "/" ++ p)
        | None => (rest, "/")
        end in
      let (user, hostname) :=
        match cut "@" authority with
        | Some (u, h) => (u, h)
        | None => (EmptyString, authority)
        end in
      if truthy scheme && truthy hostname
      then Some {| url_username := user; url_host := hostname; url_pathname := path |}
      else None
  end.

Definition random (i : nat) : byte :=
  match Byte.of_N ((N.of_nat i * 167 + 13) mod 256) with
  | Some b => b
  | None => x00
  end.

Fixpoint strip_trailing_zeros (s : string) : string :=
  match s with
  | EmptyString => EmptyString
  | String c r =>
      match strip_trailing_zeros r with
      | EmptyString => if Ascii.eqb c "0"%char then EmptyString else String c EmptyString
      | r' => String c r'
      end
  end.

(** The exact decimal expansion of a finite number. *)
Definition exact_decimal (x : number) : string :=
  match x with
  | S754_finite s m e =>
      (if s then "-" else EmptyString) ++
      (if 0 <=? e then Z_toString 10 (Z.pos m * 2 ^ e)
       else
         let k := - e in
         let whole := Z.pos m / 2 ^ k in
         let frac := (Z.pos m mod 2 ^ k) * 5 ^ k in
         if frac =? 0 then Z_toString 10 whole
         else Z_toString 10 whole ++ "."
              ++ strip_trailing_zeros (pad_decimal (Z.to_nat k) frac))
  | _ => "0"
  end.

Definition platform : Platform :=
  {| URL_parse := parse;
     entropy := random;
     network := fun _ => Responds true;
     Number_toString := exact_decimal |}.

Definition VALID_DSN : string := "https://abc123@o123456.ingest.sentry.io/4567890".

(** The clients the two revisions build for [VALID_DSN]. *)
Definition envelopeUrl : string :=
  "https://o123456.ingest.sentry.io/api/4567890/envelope/".

Definition client : Metrics.t := Factored_client platform VALID_DSN "abc123" envelopeUrl.

Definition compact_client : Metrics.t :=
  Compact_client platform VALID_DSN "abc123" envelopeUrl.

(** The time of the test suite: 2024-01-15T10:00:00.000Z. *)
Definition test_time : Z := 1705312800000.

(** A hundred calls [count("metric.i")]. *)
Definition hundred_counts : list Event :=
  map (fun i => Count ("metric." ++ Z_toString 10 (Z.of_nat i)) None None) (seq 0 100).

End TestPlatform.

(** Transports that fail: one that answers every request with a failure
    status, one whose promise is rejected, one that raises when called. *)
Definition refusing (_ : Request) : Delivery := Responds false.
Definition unreachable (_ : Request) : Delivery := Rejects "Failed to fetch".
Definition broken (_ : Request) : Delivery := Raises "fetch is not a function".

(** A gauge recorded with an empty unit string, and the options of a call
    with tags. *)
Definition gauge_with_empty_unit : Event :=
  Gauge "queue.depth" forty_two
    (Some {| opt_unit := Some EmptyString; opt_attributes := None |}).

Definition tagged_options : MetricOptions :=
  {| opt_unit := None;
     opt_attributes :=
       Some [("route", AString "/checkout"); ("count", ANumber forty_two);
             ("active", ABoolean true);
             ("amount", ANumber one_eight_seven_and_a_half)] |}.

(** A counter recorded with tags that have an own property named [__proto__],
    as [JSON.parse] of [{"__proto__":"x","route":"/checkout"}] or the literal
    [{ ["__proto__"]: "x", route: "/checkout" }] has. *)
Definition proto_tags : Attributes :=
  [("__proto__", AString "x"); ("route", AString "/checkout")].

Definition count_with_proto_tag : Event :=
  Count "checkout.failed" None
    (Some {| opt_unit := None; opt_attributes := Some proto_tags |}).

(* ================================================================== *)
(** * Batches, and records without their identifier *)
(* ================================================================== *)

(** A batch: the time it was sent and its records. *)
Definition Batch : Type := (Z * list MetricPayload)%type.

Definition batch_payload (pf : Platform) (dsn : string) (b : Batch) : string :=
  payload pf dsn (fst b) (snd b).

(** A record with its identifier blanked: what is left is what the caller
    and the clock decide. *)
Definition forget_id (r : MetricPayload) : MetricPayload :=
  {| m_timestamp := m_timestamp r; m_trace_id := EmptyString; m_name := m_name r;
     m_value := m_value r; m_type := m_type r; m_unit := m_unit r;
     m_attributes := m_attributes r |}.

Definition same_records (a b : list MetricPayload) : Prop :=
  map forget_id a = map forget_id b.

(** Two platform calls that are the same but for the identifiers in the
    records of a request. *)
Definition same_call (pf : Platform) (dsn : string) (c1 c2 : Call) : Prop :=
  match c1, c2 with
  | CallSetTimeout h1 d1, CallSetTimeout h2 d2 => h1 = h2 /\ d1 = d2
  | CallClearTimeout h1, CallClearTimeout h2 => h1 = h2
  | CallFetch r1, CallFetch r2 =>
      req_url r1 = req_url r2 /\ req_method r1 = req_method r2
      /\ req_headers r1 = req_headers r2
      /\ exists now items1 items2,
          req_body r1 = payload pf dsn now items1
          /\ req_body r2 = payload pf dsn now items2
          /\ same_records items1 items2
  | _, _ => False
  end.

(** Two states that are the same but for the identifiers of the records. *)
Definition same_but_ids (pf : Platform) (dsn : string) (s1 s2 : State) : Prop :=
  flushTimer s1 = flushTimer s2 /\ clock s1 = clock s2 /\ timers s1 = timers s2
  /\ next_handle s1 = next_handle s2 /\ drawn s1 = drawn s2
  /\ same_records (buffer s1) (buffer s2)
  /\ Forall2 (same_call pf dsn) (calls s1) (calls s2).

(** The headers of every request, for the credential [key]. *)
Definition expected_headers (key : string) : list (string * string) :=
  [("Content-Type", "application/x-sentry-envelope");
   ("X-Sentry-Auth", "Sentry sentry_key=" ++ key ++ ", sentry_version=7")].

(** Ninety-nine recording calls spread over a little less than five seconds,
    the event loop running in between. *)
Definition ninety_nine_spread : list Event :=
  flat_map (fun i => [Count "tick" None None; Advance 50; Timer]) (seq 0 99).

(** The batches sent so far, followed by the buffer, are the records [recs]:
    the bodies of the requests made are the payloads of the batches, each of
    one to a hundred records. *)
Definition accounts_for (pf : Platform) (dsn : string) (s : State)
           (recs : list MetricPayload) : Prop :=
  exists batches : list Batch,
    map req_body (transport_calls s) = map (batch_payload pf dsn) batches
    /\ (List.concat (map snd batches) ++ buffer s)%list = recs
    /\ Forall (fun b : Batch => (1 <= List.length (snd b) <= 100)%nat) batches.

(* ================================================================== *)
(** * Facts about text *)
(* ================================================================== *)

Lemma all_chars_app (p : ascii -> bool) (a b : string) :
  all_chars p (a ++ b) = all_chars p a && all_chars p b.
Proof.
  induction a as [|c a IH]; cbn; [reflexivity|].
  now rewrite IH, andb_assoc.
Qed.

Lemma all_chars_join (p : ascii -> bool) (sep : string) (parts : list string) :
  all_chars p sep = true ->
  Forall (fun s => all_chars p s = true) parts ->
  all_chars p (join sep parts) = true.
Proof.
  intros Hsep H. induction H as [|s parts Hs Hparts IH]; [reflexivity|].
  destruct parts as [|s' parts]; [exact Hs|].
  change (join sep (s :: s' :: parts)) with (s ++ sep ++ join sep (s' :: parts)).
  now rewrite !all_chars_app, Hs, Hsep, IH.
Qed.

Lemma all_chars_repeat_to (p : ascii -> bool) (fill : string) (n : nat) (cur : string) :
  all_chars p fill = true -> all_chars p cur = true ->
  all_chars p (repeat_to n fill cur) = true.
Proof.
  intros Hf. revert cur. induction n as [|n IH]; intros cur Hc; [reflexivity|].
  cbn. destruct cur as [|c r].
  - destruct fill as [|c r]; [reflexivity|].
    cbn in Hf |- *. apply andb_prop in Hf as [Hc' Hr]. rewrite Hc'. cbn.
    apply IH. exact Hr.
  - cbn in Hc |- *. apply andb_prop in Hc as [Hc' Hr]. rewrite Hc'. cbn.
    apply IH. exact Hr.
Qed.

Lemma all_chars_padStart (p : ascii -> bool) (n : nat) (fill s : string) :
  all_chars p fill = true -> all_chars p s = true ->
  all_chars p (padStart n fill s) = true.
Proof.
  intros Hf Hs. unfold padStart.
  destruct (n <=? String.length s)%nat; [exact Hs|].
  destruct (truthy fill); [|exact Hs].
  rewrite all_chars_app, Hs, andb_true_r. now apply all_chars_repeat_to.
Qed.

Lemma all_chars_digits_fuel (p : ascii -> bool) (radix : Z) (fuel : nat) (n : Z) (acc : string) :
  0 < radix -> holds_digits p radix -> all_chars p acc = true ->
  all_chars p (digits_fuel fuel radix n acc) = true.
Proof.
  intros Hr Hp. revert n acc. induction fuel as [|f IH]; intros n acc Ha; [exact Ha|].
  cbn [digits_fuel].
  assert (Hd : all_chars p (String (digit_char (n mod radix)) acc) = true).
  { cbn. rewrite Ha, andb_true_r. apply Hp. apply Z.mod_pos_bound. exact Hr. }
  destruct (n / radix =? 0); [exact Hd|]. apply IH. exact Hd.
Qed.

Lemma all_chars_Z_toString (p : ascii -> bool) (radix n : Z) :
  0 < radix -> holds_digits p radix -> all_chars p (Z_toString radix n) = true.
Proof. intros Hr Hp. unfold Z_toString. now apply all_chars_digits_fuel. Qed.

Lemma sixteen_cases (d : Z) :
  0 <= d < 16 ->
  d = 0 \/ d = 1 \/ d = 2 \/ d = 3 \/ d = 4 \/ d = 5 \/ d = 6 \/ d = 7
  \/ d = 8 \/ d = 9 \/ d = 10 \/ d = 11 \/ d = 12 \/ d = 13 \/ d = 14 \/ d = 15.
Proof. lia. Qed.

Lemma lower_hex_digits : holds_digits is_lower_hex 16.
Proof.
  intros d Hd. destruct (sixteen_cases d Hd) as [H|H]; repeat (destruct H as [H|H]);
    subst d; reflexivity.
Qed.

Lemma not_LF_digits16 : holds_digits not_LF 16.
Proof.
  intros d Hd. destruct (sixteen_cases d Hd) as [H|H]; repeat (destruct H as [H|H]);
    subst d; reflexivity.
Qed.

Lemma not_LF_digits10 : holds_digits not_LF 10.
Proof. intros d Hd. apply not_LF_digits16. lia. Qed.

(** ** Quoted strings hold no line feed *)

Lemma quote_char_no_LF (c : ascii) : all_chars not_LF (quote_char c) = true.
Proof.
  destruct c as [b0 b1 b2 b3 b4 b5 b6 b7].
  destruct b0, b1, b2, b3, b4, b5, b6, b7; reflexivity.
Qed.

Lemma quote_chars_no_LF (s : string) : all_chars not_LF (quote_chars s) = true.
Proof.
  induction s as [|c s IH]; [reflexivity|].
  cbn [quote_chars]. now rewrite all_chars_app, quote_char_no_LF, IH.
Qed.

Lemma QuoteJSONString_no_LF (s : string) : all_chars not_LF (QuoteJSONString s) = true.
Proof.
  unfold QuoteJSONString. cbn [all_chars].
  rewrite all_chars_app, quote_chars_no_LF. reflexivity.
Qed.

Section StringifyFacts.

Variable Number_toString : number -> string.
Hypothesis Number_toString_no_LF : forall x, all_chars not_LF (Number_toString x) = true.

Lemma JSON_stringify_no_LF (j : json) :
  all_chars not_LF (JSON_stringify Number_toString j) = true.
Proof.
  induction j as [ |b|x|s|items IH|props IH] using json_induction.
  - reflexivity.
  - now destruct b.
  - cbn. unfold stringify_number. destruct (Number_isFinite x); [apply Number_toString_no_LF|].
    reflexivity.
  - apply QuoteJSONString_no_LF.
  - cbn [JSON_stringify]. cbn [all_chars append]. rewrite all_chars_app.
    rewrite all_chars_join; [reflexivity|reflexivity|].
    induction IH as [|x l Hx Hl IHl]; cbn [map]; constructor; assumption.
  - cbn [JSON_stringify]. cbn [all_chars append]. rewrite all_chars_app.
    rewrite all_chars_join; [reflexivity|reflexivity|].
    induction IH as [|x l Hx Hl IHl]; cbn [map]; constructor; [|assumption].
    cbn beta. rewrite !all_chars_app, QuoteJSONString_no_LF. cbn. exact Hx.
Qed.

End StringifyFacts.

(** ** Splitting what was joined *)

Lemma split_no_sep (sep : ascii) (s : string) :
  all_chars (fun c => negb (Ascii.eqb c sep)) s = true -> split sep s = [s].
Proof.
  induction s as [|c s IH]; [reflexivity|].
  cbn. intros H. apply andb_prop in H as [Hc Hs].
  apply negb_true_iff in Hc. rewrite Hc, (IH Hs). reflexivity.
Qed.

Lemma split_app (sep : ascii) (a b : string) :
  all_chars (fun c => negb (Ascii.eqb c sep)) a = true ->
  split sep (a ++ String sep b) = a :: split sep b.
Proof.
  induction a as [|c a IH]; cbn.
  - intros _. now rewrite Ascii.eqb_refl.
  - intros H. apply andb_prop in H as [Hc Ha].
    apply negb_true_iff in Hc. rewrite Hc, (IH Ha). reflexivity.
Qed.

Lemma last_char_app (a b : string) :
  b <> EmptyString -> last_char (a ++ b) = last_char b.
Proof.
  intros Hb. induction a as [|c a IH]; [reflexivity|].
  cbn [append]. change (last_char (String c (a ++ b)))
    with (match a ++ b with EmptyString => Some c | _ => last_char (a ++ b) end).
  destruct (a ++ b) eqn:E; [|exact IH].
  destruct a; cbn in E; [contradiction|discriminate].
Qed.

Lemma last_char_suffix (a b : string) (c : ascii) :
  last_char b = Some c -> last_char (a ++ b) = Some c.
Proof.
  intros H. rewrite last_char_app; [exact H|]. intros ->. discriminate.
Qed.
(* ================================================================== *)
(** * Both revisions compute the scheduler functions *)
(* ================================================================== *)

Ltac run_monad :=
  unfold bind, ret, gets, modify, async, await, try_catch, throw, exec, result,
    Date_now, clearTimeout, setTimeout, getRandomValues, fetch; cbn [fst snd].

Section Refinement.

Variable pf : Platform.
Variables dsn publicKey envelopeUrl : string.

Lemma Factored_flush_drain (s : State) :
  Factored.flush pf dsn publicKey envelopeUrl s
  = (Normal (Fulfilled tt), Scheduler.drain pf dsn publicKey envelopeUrl s).
Proof.
  unfold Factored.flush, Factored.buildEnvelope, Scheduler.drain, Scheduler.cancel,
    Scheduler.request, Scheduler.segments.
  run_monad.
  destruct s as [b t c ts nh d cs]; cbn.
  destruct t as [h|]; cbn; destruct b as [|x b]; cbn; try reflexivity;
    destruct (network pf _); reflexivity.
Qed.

Lemma Compact_flush_drain (s : State) :
  Compact.flush pf dsn publicKey envelopeUrl s
  = (Normal (Fulfilled tt), Scheduler.drain pf dsn publicKey envelopeUrl s).
Proof.
  unfold Compact.flush, Scheduler.drain, Scheduler.cancel,
    Scheduler.request, Scheduler.segments.
  run_monad.
  destruct s as [b t c ts nh d cs]; cbn.
  destruct t as [h|]; cbn; destruct b as [|x b]; cbn; try reflexivity;
    destruct (network pf _); reflexivity.
Qed.

Lemma fold_left_ext {A B} (f g : A -> B -> A) (l : list B) (a : A) :
  (forall x y, f x y = g x y) -> fold_left f l a = fold_left g l a.
Proof.
  intros E. revert a. induction l as [|y l IH]; intros a; cbn; [reflexivity|].
  rewrite E. apply IH.
Qed.

Lemma formatAttributeValue_classify (v : AttributeValue) :
  Factored.formatAttributeValue pf v = Scheduler.classify v.
Proof.
  destruct v as [str|x|b]; unfold Factored.formatAttributeValue, Scheduler.classify; cbn;
    [reflexivity| |reflexivity].
  destruct (Number_isInteger x); reflexivity.
Qed.

Lemma formatAttributes_encode (a : option Attributes) :
  Factored.formatAttributes pf a = option_map Scheduler.encode_attributes a.
Proof.
  destruct a as [a|]; cbn; [|reflexivity].
  unfold Scheduler.encode_attributes, Object_entries. f_equal.
  apply fold_left_ext. intros acc kv. now rewrite formatAttributeValue_classify.
Qed.

Lemma inline_classify (v : AttributeValue) :
  {| fa_value := v;
     fa_type := if String.eqb (typeof v) "number"
                then (if isInteger v then "integer" else "double")
                else typeof v |}
  = Scheduler.classify v.
Proof. destruct v; reflexivity. Qed.

Lemma Factored_createMetric_record name value type options (s : State) :
  Factored.createMetric pf dsn publicKey envelopeUrl name value type options s
  = (Normal tt,
     Scheduler.record pf dsn publicKey envelopeUrl render_factored
       name value type options s).
Proof.
  unfold Factored.createMetric, Scheduler.record, Scheduler.push, Factored.scheduleFlush,
    Factored.generateTraceId.
  unfold bind at 1 2 3 4 5. unfold Date_now, gets at 1. cbn [fst snd].
  unfold getRandomValues at 1. cbn [fst snd]. unfold ret at 1.
  rewrite formatAttributes_encode.
  set (m1 := match option_map _ _ with Some fa => _ | None => _ end).
  assert (Hm : m1 = Scheduler.record_of pf render_factored s name value type options).
  { subst m1. unfold Scheduler.record_of, Scheduler.encode, Scheduler.next_bytes,
      render_factored.
    destruct (options_unit options) as [u|]; [destruct (truthy u)|];
      destruct (options_attributes options); reflexivity. }
  rewrite Hm. clear Hm m1. unfold modify at 1, gets at 1. cbn [fst snd].
  unfold exec at 1. unfold getRandomValues at 1. cbn [fst snd].
  change Factored.BUFFER_SIZE_LIMIT with 100%nat.
  change Factored.FLUSH_INTERVAL_MS with 5000.
  cbn [buffer with_buffer].
  match goal with |- context [(100 <=? ?n)%nat] => destruct (100 <=? n)%nat end.
  - unfold bind. rewrite Factored_flush_drain. reflexivity.
  - unfold Scheduler.arm. run_monad. cbn.
    destruct (flushTimer s); reflexivity.
Qed.

Lemma Compact_add_record name value type options (s : State) :
  Compact.add pf dsn publicKey envelopeUrl name value type options s
  = (Normal tt,
     Scheduler.record pf dsn publicKey envelopeUrl render_compact
       name value type options s).
Proof.
  unfold Compact.add, Scheduler.record, Scheduler.push, randomUUID.
  unfold bind at 1 2 3 4 5. unfold Date_now, gets at 1. cbn [fst snd].
  unfold getRandomValues at 1. cbn [fst snd]. unfold ret at 1.
  set (m1 := match options_attributes _ with Some fa => _ | None => _ end).
  assert (Hm : m1 = Scheduler.record_of pf render_compact s name value type options).
  { subst m1. unfold Scheduler.record_of, Scheduler.encode, Scheduler.next_bytes,
      render_compact, Scheduler.encode_attributes, Object_entries.
    destruct (options_attributes options) as [a|]; cbn [option_map].
    - rewrite (fold_left_ext _ (fun acc kv => obj_set (fst kv) (Scheduler.classify (snd kv)) acc))
        by (intros; cbn; now rewrite inline_classify).
      destruct (options_unit options) as [u|]; [destruct (truthy u)|]; reflexivity.
    - destruct (options_unit options) as [u|]; [destruct (truthy u)|]; reflexivity. }
  rewrite Hm. clear Hm m1. unfold modify at 1, gets at 1. cbn [fst snd].
  unfold exec at 1. unfold getRandomValues at 1. cbn [fst snd].
  cbn [buffer with_buffer].
  match goal with |- context [(100 <=? ?n)%nat] => destruct (100 <=? n)%nat end.
  - unfold bind. rewrite Compact_flush_drain. reflexivity.
  - unfold Scheduler.arm. run_monad. cbn.
    destruct (flushTimer s); reflexivity.
Qed.

End Refinement.

Lemma Factored_implements (pf : Platform) (dsn publicKey envelopeUrl : string) :
  Scheduler.implements pf dsn publicKey envelopeUrl render_factored
    (Factored_client pf dsn publicKey envelopeUrl).
Proof.
  unfold Scheduler.implements, Factored_client;
    cbn [Metrics.count Metrics.gauge Metrics.distribution Metrics.flush].
  repeat split; intros;
    first [apply Factored_createMetric_record | apply Factored_flush_drain].
Qed.

Lemma Compact_implements (pf : Platform) (dsn publicKey envelopeUrl : string) :
  Scheduler.implements pf dsn publicKey envelopeUrl render_compact
    (Compact_client pf dsn publicKey envelopeUrl).
Proof.
  unfold Scheduler.implements, Compact_client;
    cbn [Metrics.count Metrics.gauge Metrics.distribution Metrics.flush].
  repeat split; intros;
    first [apply Compact_add_record | apply Compact_flush_drain].
Qed.

(** A client built by either revision computes the scheduler functions, and
    starts with its two variables initialised. *)
Lemma built_implements (pf : Platform) (dsn : string) (s : State) (m : Metrics.t) (s' : State) :
  built pf dsn s m s' ->
  exists publicKey envelopeUrl render,
    Scheduler.implements pf dsn publicKey envelopeUrl render m
    /\ (render = render_factored \/ render = render_compact)
    /\ s' = with_flushTimer None (with_buffer [] s).
Proof.
  intros [H|H].
  - unfold Factored.createMetrics in H.
    destruct (Factored.parseDSN pf dsn) as [parsed|e]; [|discriminate].
    revert H. run_monad. intros H. injection H as Hm Hs. subst m s'.
    do 3 eexists. split; [apply Factored_implements|]. split; [now left|reflexivity].
  - unfold Compact.createMetrics in H.
    destruct (URL_parse pf dsn) as [url|]; [|discriminate].
    destruct (_ || _); [discriminate|].
    revert H. run_monad. intros H. injection H as Hm Hs. subst m s'.
    do 3 eexists. split; [apply Compact_implements|]. split; [now right|reflexivity].
Qed.

Section Simulation.

Variable pf : Platform.
Variables dsn publicKey envelopeUrl : string.
Variable render : list byte -> string.
Variable m : Metrics.t.
Hypothesis Hm : Scheduler.implements pf dsn publicKey envelopeUrl render m.

Local Notation next := (Scheduler.next pf dsn publicKey envelopeUrl render).

Lemma step_next (s : State) (e : Event) : step m s e = next s e.
Proof.
  destruct Hm as (Hc & Hg & Hd & Hf).
  destruct e; cbn; unfold exec; rewrite ?Hc, ?Hg, ?Hd, ?Hf; try reflexivity.
  destruct (due_timer s); [rewrite Hf|]; reflexivity.
Qed.

Lemma run_next (tr : list Event) (s : State) : run m s tr = fold_left next tr s.
Proof.
  revert s. induction tr as [|e tr IH]; intros s; cbn; [reflexivity|].
  fold (run m (step m s e) tr). now rewrite IH, step_next.
Qed.

Lemma outcome_normal (s : State) (e : Event) : outcome m s e = Normal (Fulfilled tt).
Proof.
  destruct Hm as (Hc & Hg & Hd & Hf).
  destruct e; cbn; unfold result; rewrite ?Hc, ?Hg, ?Hd, ?Hf; try reflexivity.
  destruct (due_timer s); [rewrite Hf|]; reflexivity.
Qed.

End Simulation.

(* ================================================================== *)
(** * Facts about the scheduler functions *)
(* ================================================================== *)

Lemma requests_app (a b : list Call) : requests (a ++ b) = (requests a ++ requests b)%list.
Proof.
  induction a as [|c a IH]; cbn; [reflexivity|].
  destruct c; cbn; now rewrite IH.
Qed.

Section SchedulerFacts.

Variable pf : Platform.
Variables dsn publicKey envelopeUrl : string.
Variable render : list byte -> string.

Local Notation drain := (Scheduler.drain pf dsn publicKey envelopeUrl).
Local Notation arm := Scheduler.arm.
Local Notation push := (Scheduler.push pf).
Local Notation record := (Scheduler.record pf dsn publicKey envelopeUrl render).
Local Notation next := (Scheduler.next pf dsn publicKey envelopeUrl render).

Lemma exec_fetch (req : Request) (s : State) :
  exec (fetch pf req) s
  = {| buffer := buffer s; flushTimer := flushTimer s; clock := clock s;
       timers := timers s; next_handle := next_handle s; drawn := drawn s;
       calls := (calls s ++ [CallFetch req])%list |}.
Proof. unfold exec, fetch. destruct (network pf req); reflexivity. Qed.

Lemma drain_eq (s : State) :
  drain s
  = {| buffer := []; flushTimer := None; clock := clock s;
       timers := match flushTimer s with
                 | Some h => filter (fun t => negb (Pos.eqb (fst t) h)) (timers s)
                 | None => timers s
                 end;
       next_handle := next_handle s; drawn := drawn s;
       calls := (calls s ++ cancellation s
                   ++ transmission pf dsn publicKey envelopeUrl s)%list |}.
Proof.
  unfold Scheduler.drain, Scheduler.cancel, cancellation, transmission.
  destruct s as [b t c ts nh d cs]; cbn.
  destruct b as [|x b]; destruct t as [h|]; rewrite ?exec_fetch; cbn;
    unfold with_flushTimer, with_buffer; cbn;
    rewrite ?app_nil_r, <- ?app_assoc; reflexivity.
Qed.

Lemma arm_eq (s : State) :
  arm s
  = match flushTimer s with
    | Some _ => s
    | None =>
        {| buffer := buffer s; flushTimer := Some (next_handle s); clock := clock s;
           timers := (timers s ++ [(next_handle s, clock s + 5000)])%list;
           next_handle := Pos.succ (next_handle s); drawn := drawn s;
           calls := (calls s ++ [CallSetTimeout (next_handle s) (clock s + 5000)])%list |}
    end.
Proof. unfold Scheduler.arm. destruct (flushTimer s); reflexivity. Qed.

Lemma push_eq (r : MetricPayload) (s : State) :
  push r s
  = {| buffer := (buffer s ++ [r])%list; flushTimer := flushTimer s; clock := clock s;
       timers := timers s; next_handle := next_handle s;
       drawn := (drawn s + 16)%nat; calls := calls s |}.
Proof. reflexivity. Qed.

Lemma record_eq name value type options (s : State) :
  record name value type options s
  = let r := Scheduler.record_of pf render s name value type options in
    if (99 <=? List.length (buffer s))%nat then drain (push r s) else arm (push r s).
Proof.
  unfold Scheduler.record. cbn zeta. rewrite push_eq. cbn [buffer].
  rewrite length_app. cbn [List.length].
  replace (100 <=? List.length (buffer s) + 1)%nat with (99 <=? List.length (buffer s))%nat;
    [reflexivity|].
  destruct (Nat.leb_spec 99 (List.length (buffer s)));
    destruct (Nat.leb_spec 100 (List.length (buffer s) + 1)); lia || reflexivity.
Qed.

(** ** The invariant *)

Lemma drain_Idle (s : State) :
  (timers s = [] \/ exists h due, flushTimer s = Some h /\ timers s = [(h, due)]) ->
  Idle (drain s).
Proof.
  intros H. rewrite drain_eq. unfold Idle; cbn. repeat split.
  destruct H as [H|(h & due & Hf & Ht)].
  - rewrite H. now destruct (flushTimer s).
  - rewrite Hf, Ht. cbn. now rewrite Pos.eqb_refl.
Qed.

Lemma settled_drain (s : State) : settled s -> Idle (drain s).
Proof.
  intros [(_ & _ & Ht)|(_ & _ & h & due & Hf & Ht)]; apply drain_Idle; eauto.
Qed.

Lemma settled_record name value type options (s : State) :
  settled s -> settled (record name value type options s).
Proof.
  intros H. rewrite record_eq. cbn zeta.
  destruct (Nat.leb_spec 99 (List.length (buffer s))) as [Hn|Hn].
  - left. apply drain_Idle. rewrite push_eq; cbn.
    destruct H as [(_ & _ & Ht)|(_ & _ & h & due & Hf & Ht)]; eauto.
  - right. rewrite arm_eq, push_eq. cbn [flushTimer].
    destruct H as [(Hb & Hf & Ht)|(_ & _ & h & due & Hf & Ht)]; rewrite Hf.
    + unfold Accumulating; cbn. rewrite Hb, Ht. cbn.
      split; [discriminate|]. split; [lia|]. eauto.
    + unfold Accumulating; cbn. rewrite length_app. cbn.
      split; [now destruct (buffer s)|]. split; [lia|]. eauto.
Qed.

Lemma due_timer_expire (s : State) (h : positive) :
  settled s -> due_timer s = Some h ->
  flushTimer s = Some h /\ timers (expire h s) = [] /\ buffer (expire h s) = buffer s
  /\ flushTimer (expire h s) = Some h /\ buffer s <> []
  /\ exists due, timers s = [(h, due)] /\ due <= clock s.
Proof.
  unfold due_timer.
  intros [(_ & _ & Ht)|(Hb & _ & h' & due & Hf & Ht)]; rewrite Ht; cbn; [discriminate|].
  destruct (Z.leb_spec due (clock s)); [|discriminate].
  intros E. injection E as ->. rewrite Ht. cbn. rewrite Pos.eqb_refl. cbn.
  repeat split; eauto.
Qed.

Lemma settled_next (s : State) (e : Event) : settled s -> settled (next s e).
Proof.
  intros H. destruct e; cbn.
  - now apply settled_record.
  - now apply settled_record.
  - now apply settled_record.
  - left. now apply settled_drain.
  - exact H.
  - destruct (due_timer s) as [h|] eqn:E; [|exact H].
    left. apply drain_Idle. left. now apply due_timer_expire.
Qed.

Lemma settled_run (tr : list Event) (s : State) :
  settled s -> settled (fold_left next tr s).
Proof.
  revert s. induction tr as [|e tr IH]; intros s H; cbn; [exact H|].
  apply IH. now apply settled_next.
Qed.

End SchedulerFacts.

(* ================================================================== *)
(** * Runs of recording calls *)
(* ================================================================== *)

Section Runs.

Variable pf : Platform.
Variables dsn publicKey envelopeUrl : string.
Variable render : list byte -> string.

Local Notation drain := (Scheduler.drain pf dsn publicKey envelopeUrl).
Local Notation record := (Scheduler.record pf dsn publicKey envelopeUrl render).
Local Notation next := (Scheduler.next pf dsn publicKey envelopeUrl render).
Local Notation request := (Scheduler.request pf dsn publicKey envelopeUrl).
Local Notation record_of := (Scheduler.record_of pf render).

(** The record a recording event appends in state [s]. *)
Local Notation record_for s e :=
  (record_of s (event_name e) (event_value e) (event_type e) (event_options e)).

Lemma next_recording (s : State) (e : Event) :
  is_recording e = true ->
  next s e = record (event_name e) (event_value e) (event_type e) (event_options e) s.
Proof. destruct e; cbn; intros H; try discriminate; reflexivity. Qed.

Lemma record_of_fields (s : State) (e : Event) :
  m_name (record_for s e) = event_name e
  /\ m_value (record_for s e) = event_value e
  /\ m_type (record_for s e) = event_type e.
Proof. repeat split. Qed.

(** Below the threshold a recording call only appends (and arms). *)
Lemma next_below (s : State) (e : Event) :
  is_recording e = true -> (List.length (buffer s) < 99)%nat ->
  buffer (next s e) = (buffer s ++ [record_for s e])%list
  /\ transport_calls (next s e) = transport_calls s
  /\ clock (next s e) = clock s
  /\ drawn (next s e) = (drawn s + 16)%nat.
Proof.
  intros He Hn. rewrite (next_recording _ _ He), record_eq. cbn zeta.
  destruct (Nat.leb_spec 99 (List.length (buffer s))); [lia|].
  rewrite arm_eq, push_eq. cbn [flushTimer].
  destruct (flushTimer s); cbn; repeat split.
  unfold transport_calls; cbn. rewrite requests_app; cbn. apply app_nil_r.
Qed.

(** At the threshold it drains: one request, carrying the whole buffer. *)
Lemma next_full (s : State) (e : Event) :
  is_recording e = true -> (99 <= List.length (buffer s))%nat ->
  buffer (next s e) = []
  /\ flushTimer (next s e) = None
  /\ transport_calls (next s e)
     = (transport_calls s ++ [request (clock s) (buffer s ++ [record_for s e])])%list
  /\ clock (next s e) = clock s
  /\ drawn (next s e) = (drawn s + 16)%nat.
Proof.
  intros He Hn. rewrite (next_recording _ _ He), record_eq. cbn zeta.
  destruct (Nat.leb_spec 99 (List.length (buffer s))); [|lia].
  rewrite drain_eq, push_eq. cbn. repeat split.
  unfold transport_calls, cancellation, transmission; cbn.
  rewrite !requests_app.
  destruct (flushTimer s); cbn; destruct (buffer s); cbn; reflexivity.
Qed.

Lemma run_below (tr : list Event) (s : State) :
  forallb is_recording tr = true ->
  (List.length (buffer s) + List.length tr < 100)%nat ->
  exists rs,
    buffer (fold_left next tr s) = (buffer s ++ rs)%list
    /\ transport_calls (fold_left next tr s) = transport_calls s
    /\ clock (fold_left next tr s) = clock s
    /\ drawn (fold_left next tr s) = (drawn s + 16 * List.length tr)%nat
    /\ map m_name rs = map event_name tr
    /\ map m_value rs = map event_value tr
    /\ map m_type rs = map event_type tr.
Proof.
  revert s. induction tr as [|e tr IH]; intros s Hr Hn.
  - exists []. cbn. rewrite app_nil_r. repeat split; lia.
  - cbn in Hr. apply andb_prop in Hr as [He Hr]. cbn [List.length] in Hn.
    destruct (next_below s e He) as (Hb & Hc & Hk & Hd); [lia|].
    destruct (IH (next s e) Hr) as (rs & Hb' & Hc' & Hk' & Hd' & Hn1 & Hn2 & Hn3).
    { rewrite Hb, length_app. cbn. lia. }
    exists (record_for s e :: rs). cbn [fold_left].
    rewrite Hb', Hc', Hk', Hd', Hb, Hc, Hk, Hd, <- app_assoc. cbn [map List.length].
    rewrite Hn1, Hn2, Hn3. repeat split. lia.
Qed.

(** Ninety-nine recording calls and one more, on an idle client whose
    transport has not been used. *)
Lemma run_ninety_nine_and_one (pre : list Event) (e : Event) (s : State) :
  buffer s = [] -> transport_calls s = [] ->
  List.length pre = 99%nat -> forallb is_recording pre = true -> is_recording e = true ->
  transport_calls (fold_left next pre s) = []
  /\ exists items,
      transport_calls (fold_left next (pre ++ [e]) s) = [request (clock s) items]
      /\ List.length items = 100%nat
      /\ map m_name items = map event_name (pre ++ [e])
      /\ map m_value items = map event_value (pre ++ [e])
      /\ map m_type items = map event_type (pre ++ [e])
      /\ buffer (fold_left next (pre ++ [e]) s) = []
      /\ flushTimer (fold_left next (pre ++ [e]) s) = None.
Proof.
  intros Hb Hc Hl Hr1 Hr2.
  destruct (run_below pre s Hr1) as (rs & Hb' & Hc' & Hk' & _ & Hn1 & Hn2 & Hn3).
  { rewrite Hb, Hl. cbn. lia. }
  rewrite Hb in Hb'. cbn [app] in Hb'.
  split; [now rewrite Hc'|].
  assert (Hlen : List.length rs = 99%nat).
  { rewrite <- (length_map m_name), Hn1, length_map. exact Hl. }
  rewrite fold_left_app. cbn [fold_left].
  destruct (next_full (fold_left next pre s) e Hr2) as (Hb2 & Hf2 & Hc2 & _);
    [rewrite Hb'; lia|].
  exists (rs ++ [record_for (fold_left next pre s) e])%list.
  rewrite Hc2, Hc', Hc, Hb', Hk'. cbn [app].
  rewrite length_app, Hlen, !map_app, Hn1, Hn2, Hn3.
  repeat split; assumption.
Qed.

Lemma hundred_split (tr : list Event) :
  List.length tr = 100%nat ->
  exists e, tr = (firstn 99 tr ++ [e])%list /\ List.length (firstn 99 tr) = 99%nat.
Proof.
  intros Hl.
  assert (Hl2 : List.length (skipn 99 tr) = 1%nat) by (rewrite length_skipn; lia).
  destruct (skipn 99 tr) as [|e [|e' rest]] eqn:Hs; try discriminate.
  exists e. split; [|rewrite length_firstn; lia].
  rewrite <- Hs. symmetry. apply firstn_skipn.
Qed.

End Runs.

(* ================================================================== *)
(** * Drains *)
(* ================================================================== *)

Section Drains.

Variable pf : Platform.
Variables dsn publicKey envelopeUrl : string.
Variable render : list byte -> string.

Local Notation drain := (Scheduler.drain pf dsn publicKey envelopeUrl).
Local Notation next := (Scheduler.next pf dsn publicKey envelopeUrl render).
Local Notation request := (Scheduler.request pf dsn publicKey envelopeUrl).
Local Notation record_of := (Scheduler.record_of pf render).

Lemma drain_transport (s : State) :
  transport_calls (drain s)
  = (transport_calls s
     ++ match buffer s with [] => [] | items => [request (clock s) items] end)%list.
Proof.
  rewrite drain_eq. unfold transport_calls, cancellation, transmission. cbn.
  rewrite !requests_app.
  destruct (flushTimer s); destruct (buffer s); reflexivity.
Qed.

Lemma drain_empty_quiet (s : State) :
  buffer s = [] -> transport_calls (drain s) = transport_calls s.
Proof. intros H. rewrite drain_transport, H. apply app_nil_r. Qed.

Lemma drain_drain (s : State) : drain (drain s) = drain s.
Proof.
  rewrite (drain_eq _ _ _ _ (drain s)).
  rewrite drain_eq at 1 2 3 4 5 6 7. cbn.
  unfold cancellation, transmission. cbn. rewrite !app_nil_r.
  rewrite drain_eq. reflexivity.
Qed.

Lemma drain_fields (s : State) :
  buffer (drain s) = [] /\ flushTimer (drain s) = None /\ clock (drain s) = clock s.
Proof. rewrite drain_eq. repeat split. Qed.

Lemma fold_left_flush (s : State) : fold_left next [Flush] s = drain s.
Proof. reflexivity. Qed.

(** One recording call on an idle client, then a flush. *)
Lemma record_then_flush (s : State) (e : Event) :
  is_recording e = true -> buffer s = [] ->
  transport_calls (fold_left next [e; Flush] s)
  = (transport_calls s
     ++ [request (clock s)
           [record_of s (event_name e) (event_value e) (event_type e) (event_options e)]])%list.
Proof.
  intros He Hb. cbn [fold_left].
  destruct (next_below pf dsn publicKey envelopeUrl render s e He) as (Hb' & Hc' & Hk' & _);
    [rewrite Hb; cbn; lia|].
  change (Scheduler.next pf dsn publicKey envelopeUrl render (next s e) Flush)
    with (drain (next s e)).
  rewrite drain_transport, Hb', Hc', Hk', Hb. reflexivity.
Qed.

End Drains.

(* ================================================================== *)
(** * The requests a client makes *)
(* ================================================================== *)

Section Requests.

Variable pf : Platform.
Variables dsn publicKey envelopeUrl : string.
Variable render : list byte -> string.

Local Notation next := (Scheduler.next pf dsn publicKey envelopeUrl render).
Local Notation drain := (Scheduler.drain pf dsn publicKey envelopeUrl).
Local Notation request := (Scheduler.request pf dsn publicKey envelopeUrl).

Lemma settled_buffer_bound (s : State) : settled s -> (List.length (buffer s) < 100)%nat.
Proof.
  intros [(Hb & _)|(_ & Hn & _)]; [rewrite Hb; cbn; lia|exact Hn].
Qed.

Lemma request_batch (now : Z) (items : list MetricPayload) :
  (1 <= List.length items <= 100)%nat -> batch_request pf dsn (request now items).
Proof. intros H. exists now, items. repeat split; apply H. Qed.

Lemma drain_requests (s : State) :
  (List.length (buffer s) <= 100)%nat ->
  Forall (batch_request pf dsn) (transport_calls s) ->
  Forall (batch_request pf dsn) (transport_calls (drain s)).
Proof.
  intros Hn H. rewrite drain_transport. apply Forall_app. split; [exact H|].
  destruct (buffer s) as [|x b] eqn:E; constructor; [|constructor].
  apply request_batch. cbn [List.length] in *. lia.
Qed.

Lemma next_requests (s : State) (e : Event) :
  settled s ->
  Forall (batch_request pf dsn) (transport_calls s) ->
  Forall (batch_request pf dsn) (transport_calls (next s e)).
Proof.
  intros Hs H. pose proof (settled_buffer_bound s Hs) as Hn.
  assert (Hrec : forall name value type options,
             Forall (batch_request pf dsn)
               (transport_calls
                  (Scheduler.record pf dsn publicKey envelopeUrl render
                     name value type options s))).
  { intros. rewrite record_eq. cbn zeta.
    destruct (99 <=? List.length (buffer s))%nat.
    - apply drain_requests; rewrite push_eq; cbn; [|exact H].
      rewrite length_app. cbn. lia.
    - rewrite arm_eq, push_eq. cbn [flushTimer].
      destruct (flushTimer s); unfold transport_calls; cbn; [exact H|].
      rewrite requests_app. cbn. rewrite app_nil_r. exact H. }
  destruct e; cbn [Scheduler.next]; try apply Hrec.
  - apply drain_requests; [lia|exact H].
  - exact H.
  - destruct (due_timer s) as [h|]; [|exact H].
    apply drain_requests; [cbn; lia|exact H].
Qed.

Lemma run_requests (tr : list Event) (s : State) :
  settled s ->
  Forall (batch_request pf dsn) (transport_calls s) ->
  Forall (batch_request pf dsn) (transport_calls (fold_left next tr s)).
Proof.
  revert s. induction tr as [|e tr IH]; intros s Hs H; [exact H|].
  cbn [fold_left]. apply IH; [now apply settled_next|now apply next_requests].
Qed.

End Requests.

Section PayloadShape.

Variable pf : Platform.
Hypothesis Number_toString_no_LF :
  forall x, all_chars not_LF (Number_toString pf x) = true.

Lemma payload_split (dsn : string) (now : Z) (items : list MetricPayload) :
  split LF (payload pf dsn now items) = Scheduler.segments pf dsn now items.
Proof.
  unfold payload, Scheduler.segments.
  cbn [join]. cbn [append].
  rewrite split_app by (apply JSON_stringify_no_LF; exact Number_toString_no_LF).
  rewrite split_app by (apply JSON_stringify_no_LF; exact Number_toString_no_LF).
  rewrite split_no_sep by (apply JSON_stringify_no_LF; exact Number_toString_no_LF).
  reflexivity.
Qed.

End PayloadShape.

Lemma payload_last_char (pf : Platform) (dsn : string) (now : Z) (items : list MetricPayload) :
  last_char (payload pf dsn now items) = Some "}"%char.
Proof.
  unfold payload, Scheduler.segments. cbn [join].
  do 4 apply last_char_suffix.
  cbn [JSON_stringify].
  do 2 apply last_char_suffix. reflexivity.
Qed.

(* ================================================================== *)
(** * The deadline *)
(* ================================================================== *)

Lemma elapsed_nonneg (tr : list Event) : 0 <= elapsed tr.
Proof. induction tr as [|e tr IH]; cbn; [lia|]. destruct e; lia. Qed.

Section Deadline.

Variable pf : Platform.
Variables dsn publicKey envelopeUrl : string.
Variable render : list byte -> string.

Local Notation next := (Scheduler.next pf dsn publicKey envelopeUrl render).
Local Notation drain := (Scheduler.drain pf dsn publicKey envelopeUrl).
Local Notation request := (Scheduler.request pf dsn publicKey envelopeUrl).

Lemma settled_deadline_None (s : State) :
  settled s -> deadline s = None -> Idle s.
Proof.
  intros [H|(_ & _ & h & due & _ & Ht)] Hd; [exact H|].
  unfold deadline in Hd. rewrite Ht in Hd. discriminate.
Qed.

Lemma settled_empty_Idle (s : State) : settled s -> buffer s = [] -> Idle s.
Proof. intros [H|(Hb & _)] E; [exact H|contradiction]. Qed.

(** A recording call below the threshold leaves a pending deadline as it
    is, and schedules one, 5000 ms ahead, when none is pending. *)
Lemma next_below_deadline (s : State) (e : Event) :
  settled s -> is_recording e = true -> (List.length (buffer s) < 99)%nat ->
  timers (next s e)
  = match timers s with
    | [] => [(next_handle s, clock s + 5000)]
    | ts => ts
    end.
Proof.
  intros Hs He Hn. rewrite (next_recording _ _ _ _ _ _ _ He), record_eq. cbn zeta.
  destruct (Nat.leb_spec 99 (List.length (buffer s))); [lia|].
  rewrite arm_eq, push_eq. cbn [flushTimer].
  destruct Hs as [(_ & Hf & Ht)|(_ & _ & h & due & Hf & Ht)]; rewrite Hf, Ht; reflexivity.
Qed.

Lemma due_timer_not_yet (s : State) :
  settled s ->
  match deadline s with Some due => clock s < due | None => True end ->
  due_timer s = None.
Proof.
  unfold due_timer, deadline.
  intros [(_ & _ & Ht)|(_ & _ & h & due & _ & Ht)]; rewrite Ht; cbn; [reflexivity|].
  intros H. destruct (Z.leb_spec due (clock s)); [lia|reflexivity].
Qed.

(** While no flush is called, the threshold is not reached and the
    deadline has not come, no request is made. *)
Lemma quiet_run (tr : list Event) (s : State) :
  settled s ->
  forallb (fun e => negb (is_flush e)) tr = true ->
  (List.length (buffer s) + recordings tr < 100)%nat ->
  match deadline s with
  | Some due => clock s + elapsed tr < due
  | None => elapsed_since_first_recording tr < 5000
  end ->
  transport_calls (fold_left next tr s) = transport_calls s.
Proof.
  revert s. induction tr as [|e tr IH]; intros s Hs Hnf Hn Ht; [reflexivity|].
  cbn [forallb] in Hnf. apply andb_prop in Hnf as [He Hnf].
  cbn [fold_left].
  pose proof (elapsed_nonneg tr) as Hpos.
  assert (Hs' : settled (next s e)) by now apply settled_next.
  destruct (is_recording e) eqn:Hrec.
  - assert (Hn' : (List.length (buffer s) < 99)%nat).
    { unfold recordings in Hn. cbn [filter] in Hn. rewrite Hrec in Hn.
      cbn [List.length] in Hn. lia. }
    destruct (next_below pf dsn publicKey envelopeUrl render s e Hrec Hn')
      as (Hb & Hc & Hk & _).
    rewrite IH; [exact Hc|exact Hs'|exact Hnf| |].
    + rewrite Hb, length_app. cbn [List.length].
      unfold recordings in Hn |- *. cbn [filter] in Hn. rewrite Hrec in Hn.
      cbn [List.length] in Hn. lia.
    + unfold deadline in Ht |- *.
      rewrite (next_below_deadline s e Hs Hrec Hn'), Hk.
      destruct (timers s) as [|[h due] ts].
      * cbn [elapsed_since_first_recording] in Ht. rewrite Hrec in Ht. lia.
      * destruct e; try discriminate; cbn [elapsed] in Ht; exact Ht.
  - destruct e; try discriminate.
    + (* time passes *)
      cbn [Scheduler.next] in *.
      rewrite IH; [reflexivity|exact Hs'|exact Hnf|exact Hn|].
      unfold deadline in Ht |- *. cbn [timers with_clock clock].
      destruct (timers s) as [|[h due] ts]; cbn [elapsed elapsed_since_first_recording is_recording] in Ht;
        [exact Ht|lia].
    + (* the event loop looks at the timers: none is due *)
      cbn [Scheduler.next] in *.
      assert (Hd : due_timer s = None).
      { apply due_timer_not_yet; [exact Hs|].
        destruct (deadline s); [cbn [elapsed] in Ht; lia|exact I]. }
      rewrite Hd in *.
      apply IH; [exact Hs|exact Hnf|exact Hn|].
      destruct (deadline s); exact Ht.
Qed.

End Deadline.

(* ================================================================== *)
(** * Encoded records *)
(* ================================================================== *)

(** ** [Number.isInteger] and the value of a number *)

Lemma Number_isInteger_spec (x : number) (q : Q) :
  Number_value x = Some q -> (Number_isInteger x = true <-> Q_integral q).
Proof.
  destruct x as [s|s| |s m e]; cbn; try discriminate.
  - intros E. injection E as <-. split; [|reflexivity].
    intros _. exists 0. reflexivity.
  - intros E. injection E as <-.
    destruct (Z.leb_spec 0 e) as [He|He].
    + split; [|reflexivity]. intros _.
      exists (if s then - (Z.pos m * 2 ^ e) else Z.pos m * 2 ^ e).
      destruct s; unfold Qeq; cbn; lia.
    + assert (Hp : 0 < 2 ^ (- e)) by (apply Z.pow_pos_nonneg; lia).
      assert (Hd : Z.pos (Z.to_pos (2 ^ (- e))) = 2 ^ (- e)) by (apply Z2Pos.id; exact Hp).
      rewrite Z.eqb_eq. split.
      * intros Hm. apply Z.mod_divide in Hm; [|lia]. destruct Hm as [c Hc].
        exists (if s then - c else c).
        destruct s; unfold Qeq; cbn; rewrite Hd; lia.
      * intros [z Hz]. apply Z.mod_divide; [lia|].
        exists (if s then - z else z).
        destruct s; unfold Qeq in Hz; cbn in Hz; rewrite Hd in Hz; lia.
Qed.

Lemma Number_isInteger_nonfinite (x : number) :
  Number_value x = None -> Number_isInteger x = false.
Proof. destruct x; cbn; intros H; (discriminate || reflexivity). Qed.

Lemma classify_kind (v : AttributeValue) (kind : string) :
  kind_of v kind -> Scheduler.classify v = {| fa_value := v; fa_type := kind |}.
Proof.
  intros [s|b|x q Hq Hi|x q Hq Hi]; unfold Scheduler.classify; try reflexivity.
  - apply (Number_isInteger_spec x q Hq) in Hi. now rewrite Hi.
  - destruct (Number_isInteger x) eqn:E; [|reflexivity].
    apply (Number_isInteger_spec x q Hq) in E. contradiction.
Qed.

Example forty_two_is_integer : kind_of (ANumber forty_two) "integer".
Proof.
  destruct (Number_value forty_two) as [q|] eqn:E; [|discriminate].
  apply (kind_integer _ q E).
  apply (Number_isInteger_spec _ _ E). reflexivity.
Qed.

Example one_eight_seven_and_a_half_is_double :
  kind_of (ANumber one_eight_seven_and_a_half) "double".
Proof.
  destruct (Number_value one_eight_seven_and_a_half) as [q|] eqn:E; [|discriminate].
  apply (kind_double _ q E).
  intros H. apply (Number_isInteger_spec _ _ E) in H. discriminate.
Qed.

(** ** Objects *)

Lemma define_own_fresh {T} (k : string) (v : T) (o : Obj T) :
  ~ In k (map fst o) -> define_own k v o = (o ++ [(k, v)])%list.
Proof.
  induction o as [|[k' v'] o IH]; cbn; [reflexivity|].
  intros H. destruct (String.eqb_spec k k') as [->|Hne]; [tauto|].
  rewrite IH; [reflexivity|tauto].
Qed.

Lemma kept_tags_cons {T} (k : string) (v : T) (l : list (string * T)) :
  kept_tags ((k, v) :: l)
  = if String.eqb k "__proto__" then kept_tags l else (k, v) :: kept_tags l.
Proof. unfold kept_tags. cbn. now destruct (String.eqb k "__proto__"). Qed.

Lemma kept_tags_In {T} (k : string) (v : T) (l : list (string * T)) :
  In (k, v) (kept_tags l) <-> In (k, v) l /\ k <> "__proto__".
Proof.
  unfold kept_tags. rewrite filter_In. cbn.
  destruct (String.eqb_spec k "__proto__"); cbn; intuition congruence.
Qed.

Lemma kept_tags_keys {T} (l : list (string * T)) :
  map fst (kept_tags l)
  = filter (fun k => negb (String.eqb k "__proto__")) (map fst l).
Proof.
  induction l as [|[k v] l IH]; [reflexivity|].
  rewrite kept_tags_cons. cbn.
  destruct (String.eqb k "__proto__"); cbn; now rewrite IH.
Qed.

Lemma kept_tags_NoDup {T} (l : list (string * T)) :
  NoDup (map fst l) -> NoDup (map fst (kept_tags l)).
Proof. intros H. rewrite kept_tags_keys. now apply NoDup_filter. Qed.

(** Assigning the entries of [l] one after the other makes an own property
    of each but [__proto__]. *)
Lemma fold_obj_set {A T} (f : A -> T) (l : list (string * A)) (acc : Obj T) :
  NoDup (map fst l) ->
  (forall k, In k (map fst l) -> ~ In k (map fst acc)) ->
  fold_left (fun o kv => obj_set (fst kv) (f (snd kv)) o) l acc
  = (acc ++ map (fun kv => (fst kv, f (snd kv))) (kept_tags l))%list.
Proof.
  revert acc. induction l as [|[k v] l IH]; intros acc Hnd Hfresh.
  - cbn. now rewrite app_nil_r.
  - inversion Hnd as [|? ? Hk Hnd']; subst.
    rewrite kept_tags_cons. cbn [fold_left fst snd]. unfold obj_set at 2.
    destruct (String.eqb k "__proto__").
    + apply IH; [exact Hnd'|]. intros k' Hin. apply Hfresh. now right.
    + rewrite define_own_fresh by (apply Hfresh; now left).
      rewrite IH; [cbn [map fst snd]; now rewrite <- app_assoc|exact Hnd'|].
      intros k' Hin. rewrite map_app, in_app_iff. cbn.
      intros [H|[H|[]]].
      * apply (Hfresh k'); [now right|exact H].
      * subst k'. contradiction.
Qed.

Lemma obj_get_map {A T} (f : A -> T) (l : list (string * A)) (k : string) (v : A) :
  NoDup (map fst l) -> In (k, v) l ->
  obj_get k (map (fun kv => (fst kv, f (snd kv))) l) = Some (f v).
Proof.
  induction l as [|[k' v'] l IH]; cbn; [tauto|].
  intros Hnd [E|Hin].
  - injection E as -> ->. now rewrite String.eqb_refl.
  - inversion Hnd as [|? ? Hk Hnd']; subst.
    destruct (String.eqb_spec k k') as [->|Hne]; [|now apply IH].
    exfalso. apply Hk. change k' with (fst (k', v)). now apply in_map.
Qed.

Lemma obj_get_absent {T} (k : string) (o : Obj T) :
  ~ In k (map fst o) -> obj_get k o = None.
Proof.
  induction o as [|[k' v'] o IH]; cbn; [reflexivity|].
  intros H. destruct (String.eqb_spec k k') as [->|Hne]; [tauto|].
  apply IH. tauto.
Qed.

Lemma encode_attributes_kept (attrs : Attributes) :
  NoDup (map fst attrs) ->
  Scheduler.encode_attributes attrs
  = map (fun kv => (fst kv, Scheduler.classify (snd kv))) (kept_tags attrs).
Proof.
  intros Hnd. unfold Scheduler.encode_attributes.
  rewrite (fold_obj_set Scheduler.classify attrs []); [reflexivity|exact Hnd|].
  intros ? _ [].
Qed.

Lemma encode_attributes_get (attrs : Attributes) (k : string) (v : AttributeValue) :
  NoDup (map fst attrs) -> In (k, v) attrs -> k <> "__proto__" ->
  obj_get k (Scheduler.encode_attributes attrs) = Some (Scheduler.classify v).
Proof.
  intros Hnd Hin Hk. rewrite (encode_attributes_kept attrs Hnd).
  apply obj_get_map; [now apply kept_tags_NoDup|].
  apply kept_tags_In. now split.
Qed.

Lemma encode_attributes_no_proto (attrs : Attributes) :
  NoDup (map fst attrs) ->
  obj_get "__proto__" (Scheduler.encode_attributes attrs) = None.
Proof.
  intros Hnd. rewrite (encode_attributes_kept attrs Hnd).
  apply obj_get_absent. rewrite map_map. cbn [fst].
  change (map (fun kv : string * AttributeValue => fst kv)) with (map (@fst string AttributeValue)).
  rewrite kept_tags_keys, filter_In. intros [_ H]. discriminate.
Qed.

(** ** What a recording call appends *)

Section Appended.

Variable pf : Platform.
Variables dsn publicKey envelopeUrl : string.
Variable render : list byte -> string.

Local Notation next := (Scheduler.next pf dsn publicKey envelopeUrl render).

Lemma next_appended (s : State) (e : Event) :
  is_recording e = true ->
  appended pf dsn s (next s e)
    (Scheduler.record_of pf render s (event_name e) (event_value e) (event_type e)
       (event_options e)).
Proof.
  intros He. destruct (Nat.leb_spec 99 (List.length (buffer s))) as [Hn|Hn].
  - right. destruct (next_full pf dsn publicKey envelopeUrl render s e He Hn)
      as (Hb & _ & Hc & _).
    split; [exact Hb|]. eexists. split; [exact Hc|reflexivity].
  - left. now destruct (next_below pf dsn publicKey envelopeUrl render s e He Hn).
Qed.

End Appended.

(* ================================================================== *)
(** * Identifiers *)
(* ================================================================== *)

Lemma append_empty_r (s : string) : s ++ EmptyString = s.
Proof. induction s as [|c s IH]; cbn; [reflexivity|now rewrite IH]. Qed.

Lemma append_assoc (a b c : string) : (a ++ b) ++ c = a ++ b ++ c.
Proof. induction a as [|x a IH]; cbn; [reflexivity|now rewrite IH]. Qed.

Lemma join_empty_cons (x : string) (l : list string) :
  join EmptyString (x :: l) = x ++ join EmptyString l.
Proof. destruct l; cbn; [now rewrite append_empty_r|reflexivity]. Qed.

Lemma length_append (a b : string) :
  String.length (a ++ b) = (String.length a + String.length b)%nat.
Proof. induction a as [|c a IH]; cbn; [reflexivity|now rewrite IH]. Qed.

Lemma hex2_shape (b : byte) :
  String.length (hex2 b) = 2%nat /\ all_chars is_lower_hex (hex2 b) = true
  /\ unhex2 (hex2 b) = Some b.
Proof. destruct b; repeat split. Qed.

Lemma hex2_Z_byte (z : Z) :
  is_byte z ->
  String.length (hex2_Z z) = 2%nat /\ all_chars is_lower_hex (hex2_Z z) = true.
Proof.
  intros [b ->]. change (hex2_Z (Z.of_N (Byte.to_N b))) with (hex2 b).
  split; apply hex2_shape.
Qed.

Lemma join_hex_shape (l : list string) :
  Forall (fun s => String.length s = 2%nat /\ all_chars is_lower_hex s = true) l ->
  String.length (join EmptyString l) = (2 * List.length l)%nat
  /\ all_chars is_lower_hex (join EmptyString l) = true.
Proof.
  induction 1 as [|s l [Hs1 Hs2] Hl [IH1 IH2]]; [split; reflexivity|].
  rewrite join_empty_cons, length_append, all_chars_app, Hs1, Hs2, IH1, IH2.
  cbn [List.length andb]. split; [lia|reflexivity].
Qed.

(** The identifier of the factored revision: thirty-two lowercase
    hexadecimal digits, two for each byte. *)
Lemma render_factored_shape (bs : list byte) :
  List.length bs = 16%nat ->
  String.length (render_factored bs) = 32%nat
  /\ all_chars is_lower_hex (render_factored bs) = true.
Proof.
  intros Hl. unfold render_factored.
  destruct (join_hex_shape (map hex2 bs)) as [H1 H2].
  - apply Forall_map, Forall_forall. intros b _. split; apply hex2_shape.
  - rewrite H1, length_map, Hl. split; [reflexivity|exact H2].
Qed.

Lemma append_same_length (a a' r r' : string) :
  String.length a = String.length a' -> a ++ r = a' ++ r' -> a = a' /\ r = r'.
Proof.
  revert a'. induction a as [|c a IH]; intros [|c' a'] Hl E; cbn in *; try discriminate.
  - now split.
  - injection E as -> E. destruct (IH a' (eq_add_S _ _ Hl) E) as [-> ->]. now split.
Qed.

(** Two draws that differ give identifiers that differ. *)
Lemma render_factored_injective (bs bs' : list byte) :
  List.length bs = List.length bs' ->
  render_factored bs = render_factored bs' -> bs = bs'.
Proof.
  unfold render_factored. revert bs'.
  induction bs as [|b bs IH]; intros [|b' bs'] Hl E; cbn [List.length] in Hl;
    try discriminate; [reflexivity|].
  cbn [map] in E. rewrite !join_empty_cons in E.
  apply append_same_length in E as [E1 E2].
  - f_equal; [|apply IH; [lia|exact E2]].
    pose proof (hex2_shape b) as (_ & _ & H1).
    pose proof (hex2_shape b') as (_ & _ & H2).
    rewrite E1 in H1. congruence.
  - destruct (hex2_shape b) as (-> & _). now destruct (hex2_shape b') as (-> & _).
Qed.

(** ** The identifier of the compact revision *)

Lemma remove_char_app (x : ascii) (a b : string) :
  remove_char x (a ++ b) = remove_char x a ++ remove_char x b.
Proof.
  induction a as [|c a IH]; cbn; [reflexivity|].
  destruct (Ascii.eqb c x); cbn; now rewrite IH.
Qed.

Lemma remove_char_hex (s : string) :
  all_chars is_lower_hex s = true -> remove_char "-"%char s = s.
Proof.
  induction s as [|c s IH]; cbn; [reflexivity|].
  intros H. apply andb_prop in H as [Hc Hs]. rewrite (IH Hs).
  destruct (Ascii.eqb_spec c "-"%char) as [->|]; [discriminate|reflexivity].
Qed.

Lemma update_at_Forall {A} (P : A -> Prop) (f : A -> A) (i : nat) (l : list A) :
  (forall x, P x -> P (f x)) -> Forall P l -> Forall P (update_at i f l).
Proof.
  intros Hf H. revert i. induction H as [|x l Hx Hl IH]; intros i; [constructor|].
  destruct i; cbn; constructor; auto.
Qed.

Lemma update_at_length {A} (f : A -> A) (i : nat) (l : list A) :
  List.length (update_at i f l) = List.length l.
Proof.
  revert i. induction l as [|x l IH]; intros i; [reflexivity|].
  destruct i; cbn; [reflexivity|now rewrite IH].
Qed.

Ltac find_byte :=
  match goal with
  | |- is_byte ?z =>
      let v := eval vm_compute in (Byte.of_N (Z.to_N z)) in
      match v with Some ?b => exists b; vm_compute; reflexivity end
  end.

Lemma version_is_byte (z : Z) : is_byte z -> is_byte (Z.lor (Z.land z 15) 64).
Proof. intros [b ->]. destruct b; find_byte. Qed.

Lemma variant_is_byte (z : Z) : is_byte z -> is_byte (Z.lor (Z.land z 63) 128).
Proof. intros [b ->]. destruct b; find_byte. Qed.

Lemma uuid_bytes_shape (bs : list byte) :
  Forall is_byte (uuid_bytes bs) /\ List.length (uuid_bytes bs) = List.length bs.
Proof.
  unfold uuid_bytes. split.
  - apply update_at_Forall; [apply variant_is_byte|].
    apply update_at_Forall; [apply version_is_byte|].
    apply Forall_map, Forall_forall. intros b _. now exists b.
  - now rewrite !update_at_length, length_map.
Qed.

Lemma join_empty_app (a b : list string) :
  join EmptyString (a ++ b) = join EmptyString a ++ join EmptyString b.
Proof.
  induction a as [|x a IH]; [reflexivity|].
  cbn [app]. rewrite !join_empty_cons, IH. symmetry. apply append_assoc.
Qed.

(** Without its dashes, the text of the UUID is the hexadecimal text of its
    sixteen bytes. *)
Lemma render_compact_hex (bs : list byte) :
  List.length bs = 16%nat ->
  render_compact bs = join EmptyString (map hex2_Z (uuid_bytes bs)).
Proof.
  intros Hl. unfold render_compact.
  destruct (uuid_bytes_shape bs) as [Hb Hn]. rewrite Hl in Hn.
  set (u := uuid_bytes bs) in *.
  do 17 (destruct u as [|? u]; try discriminate).
  rewrite Forall_forall in Hb.
  assert (Hh : forall x, is_byte x -> remove_char "-"%char (hex2_Z x) = hex2_Z x)
    by (intros x Hx; now apply remove_char_hex, hex2_Z_byte).
  unfold hex_group. cbn [firstn skipn map join].
  rewrite !remove_char_app. cbn [remove_char Ascii.eqb Bool.eqb andb].
  rewrite !Hh by (apply Hb; cbn; tauto).
  cbn [append]. rewrite !append_assoc. reflexivity.
Qed.

Lemma render_compact_shape (bs : list byte) :
  List.length bs = 16%nat ->
  String.length (render_compact bs) = 32%nat
  /\ all_chars is_lower_hex (render_compact bs) = true.
Proof.
  intros Hl. rewrite (render_compact_hex bs Hl).
  destruct (uuid_bytes_shape bs) as [Hb Hn]. rewrite Hl in Hn.
  destruct (join_hex_shape (map hex2_Z (uuid_bytes bs))) as [H1 H2].
  - apply Forall_map. eapply Forall_impl; [|exact Hb].
    intros z Hz. now apply hex2_Z_byte.
  - rewrite H1, length_map, Hn. split; [reflexivity|exact H2].
Qed.

(** ** Fresh bytes for every record *)

Section Draws.

Variable pf : Platform.
Variables dsn publicKey envelopeUrl : string.
Variable render : list byte -> string.

Local Notation next := (Scheduler.next pf dsn publicKey envelopeUrl render).

Lemma next_drawn (s : State) (e : Event) :
  drawn (next s e) = (drawn s + if is_recording e then 16 else 0)%nat.
Proof.
  destruct (is_recording e) eqn:He.
  - destruct (Nat.leb_spec 99 (List.length (buffer s))) as [Hn|Hn].
    + now destruct (next_full pf dsn publicKey envelopeUrl render s e He Hn)
        as (_ & _ & _ & _ & ->).
    + now destruct (next_below pf dsn publicKey envelopeUrl render s e He Hn)
        as (_ & _ & _ & ->).
  - destruct e; try discriminate; cbn [Scheduler.next].
    + rewrite drain_eq. cbn. lia.
    + cbn. lia.
    + destruct (due_timer s); [rewrite drain_eq|]; cbn; lia.
Qed.

Lemma run_drawn (tr : list Event) (s : State) :
  drawn (fold_left next tr s) = (drawn s + 16 * recordings tr)%nat.
Proof.
  revert s. induction tr as [|e tr IH]; intros s; cbn [fold_left].
  - cbn. lia.
  - rewrite IH, next_drawn. unfold recordings. cbn [filter].
    destruct (is_recording e); cbn [List.length]; lia.
Qed.

End Draws.

Lemma hex2_Z_injective (z z' : Z) :
  is_byte z -> is_byte z' -> hex2_Z z = hex2_Z z' -> z = z'.
Proof.
  intros [b ->] [b' ->] E.
  change (hex2 b = hex2 b') in E.
  pose proof (hex2_shape b) as (_ & _ & H1).
  pose proof (hex2_shape b') as (_ & _ & H2).
  rewrite E in H1. congruence.
Qed.

Lemma join_hex2_Z_injective (u u' : list Z) :
  Forall is_byte u -> Forall is_byte u' -> List.length u = List.length u' ->
  join EmptyString (map hex2_Z u) = join EmptyString (map hex2_Z u') -> u = u'.
Proof.
  intros Hu. revert u'. induction Hu as [|z u Hz Hu IH]; intros [|z' u'] Hu' Hl E;
    cbn [List.length] in Hl; try discriminate; [reflexivity|].
  inversion Hu' as [|? ? Hz' Hu'']; subst.
  cbn [map] in E. rewrite !join_empty_cons in E.
  apply append_same_length in E as [E1 E2].
  - f_equal; [now apply hex2_Z_injective|apply IH; [exact Hu''|lia|exact E2]].
  - destruct (hex2_Z_byte z Hz) as (-> & _). now destruct (hex2_Z_byte z' Hz') as (-> & _).
Qed.

(** Two UUIDs that differ give identifiers that differ. *)
Lemma render_compact_injective (bs bs' : list byte) :
  List.length bs = 16%nat -> List.length bs' = 16%nat ->
  render_compact bs = render_compact bs' -> uuid_bytes bs = uuid_bytes bs'.
Proof.
  intros Hl Hl' E. rewrite (render_compact_hex bs Hl), (render_compact_hex bs' Hl') in E.
  destruct (uuid_bytes_shape bs) as [Hb Hn]. destruct (uuid_bytes_shape bs') as [Hb' Hn'].
  apply join_hex2_Z_injective; [exact Hb|exact Hb'|congruence|exact E].
Qed.

(** The clients of the test platform are the ones [createMetrics] builds. *)
Lemma client_built (t : Z) :
  built TestPlatform.platform TestPlatform.VALID_DSN (boot t) TestPlatform.client (boot t).
Proof. left. reflexivity. Qed.

Lemma compact_client_built (t : Z) :
  built TestPlatform.platform TestPlatform.VALID_DSN (boot t)
    TestPlatform.compact_client (boot t).
Proof. right. reflexivity. Qed.

(* ================================================================== *)
(** * The size trigger *)
(* ================================================================== *)



(* ================================================================== *)
(** * Manual flushes *)
(* ================================================================== *)

(** C2.  [flush] is idempotent.  After any history that ends in a flush the
    buffer is empty and no deadline is pending (neither held by the client
    nor scheduled on the platform); a flush of an untouched client makes no
    request; a second flush right after a flush changes nothing at all; and
    two flushes with exactly one recording call between them make, together,
    exactly one request, whose batch is exactly the record of that call. *)
Theorem flush_idempotent
  (pf : Platform) (dsn : string) (t0 : Z) (m : Metrics.t) (s0 : State) :
  built pf dsn (boot t0) m s0 ->
  (forall tr,
      buffer (run m s0 (tr ++ [Flush])) = []
      /\ flushTimer (run m s0 (tr ++ [Flush])) = None
      /\ timers (run m s0 (tr ++ [Flush])) = [])
  /\ transport_calls (run m s0 [Flush]) = []
  /\ (forall tr, run m s0 (tr ++ [Flush; Flush]) = run m s0 (tr ++ [Flush]))
  /\ (forall tr e,
         is_recording e = true ->
         exists req r,
           transport_calls (run m s0 (tr ++ [Flush; e; Flush]))
           = (transport_calls (run m s0 (tr ++ [Flush])) ++ [req])%list
           /\ req_body req = payload pf dsn (clock (run m s0 tr)) [r]
           /\ m_name r = event_name e /\ m_value r = event_value e
           /\ m_type r = event_type e)
  /\ (forall e,
         is_recording e = true ->
         exists req r,
           transport_calls (run m s0 [Flush; e; Flush]) = [req]
           /\ transport_calls (run m s0 [e; Flush; Flush]) = [req]
           /\ req_body req = payload pf dsn t0 [r]
           /\ m_name r = event_name e /\ m_value r = event_value e
           /\ m_type r = event_type e).
Proof.
  intros Hb.
  destruct (built_implements _ _ _ _ _ Hb) as (pk & url & render & Hm & _ & ->).
  assert (Hs0 : settled (with_flushTimer None (with_buffer [] (boot t0))))
    by (left; repeat split).
  split; [|split; [|split; [|split]]].
  - intros tr.
    rewrite (run_next _ _ _ _ _ _ Hm), fold_left_app. cbn [fold_left Scheduler.next].
    split; [apply drain_fields|]. split; [apply drain_fields|].
    apply settled_drain. now apply settled_run.
  - rewrite (run_next _ _ _ _ _ _ Hm). reflexivity.
  - intros tr. rewrite !(run_next _ _ _ _ _ _ Hm), !fold_left_app.
    cbn [fold_left Scheduler.next]. apply drain_drain.
  - intros tr e He.
    rewrite !(run_next _ _ _ _ _ _ Hm).
    change (Flush :: e :: [Flush]) with ([Flush] ++ [e; Flush])%list.
    rewrite app_assoc, (fold_left_app _ (tr ++ [Flush])).
    set (s1 := fold_left _ (tr ++ [Flush])%list _).
    assert (Hs1 : buffer s1 = [] /\ clock s1 = clock (fold_left (Scheduler.next pf dsn pk url render) tr (with_flushTimer None (with_buffer [] (boot t0))))).
    { subst s1. rewrite fold_left_app. cbn [fold_left Scheduler.next].
      split; apply drain_fields. }
    destruct Hs1 as (Hb1 & Hc1).
    rewrite record_then_flush by assumption.
    eexists. eexists. split; [reflexivity|].
    rewrite Hc1. repeat split.
  - intros e He.
    rewrite !(run_next _ _ _ _ _ _ Hm).
    eexists. eexists. split; [|split].
    + change ([Flush; e; Flush]) with ([Flush] ++ [e; Flush])%list.
      rewrite fold_left_app. rewrite record_then_flush by (exact He || reflexivity).
      reflexivity.
    + change ([e; Flush; Flush]) with ([e; Flush] ++ [Flush])%list.
      rewrite fold_left_app, fold_left_flush, drain_empty_quiet.
      * rewrite record_then_flush by (exact He || reflexivity). reflexivity.
      * cbn [fold_left Scheduler.next]. apply drain_fields.
    + repeat split.
Qed.

Lemma flush_idempotent_witness :
  transport_calls (run TestPlatform.compact_client (boot TestPlatform.test_time) [Flush]) = []
  /\ run TestPlatform.compact_client (boot TestPlatform.test_time)
       ([Count "test.metric" None None] ++ [Flush; Flush])
     = run TestPlatform.compact_client (boot TestPlatform.test_time)
         ([Count "test.metric" None None] ++ [Flush]).
Proof.
  pose proof (flush_idempotent _ _ _ _ _ (compact_client_built TestPlatform.test_time))
    as (_ & H1 & H2 & _).
  split; [exact H1|exact (H2 [Count "test.metric" None None])].
Defined.

(* ================================================================== *)
(** * Delivery problems *)
(* ================================================================== *)

Lemma next_with_network (n : Request -> Delivery) (pf : Platform)
      (dsn publicKey envelopeUrl : string) (render : list byte -> string)
      (s : State) (e : Event) :
  Scheduler.next (with_network n pf) dsn publicKey envelopeUrl render s e
  = Scheduler.next pf dsn publicKey envelopeUrl render s e.
Proof.
  destruct e; cbn [Scheduler.next]; rewrite ?record_eq, ?drain_eq; cbn zeta;
    try reflexivity.
  - destruct (99 <=? _)%nat; rewrite ?drain_eq; reflexivity.
  - destruct (99 <=? _)%nat; rewrite ?drain_eq; reflexivity.
  - destruct (99 <=? _)%nat; rewrite ?drain_eq; reflexivity.
  - destruct (due_timer s); rewrite ?drain_eq; reflexivity.
Qed.

Lemma run_with_network (n : Request -> Delivery) (pf : Platform)
      (dsn publicKey envelopeUrl : string) (render : list byte -> string)
      (tr : list Event) (s : State) :
  fold_left (Scheduler.next (with_network n pf) dsn publicKey envelopeUrl render) tr s
  = fold_left (Scheduler.next pf dsn publicKey envelopeUrl render) tr s.
Proof.
  revert s. induction tr as [|e tr IH]; intros s; cbn [fold_left]; [reflexivity|].
  rewrite next_with_network. apply IH.
Qed.

Lemma built_with_network (n : Request -> Delivery) (pf : Platform) (dsn : string)
      (s : State) (m : Metrics.t) (s' : State) :
  built pf dsn s m s' ->
  exists m', built (with_network n pf) dsn s m' s'
             /\ forall tr, run m' s' tr = run m s' tr.
Proof.
  intros [H|H].
  - unfold Factored.createMetrics in H.
    destruct (Factored.parseDSN pf dsn) as [parsed|err] eqn:Hp; [|discriminate].
    revert H. run_monad. intros H. injection H as Hm Hs.
    exists (Factored_client (with_network n pf) dsn (Factored.publicKey parsed)
              ("https://" ++ Factored.host parsed ++ "/api/"
               ++ Factored.projectId parsed ++ "/envelope/")).
    split.
    + left. unfold Factored.createMetrics.
      change (Factored.parseDSN (with_network n pf) dsn) with (Factored.parseDSN pf dsn).
      rewrite Hp. run_monad. rewrite Hs. reflexivity.
    + intros tr. subst m.
      change (run (Factored_client (with_network n pf) dsn (Factored.publicKey parsed)
                     ("https://" ++ Factored.host parsed ++ "/api/"
                      ++ Factored.projectId parsed ++ "/envelope/")) s' tr
              = run (Factored_client pf dsn (Factored.publicKey parsed)
                       ("https://" ++ Factored.host parsed ++ "/api/"
                        ++ Factored.projectId parsed ++ "/envelope/")) s' tr).
      rewrite (run_next _ _ _ _ _ _ (Factored_implements (with_network n pf) dsn _ _)).
      rewrite (run_next _ _ _ _ _ _ (Factored_implements pf dsn _ _)).
      apply run_with_network.
  - unfold Compact.createMetrics in H.
    destruct (URL_parse pf dsn) as [url|] eqn:Hp; [|discriminate].
    destruct (_ || _) eqn:Hg; [discriminate|].
    revert H. run_monad. intros H. injection H as Hm Hs.
    exists (Compact_client (with_network n pf) dsn (url_username url)
              ("https://" ++ url_host url ++ "/api" ++ url_pathname url ++ "/envelope/")).
    split.
    + right. unfold Compact.createMetrics.
      change (URL_parse (with_network n pf) dsn) with (URL_parse pf dsn).
      rewrite Hp, Hg. run_monad. rewrite Hs. reflexivity.
    + intros tr. subst m.
      change (run (Compact_client (with_network n pf) dsn (url_username url)
                     ("https://" ++ url_host url ++ "/api" ++ url_pathname url
                      ++ "/envelope/")) s' tr
              = run (Compact_client pf dsn (url_username url)
                       ("https://" ++ url_host url ++ "/api" ++ url_pathname url
                        ++ "/envelope/")) s' tr).
      rewrite (run_next _ _ _ _ _ _ (Compact_implements (with_network n pf) dsn _ _)).
      rewrite (run_next _ _ _ _ _ _ (Compact_implements pf dsn _ _)).
      apply run_with_network.
Qed.

(** C3.  Once a client is built, no call of a recording method throws and no
    flush (called by hand, by a recording call or by the timer) throws or
    returns a rejected promise, whatever the transport does: respond, respond
    with a failure, reject, or raise.  The transport's behaviour leaves no
    mark on the client at all: with any other transport the same history
    leads to the same state and the same requests.  A flush leaves the buffer
    empty and makes at most one request (exactly one when something was
    buffered), and the flush after it makes none: a batch is handed over once
    and never comes back. *)
Theorem delivery_problems_are_swallowed
  (pf : Platform) (dsn : string) (t0 : Z) (m : Metrics.t) (s0 : State) :
  built pf dsn (boot t0) m s0 ->
  (forall tr e, outcome m (run m s0 tr) e = Normal (Fulfilled tt))
  /\ (forall n, exists m',
         built (with_network n pf) dsn (boot t0) m' s0
         /\ forall tr, run m' s0 tr = run m s0 tr)
  /\ (forall tr,
         buffer (run m s0 (tr ++ [Flush])) = []
         /\ (exists sent,
               transport_calls (run m s0 (tr ++ [Flush]))
               = (transport_calls (run m s0 tr) ++ sent)%list
               /\ (List.length sent <= 1)%nat
               /\ (buffer (run m s0 tr) <> [] -> List.length sent = 1%nat))
         /\ transport_calls (run m s0 (tr ++ [Flush; Flush]))
            = transport_calls (run m s0 (tr ++ [Flush]))).
Proof.
  intros Hb. split; [|split].
  - destruct (built_implements _ _ _ _ _ Hb) as (pk & url & render & Hm & _ & _).
    intros tr e. apply (outcome_normal _ _ _ _ _ _ Hm).
  - intros n. now apply built_with_network.
  - destruct (built_implements _ _ _ _ _ Hb) as (pk & url & render & Hm & _ & ->).
    intros tr. rewrite !(run_next _ _ _ _ _ _ Hm), !fold_left_app.
    cbn [fold_left Scheduler.next].
    split; [apply drain_fields|]. split.
    + rewrite drain_transport. eexists. split; [reflexivity|].
      destruct (buffer _); cbn; split; (lia || congruence || reflexivity).
    + now rewrite drain_drain.
Qed.

Lemma broken_client_built :
  built (with_network broken TestPlatform.platform) TestPlatform.VALID_DSN
    (boot TestPlatform.test_time)
    (Factored_client (with_network broken TestPlatform.platform) TestPlatform.VALID_DSN
       "abc123" TestPlatform.envelopeUrl)
    (boot TestPlatform.test_time).
Proof. left. reflexivity. Qed.

Lemma delivery_problems_are_swallowed_witness :
  outcome
    (Factored_client (with_network broken TestPlatform.platform) TestPlatform.VALID_DSN
       "abc123" TestPlatform.envelopeUrl)
    (run (Factored_client (with_network broken TestPlatform.platform)
            TestPlatform.VALID_DSN "abc123" TestPlatform.envelopeUrl)
         (boot TestPlatform.test_time) [Count "test.metric" None None]) Flush
  = Normal (Fulfilled tt).
Proof.
  exact (proj1 (delivery_problems_are_swallowed _ _ _ _ _ broken_client_built)
           [Count "test.metric" None None] Flush).
Defined.

(* ================================================================== *)
(** * The wire payload *)
(* ================================================================== *)

Lemma strip_trailing_zeros_all (p : ascii -> bool) (s : string) :
  all_chars p s = true -> all_chars p (TestPlatform.strip_trailing_zeros s) = true.
Proof.
  induction s as [|c s IH]; [reflexivity|].
  cbn. intros H. apply andb_prop in H as [Hc Hs]. specialize (IH Hs).
  destruct (TestPlatform.strip_trailing_zeros s) as [|c' r'].
  - destruct (Ascii.eqb c "0"); cbn; [reflexivity|now rewrite Hc].
  - cbn in IH |- *. now rewrite Hc.
Qed.

Lemma exact_decimal_no_LF (x : number) :
  all_chars not_LF (TestPlatform.exact_decimal x) = true.
Proof.
  destruct x as [s|s| |s m e]; try reflexivity.
  unfold TestPlatform.exact_decimal. rewrite all_chars_app.
  apply andb_true_intro. split; [now destruct s|].
  assert (Hz : forall n, all_chars not_LF (Z_toString 10 n) = true)
    by (intros; apply all_chars_Z_toString; [lia|apply not_LF_digits10]).
  destruct (0 <=? e); [apply Hz|]. cbv zeta.
  destruct (_ =? 0); [apply Hz|].
  rewrite !all_chars_app, Hz. cbn [all_chars andb].
  apply strip_trailing_zeros_all. unfold pad_decimal.
  apply all_chars_padStart; [reflexivity|apply Hz].
Qed.



(* ================================================================== *)
(** * The time trigger *)
(* ================================================================== *)

(** C5.  Take a client with nothing buffered (a new one, or one after any
    history that left the buffer empty) and let anything happen to it except
    a manual flush: recording calls, fewer than a hundred, time passing, and
    the event loop looking for due timers.  As long as fewer than 5000 ms
    have passed since the first recording call, the one that scheduled the
    deadline, no request is made. *)
Theorem no_transport_before_deadline
  (pf : Platform) (dsn : string) (t0 : Z) (m : Metrics.t) (s0 : State)
  (history tr : list Event) :
  built pf dsn (boot t0) m s0 ->
  buffer (run m s0 history) = [] ->
  forallb (fun e => negb (is_flush e)) tr = true ->
  (recordings tr < 100)%nat ->
  elapsed_since_first_recording tr < 5000 ->
  transport_calls (run m s0 (history ++ tr)) = transport_calls (run m s0 history).
Proof.
  intros Hb He Hnf Hn Ht.
  destruct (built_implements _ _ _ _ _ Hb) as (pk & url & render & Hm & _ & ->).
  rewrite !(run_next _ _ _ _ _ _ Hm) in *. rewrite fold_left_app.
  set (s := fold_left _ history _) in *.
  assert (Hs : settled s) by (apply settled_run; left; repeat split).
  apply quiet_run; [exact Hs|exact Hnf|rewrite He; exact Hn|].
  destruct (settled_empty_Idle s Hs He) as (_ & _ & Htm).
  unfold deadline. rewrite Htm. exact Ht.
Qed.

Lemma no_transport_before_deadline_witness :
  transport_calls
    (run TestPlatform.client (boot TestPlatform.test_time)
       ([] ++ [Count "test.metric" None None; Advance 4999; Timer;
               Gauge "queue.depth" (Number_of_Z 42) None; Timer]))
  = transport_calls (run TestPlatform.client (boot TestPlatform.test_time) []).
Proof.
  apply (no_transport_before_deadline _ _ _ _ _ []
           [Count "test.metric" None None; Advance 4999; Timer;
            Gauge "queue.depth" (Number_of_Z 42) None; Timer]
           (client_built TestPlatform.test_time)).
  - reflexivity.
  - reflexivity.
  - vm_compute. lia.
  - reflexivity.
Defined.

(* ================================================================== *)
(** * One deadline at most *)
(* ================================================================== *)

Section OneDeadline.

Variable pf : Platform.
Variables dsn publicKey envelopeUrl : string.
Variable render : list byte -> string.

Local Notation next := (Scheduler.next pf dsn publicKey envelopeUrl render).
Local Notation drain := (Scheduler.drain pf dsn publicKey envelopeUrl).

Lemma settled_timers (s : State) :
  settled s ->
  (List.length (timers s) <= 1)%nat
  /\ match flushTimer s with
     | Some h => exists due, timers s = [(h, due)]
     | None => timers s = []
     end.
Proof.
  intros [(_ & Hf & Ht)|(_ & _ & h & due & Hf & Ht)]; rewrite Hf, Ht; cbn.
  - split; [lia|reflexivity].
  - split; [lia|eauto].
Qed.

Lemma drain_calls (s : State) :
  exists sent,
    calls (drain s) = (calls s ++ cancellation s ++ map CallFetch sent)%list
    /\ (List.length sent <= 1)%nat.
Proof.
  rewrite drain_eq. cbn [calls]. unfold transmission.
  destruct (buffer s) as [|x b].
  - exists []. split; [reflexivity|cbn; lia].
  - eexists [_]. split; [reflexivity|cbn; lia].
Qed.

Lemma next_keeps_deadline (s : State) (e : Event) :
  is_recording e = true -> flushTimer s <> None -> (List.length (buffer s) < 99)%nat ->
  timers (next s e) = timers s /\ flushTimer (next s e) = flushTimer s
  /\ calls (next s e) = calls s.
Proof.
  intros He Hf Hn. rewrite (next_recording _ _ _ _ _ _ _ He), record_eq. cbn zeta.
  destruct (Nat.leb_spec 99 (List.length (buffer s))); [lia|].
  rewrite arm_eq, push_eq. cbn [flushTimer].
  destruct (flushTimer s); [repeat split|contradiction].
Qed.

Lemma next_drains (s : State) (e : Event) :
  settled s -> drains s e = true ->
  timers (next s e) = [] /\ flushTimer (next s e) = None /\ buffer (next s e) = []
  /\ exists sent,
      calls (next s e) = (calls s ++ cancellation s ++ map CallFetch sent)%list
      /\ (List.length sent <= 1)%nat.
Proof.
  intros Hs Hd.
  assert (Hrec : is_recording e = true ->
                 next s e = drain (Scheduler.push pf
                                     (Scheduler.record_of pf render s (event_name e)
                                        (event_value e) (event_type e) (event_options e))
                                     s)).
  { intros He. rewrite (next_recording _ _ _ _ _ _ _ He), record_eq. cbn zeta.
    destruct e; try discriminate; cbn [drains] in Hd; rewrite Hd; reflexivity. }
  assert (Hpush : forall r,
             timers (drain (Scheduler.push pf r s)) = []
             /\ flushTimer (drain (Scheduler.push pf r s)) = None
             /\ buffer (drain (Scheduler.push pf r s)) = []
             /\ exists sent,
                 calls (drain (Scheduler.push pf r s))
                 = (calls s ++ cancellation s ++ map CallFetch sent)%list
                 /\ (List.length sent <= 1)%nat).
  { intros r.
    assert (Hi : Idle (drain (Scheduler.push pf r s))).
    { apply drain_Idle. rewrite push_eq. cbn.
      destruct Hs as [(_ & _ & Ht)|(_ & _ & h & due & Hf & Ht)]; eauto. }
    destruct Hi as (Hb & Hf & Ht). repeat split; try assumption.
    apply (drain_calls (Scheduler.push pf r s)). }
  destruct e; try (rewrite Hrec by reflexivity; apply Hpush).
  - (* a manual flush *)
    cbn [Scheduler.next]. destruct (settled_drain pf dsn publicKey envelopeUrl s Hs)
      as (Hb & Hf & Ht).
    repeat split; try assumption. apply drain_calls.
  - discriminate.
  - (* the callback of the due timer *)
    cbn [Scheduler.next drains] in *. destruct (due_timer s) as [h|] eqn:E; [|discriminate].
    destruct (due_timer_expire s h Hs E) as (Hf & Ht & Hb & Hf' & _).
    assert (Hi : Idle (drain (expire h s))) by (apply drain_Idle; now left).
    destruct Hi as (Hb2 & Hf2 & Ht2). repeat split; try assumption.
    destruct (drain_calls (expire h s)) as (sent & Hc & Hl).
    exists sent. split; [|exact Hl]. rewrite Hc. unfold cancellation.
    rewrite Hf, Hf'. reflexivity.
Qed.

End OneDeadline.

(** C6.  Between operations a client has at most one timeout scheduled, and
    it is the one whose handle the client holds.  A recording call made while
    a deadline is pending, and below the threshold, schedules nothing and
    calls nothing on the platform.  Every drain (by a manual flush, by the
    timer, or by the recording call that fills the buffer) leaves no timeout
    scheduled and no handle held, and its platform calls are, in this order,
    the cancellation of the handle the client held and then at most one
    request. *)
Theorem at_most_one_deadline
  (pf : Platform) (dsn : string) (t0 : Z) (m : Metrics.t) (s0 : State) (tr : list Event) :
  built pf dsn (boot t0) m s0 ->
  (List.length (timers (run m s0 tr)) <= 1)%nat
  /\ match flushTimer (run m s0 tr) with
     | Some h => exists due, timers (run m s0 tr) = [(h, due)]
     | None => timers (run m s0 tr) = []
     end
  /\ (forall e,
         is_recording e = true ->
         flushTimer (run m s0 tr) <> None ->
         (List.length (buffer (run m s0 tr)) < 99)%nat ->
         timers (run m s0 (tr ++ [e])) = timers (run m s0 tr)
         /\ flushTimer (run m s0 (tr ++ [e])) = flushTimer (run m s0 tr)
         /\ calls (run m s0 (tr ++ [e])) = calls (run m s0 tr))
  /\ (forall e,
         drains (run m s0 tr) e = true ->
         timers (run m s0 (tr ++ [e])) = []
         /\ flushTimer (run m s0 (tr ++ [e])) = None
         /\ buffer (run m s0 (tr ++ [e])) = []
         /\ exists sent,
             calls (run m s0 (tr ++ [e]))
             = (calls (run m s0 tr) ++ cancellation (run m s0 tr) ++ map CallFetch sent)%list
             /\ (List.length sent <= 1)%nat).
Proof.
  intros Hb.
  destruct (built_implements _ _ _ _ _ Hb) as (pk & url & render & Hm & _ & ->).
  assert (Hrun : forall e,
             run m (with_flushTimer None (with_buffer [] (boot t0))) (tr ++ [e])
             = Scheduler.next pf dsn pk url render
                 (run m (with_flushTimer None (with_buffer [] (boot t0))) tr) e).
  { intros e. rewrite !(run_next _ _ _ _ _ _ Hm), fold_left_app. reflexivity. }
  assert (Hs : settled (run m (with_flushTimer None (with_buffer [] (boot t0))) tr)).
  { rewrite (run_next _ _ _ _ _ _ Hm). apply settled_run. left. repeat split. }
  destruct (settled_timers _ Hs) as (H1 & H2).
  split; [exact H1|]. split; [exact H2|]. split.
  - intros e He Hf Hn. rewrite Hrun. now apply next_keeps_deadline.
  - intros e Hd. rewrite Hrun. now apply next_drains.
Qed.

Lemma at_most_one_deadline_witness :
  (List.length
     (timers (run TestPlatform.client (boot TestPlatform.test_time)
                [Count "a" None None; Count "b" None None])) <= 1)%nat.
Proof.
  exact (proj1 (at_most_one_deadline _ _ _ _ _ [Count "a" None None; Count "b" None None]
                  (client_built TestPlatform.test_time))).
Defined.

(* ================================================================== *)
(** * Construction *)
(* ================================================================== *)

Lemma truthy_false (s : string) : truthy s = false <-> s = EmptyString.
Proof. destruct s; cbn; split; intros H; congruence. Qed.

Lemma guard_missing (url : URL) :
  negb (truthy (url_username url)) || negb (truthy (url_host url))
  || negb (truthy (slice1 (url_pathname url))) = true
  <-> (url_username url = EmptyString \/ url_host url = EmptyString
       \/ slice1 (url_pathname url) = EmptyString).
Proof.
  rewrite !orb_true_iff, !negb_true_iff, !truthy_false. tauto.
Qed.

(** C7.  For an address with the credential, the host or the resource path
    segment missing, construction throws, in both revisions and with the same
    error; when the address parses as a URL the error is the one that names
    the problem, [Invalid DSN: missing required components].  The throw
    happens before anything else: the state is left exactly as it was (the
    buffer and the timer variable are not initialised, no platform call is
    made), and the error reaches the caller, who gets no client. *)
Theorem construction_rejects_incomplete_address
  (pf : Platform) (dsn : string) (s : State) :
  missing_component pf dsn ->
  exists e,
    Factored.parseDSN pf dsn = Throw e
    /\ Factored.createMetrics pf dsn s = (Throw e, s)
    /\ Compact.createMetrics pf dsn s = (Throw e, s)
    /\ (URL_parse pf dsn <> None -> e = Error "Invalid DSN: missing required components")
    /\ forall m s', ~ built pf dsn s m s'.
Proof.
  unfold missing_component, built, Factored.createMetrics, Compact.createMetrics,
    Factored.parseDSN.
  destruct (URL_parse pf dsn) as [url|].
  - intros H. apply guard_missing in H. rewrite H.
    exists (Error "Invalid DSN: missing required components").
    repeat split. intros m s' [E|E]; discriminate.
  - intros _. exists (TypeError "Invalid URL").
    repeat split; [congruence|]. intros m s' [E|E]; discriminate.
Qed.

Lemma construction_rejects_incomplete_address_witness :
  exists e,
    Factored.createMetrics TestPlatform.platform "https://example.com"
      (boot TestPlatform.test_time)
    = (Throw e, boot TestPlatform.test_time)
    /\ Compact.createMetrics TestPlatform.platform "https://example.com"
         (boot TestPlatform.test_time)
       = (Throw e, boot TestPlatform.test_time).
Proof.
  assert (H : missing_component TestPlatform.platform "https://example.com")
    by (vm_compute; left; reflexivity).
  destruct (construction_rejects_incomplete_address TestPlatform.platform
              "https://example.com" (boot TestPlatform.test_time) H)
    as (e & _ & H1 & H2 & _).
  exists e. split; assumption.
Defined.

(** With all three components present, construction succeeds. *)
Lemma construction_accepts_complete_address (pf : Platform) (dsn : string) (s : State) :
  ~ missing_component pf dsn ->
  exists m1 m2,
    Factored.createMetrics pf dsn s = (Normal m1, with_flushTimer None (with_buffer [] s))
    /\ Compact.createMetrics pf dsn s = (Normal m2, with_flushTimer None (with_buffer [] s)).
Proof.
  unfold missing_component, Factored.createMetrics, Compact.createMetrics, Factored.parseDSN.
  destruct (URL_parse pf dsn) as [url|]; [|tauto].
  intros H. rewrite <- guard_missing in H. apply not_true_is_false in H. rewrite H.
  eexists. eexists. split; reflexivity.
Qed.
(* ================================================================== *)
(** * Tags *)
(* ================================================================== *)

(** C8 fails for a tag named [__proto__], in both revisions.  Both assign each
    tag to a fresh object by [formatted[key] = ...]; for the key [__proto__]
    that assignment sets the prototype of the object and makes no property of
    it.  Here a counter is recorded with the tags [__proto__: "x"] and
    [route: "/checkout"]: the one record in the buffer has the attribute
    [route] and nothing under [__proto__], so the string tag [x] is neither
    classified nor preserved. *)
Theorem tag_named_proto_is_dropped :
  options_attributes (event_options count_with_proto_tag)
  = Some [("__proto__", AString "x"); ("route", AString "/checkout")]
  /\ map m_attributes
       (buffer (run TestPlatform.client (boot TestPlatform.test_time)
                  [count_with_proto_tag]))
     = [Some [("route", {| fa_value := AString "/checkout"; fa_type := "string" |})]]
  /\ map m_attributes
       (buffer (run TestPlatform.compact_client (boot TestPlatform.test_time)
                  [count_with_proto_tag]))
     = [Some [("route", {| fa_value := AString "/checkout"; fa_type := "string" |})]]
  /\ map (fun r => option_map (obj_get "__proto__") (m_attributes r))
       (buffer (run TestPlatform.client (boot TestPlatform.test_time)
                  [count_with_proto_tag]))
     = [Some None]
  /\ map (fun r => option_map json_keys (obj_get "attributes"
                                           match json_of_metric r with
                                           | JObj props => props
                                           | _ => []
                                           end))
       (buffer (run TestPlatform.client (boot TestPlatform.test_time)
                  [count_with_proto_tag]))
     = [Some ["route"]].
Proof. repeat split. Qed.

(** X10.  Every tag given to a recording call under a key other than
    [__proto__] is found in the encoded record under its key, as the pair of
    the value itself and its kind: [string] for a string, [boolean] for a
    boolean, [integer] for a number with no fractional part (such as 42) and
    [double] for a number with a fractional part (such as 187.5).
    [formatAttributeValue] computes that pair. *)
Theorem tag_values_are_classified
  (pf : Platform) (dsn : string) (t0 : Z) (m : Metrics.t) (s0 : State)
  (tr : list Event) (e : Event) (unit : option string) (attrs : Attributes)
  (k : string) (v : AttributeValue) (kind : string) :
  built pf dsn (boot t0) m s0 ->
  is_recording e = true ->
  event_options e = Some {| opt_unit := unit; opt_attributes := Some attrs |} ->
  NoDup (map fst attrs) ->
  In (k, v) attrs ->
  k <> "__proto__" ->
  kind_of v kind ->
  Factored.formatAttributeValue pf v = {| fa_value := v; fa_type := kind |}
  /\ exists r fa,
      appended pf dsn (run m s0 tr) (run m s0 (tr ++ [e])) r
      /\ m_attributes r = Some fa
      /\ obj_get k fa = Some {| fa_value := v; fa_type := kind |}.
Proof.
  intros Hb He Ho Hnd Hin Hne Hk.
  split; [rewrite formatAttributeValue_classify; now apply classify_kind|].
  destruct (built_implements _ _ _ _ _ Hb) as (pk & url & render & Hm & _ & ->).
  rewrite !(run_next _ _ _ _ _ _ Hm), fold_left_app. cbn [fold_left].
  eexists. exists (Scheduler.encode_attributes attrs).
  split; [apply next_appended; exact He|].
  split; [unfold Scheduler.record_of, Scheduler.encode; cbn; now rewrite Ho|].
  rewrite (encode_attributes_get attrs k v Hnd Hin Hne).
  f_equal. now apply classify_kind.
Qed.

Lemma tag_values_are_classified_witness :
  Factored.formatAttributeValue TestPlatform.platform (ANumber one_eight_seven_and_a_half)
  = {| fa_value := ANumber one_eight_seven_and_a_half; fa_type := "double" |}
  /\ exists r fa,
      appended TestPlatform.platform TestPlatform.VALID_DSN
        (run TestPlatform.compact_client (boot TestPlatform.test_time) [])
        (run TestPlatform.compact_client (boot TestPlatform.test_time)
           ([] ++ [Distribution "cart.amount" one_eight_seven_and_a_half
                     (Some tagged_options)])) r
      /\ m_attributes r = Some fa
      /\ obj_get "amount" fa
         = Some {| fa_value := ANumber one_eight_seven_and_a_half; fa_type := "double" |}.
Proof.
  apply (tag_values_are_classified TestPlatform.platform TestPlatform.VALID_DSN
           TestPlatform.test_time TestPlatform.compact_client (boot TestPlatform.test_time)
           [] (Distribution "cart.amount" one_eight_seven_and_a_half (Some tagged_options))
           None
           [("route", AString "/checkout"); ("count", ANumber forty_two);
            ("active", ABoolean true); ("amount", ANumber one_eight_seven_and_a_half)]
           "amount" (ANumber one_eight_seven_and_a_half) "double").
  - apply compact_client_built.
  - reflexivity.
  - reflexivity.
  - repeat constructor; cbn; intuition discriminate.
  - cbn. tauto.
  - discriminate.
  - exact one_eight_seven_and_a_half_is_double.
Defined.

(** A number that is not finite ([NaN], an infinity) has no fractional part
    to speak of; it is classified [double]. *)
Lemma non_finite_is_double (pf : Platform) (x : number) :
  Number_value x = None ->
  Factored.formatAttributeValue pf (ANumber x)
  = {| fa_value := ANumber x; fa_type := "double" |}.
Proof.
  intros H. rewrite formatAttributeValue_classify. unfold Scheduler.classify.
  now rewrite (Number_isInteger_nonfinite x H).
Qed.

(* ================================================================== *)
(** * Optional fields *)
(* ================================================================== *)

(** C9, as stated, fails for the unit: a unit that is supplied as the empty
    string is left out of the record, in both revisions.  Here a gauge is
    recorded with [{ unit: "" }]: the options carry a unit, the one record in
    the buffer has none, and its serialised object has no [unit] property. *)
Lemma supplied_empty_unit_is_omitted :
  options_unit (event_options gauge_with_empty_unit) = Some EmptyString
  /\ map m_unit
       (buffer (run TestPlatform.client (boot TestPlatform.test_time)
                  [gauge_with_empty_unit])) = [None]
  /\ map m_unit
       (buffer (run TestPlatform.compact_client (boot TestPlatform.test_time)
                  [gauge_with_empty_unit])) = [None]
  /\ map (fun r => json_keys (json_of_metric r))
       (buffer (run TestPlatform.client (boot TestPlatform.test_time)
                  [gauge_with_empty_unit]))
     = [["timestamp"; "trace_id"; "name"; "value"; "type"]].
Proof. repeat split. Qed.

Lemma json_of_metric_fields (r : MetricPayload) :
  (In "unit" (json_keys (json_of_metric r)) <-> m_unit r <> None)
  /\ (In "attributes" (json_keys (json_of_metric r)) <-> m_attributes r <> None)
  /\ ~ In JNull (json_values (json_of_metric r)).
Proof.
  destruct r as [ts id name value type unit attrs].
  destruct unit, attrs; cbn; intuition (discriminate || congruence).
Qed.

(** C9, amended.  The record of a recording call has the [unit] field exactly
    when the options carry a unit that is not the empty string, and then it
    is that unit; it has the [attributes] field exactly when the options
    carry an attributes object (be it empty).  A field that is not there is
    not serialised at all: the serialised record has the property [unit],
    respectively [attributes], exactly when the record has the field, and no
    property of it is [null]. *)
Theorem optional_fields_are_omitted
  (pf : Platform) (dsn : string) (t0 : Z) (m : Metrics.t) (s0 : State)
  (tr : list Event) (e : Event) :
  built pf dsn (boot t0) m s0 ->
  is_recording e = true ->
  exists r,
    appended pf dsn (run m s0 tr) (run m s0 (tr ++ [e])) r
    /\ (forall u, m_unit r = Some u
                  <-> options_unit (event_options e) = Some u /\ u <> EmptyString)
    /\ (m_attributes r <> None <-> options_attributes (event_options e) <> None)
    /\ (In "unit" (json_keys (json_of_metric r)) <-> m_unit r <> None)
    /\ (In "attributes" (json_keys (json_of_metric r)) <-> m_attributes r <> None)
    /\ ~ In JNull (json_values (json_of_metric r)).
Proof.
  intros Hb He.
  destruct (built_implements _ _ _ _ _ Hb) as (pk & url & render & Hm & _ & ->).
  rewrite !(run_next _ _ _ _ _ _ Hm), fold_left_app. cbn [fold_left].
  eexists. split; [apply next_appended; exact He|].
  split; [|split; [|apply json_of_metric_fields]].
  - intros u. unfold Scheduler.record_of, Scheduler.encode. cbn [m_unit].
    destruct (options_unit (event_options e)) as [[|c u']|]; cbn [truthy];
      split; intros H; try discriminate.
    + destruct H as [H1 H2]. injection H1 as <-. contradiction.
    + injection H as <-. split; [reflexivity|discriminate].
    + destruct H as [H _]. exact H.
    + destruct H as [H _]. discriminate.
  - unfold Scheduler.record_of, Scheduler.encode. cbn [m_attributes].
    destruct (options_attributes (event_options e)); cbn; split; congruence.
Qed.

Lemma optional_fields_are_omitted_witness :
  exists r,
    appended TestPlatform.platform TestPlatform.VALID_DSN
      (run TestPlatform.client (boot TestPlatform.test_time) [])
      (run TestPlatform.client (boot TestPlatform.test_time) ([] ++ [gauge_with_empty_unit])) r
    /\ (In "unit" (json_keys (json_of_metric r)) <-> m_unit r <> None).
Proof.
  destruct (optional_fields_are_omitted TestPlatform.platform TestPlatform.VALID_DSN
              TestPlatform.test_time TestPlatform.client (boot TestPlatform.test_time)
              [] gauge_with_empty_unit (client_built TestPlatform.test_time) eq_refl)
    as (r & Ha & _ & _ & Hu & _).
  exists r. split; assumption.
Defined.

(* ================================================================== *)
(** * Correlation identifiers *)
(* ================================================================== *)

(** C10.  The record of every recording call carries an identifier of
    exactly thirty-two lowercase hexadecimal digits, made from sixteen random
    bytes (128 bits) that are drawn for this record alone: the call that
    follows [n] earlier recording calls uses the bytes 16n to 16n+15 of the
    random source, so no byte serves two records.  The factored revision
    writes each byte as two digits, zero-padded; the compact revision writes
    the version 4 UUID made from the bytes, without its dashes.  Either way
    the text loses nothing: identifiers of the factored revision are equal
    only if the bytes drawn are equal, those of the compact revision only if
    the UUIDs are. *)
Theorem trace_ids_are_fresh_hex
  (pf : Platform) (dsn : string) (t0 : Z) (m : Metrics.t) (s0 : State)
  (tr : list Event) (e : Event) :
  built pf dsn (boot t0) m s0 ->
  is_recording e = true ->
  (exists r,
      appended pf dsn (run m s0 tr) (run m s0 (tr ++ [e])) r
      /\ String.length (m_trace_id r) = 32%nat
      /\ all_chars is_lower_hex (m_trace_id r) = true
      /\ (m_trace_id r = render_factored (draw pf (recordings tr))
          \/ m_trace_id r = render_compact (draw pf (recordings tr))))
  /\ (forall s, result (Factored.generateTraceId pf) s
                = Normal (join EmptyString (map hex2 (map (entropy pf) (seq (drawn s) 16))))
                /\ drawn (exec (Factored.generateTraceId pf) s) = (drawn s + 16)%nat)
  /\ (forall n n', render_factored (draw pf n) = render_factored (draw pf n') ->
                   draw pf n = draw pf n')
  /\ (forall n n', render_compact (draw pf n) = render_compact (draw pf n') ->
                   uuid_bytes (draw pf n) = uuid_bytes (draw pf n')).
Proof.
  intros Hb He.
  assert (Hlen : forall n, List.length (draw pf n) = 16%nat)
    by (intros; unfold draw; now rewrite length_map, length_seq).
  split; [|split; [|split]].
  - destruct (built_implements _ _ _ _ _ Hb) as (pk & url & render & Hm & Hr & ->).
    rewrite !(run_next _ _ _ _ _ _ Hm), fold_left_app. cbn [fold_left].
    eexists. split; [apply next_appended; exact He|].
    unfold Scheduler.record_of, Scheduler.encode, Scheduler.next_bytes. cbn [m_trace_id].
    rewrite run_drawn. cbn [drawn boot with_flushTimer with_buffer plus].
    fold (draw pf (recordings tr)).
    destruct Hr as [-> | ->].
    + destruct (render_factored_shape _ (Hlen (recordings tr))) as [H1 H2].
      repeat split; [exact H1|exact H2|now left].
    + destruct (render_compact_shape _ (Hlen (recordings tr))) as [H1 H2].
      repeat split; [exact H1|exact H2|now right].
  - intros s. split; reflexivity.
  - intros n n' E. apply render_factored_injective; [now rewrite !Hlen|exact E].
  - intros n n' E. apply render_compact_injective; [apply Hlen|apply Hlen|exact E].
Qed.

Lemma trace_ids_are_fresh_hex_witness :
  exists r,
    appended TestPlatform.platform TestPlatform.VALID_DSN
      (run TestPlatform.client (boot TestPlatform.test_time) [Count "a" None None])
      (run TestPlatform.client (boot TestPlatform.test_time)
         ([Count "a" None None] ++ [Count "b" None None])) r
    /\ String.length (m_trace_id r) = 32%nat
    /\ all_chars is_lower_hex (m_trace_id r) = true.
Proof.
  destruct (trace_ids_are_fresh_hex TestPlatform.platform TestPlatform.VALID_DSN
              TestPlatform.test_time TestPlatform.client (boot TestPlatform.test_time)
              [Count "a" None None] (Count "b" None None)
              (client_built TestPlatform.test_time) eq_refl)
    as ((r & Ha & Hl & Hh & _) & _).
  exists r. repeat split; assumption.
Defined.

(* ================================================================== *)
(** * The two triggers together *)
(* ================================================================== *)

Section Triggers.

Variable pf : Platform.
Variables dsn publicKey envelopeUrl : string.
Variable render : list byte -> string.

Local Notation next := (Scheduler.next pf dsn publicKey envelopeUrl render).
Local Notation request := (Scheduler.request pf dsn publicKey envelopeUrl).

(** While the deadline has not come and no flush is called, the buffer only
    grows, by one record for each recording call. *)
Lemma quiet_run_buffer (tr : list Event) (s : State) :
  settled s ->
  forallb (fun e => negb (is_flush e)) tr = true ->
  (List.length (buffer s) + recordings tr < 100)%nat ->
  match deadline s with
  | Some due => clock s + elapsed tr < due
  | None => elapsed_since_first_recording tr < 5000
  end ->
  exists rs,
    buffer (fold_left next tr s) = (buffer s ++ rs)%list
    /\ map m_name rs = map event_name (filter is_recording tr)
    /\ map m_value rs = map event_value (filter is_recording tr)
    /\ map m_type rs = map event_type (filter is_recording tr)
    /\ clock (fold_left next tr s) = clock s + elapsed tr
    /\ match deadline (fold_left next tr s) with
       | Some due => clock (fold_left next tr s) < due
       | None => recordings tr = 0%nat
       end.
Proof.
  revert s. induction tr as [|e tr IH]; intros s Hs Hnf Hn Ht.
  - exists []. cbn. rewrite app_nil_r, Z.add_0_r. repeat split.
    destruct (deadline s); [cbn in Ht; lia|reflexivity].
  - cbn [forallb] in Hnf. apply andb_prop in Hnf as [He Hnf].
    cbn [fold_left].
    pose proof (elapsed_nonneg tr) as Hpos.
    assert (Hs' : settled (next s e)) by now apply settled_next.
    destruct (is_recording e) eqn:Hrec.
    + assert (Hn' : (List.length (buffer s) < 99)%nat).
      { unfold recordings in Hn. cbn [filter] in Hn. rewrite Hrec in Hn.
        cbn [List.length] in Hn. lia. }
      destruct (next_below pf dsn publicKey envelopeUrl render s e Hrec Hn')
        as (Hb & Hc & Hk & _).
      destruct (IH (next s e) Hs' Hnf) as (rs & Hb' & H1 & H2 & H3 & Hk' & Hd').
      * rewrite Hb, length_app. cbn [List.length].
        unfold recordings in Hn |- *. cbn [filter] in Hn. rewrite Hrec in Hn.
        cbn [List.length] in Hn. lia.
      * unfold deadline in Ht |- *.
        rewrite (next_below_deadline pf dsn publicKey envelopeUrl render s e Hs Hrec Hn'), Hk.
        destruct (timers s) as [|[h due] ts].
        -- cbn [elapsed_since_first_recording] in Ht. rewrite Hrec in Ht. lia.
        -- destruct e; try discriminate; cbn [elapsed] in Ht; exact Ht.
      * eexists (_ :: rs). cbn [filter]. rewrite Hrec. cbn [map].
        rewrite Hb', Hb, <- app_assoc, H1, H2, H3, Hk', Hk. cbn [app].
        repeat split.
        -- destruct e; try discriminate; reflexivity.
        -- rewrite <- Hk, <- Hk'.
           destruct (deadline (fold_left next tr (next s e))) as [due|] eqn:Ed; [exact Hd'|].
           exfalso.
           assert (Hi : Idle (fold_left next tr (next s e)))
             by (apply settled_deadline_None; [now apply settled_run|exact Ed]).
           destruct Hi as (Hbe & _). rewrite Hb', Hb in Hbe.
           destruct (buffer s); discriminate.
    + destruct e; try discriminate.
      * cbn [Scheduler.next] in *.
        destruct (IH (with_clock (clock s + Z.of_N ms) s) Hs' Hnf Hn)
          as (rs & Hb' & H1 & H2 & H3 & Hk' & Hd').
        { unfold deadline in Ht |- *. cbn [timers with_clock clock].
          destruct (timers s) as [|[h due] ts];
            cbn [elapsed elapsed_since_first_recording is_recording] in Ht; [exact Ht|lia]. }
        exists rs. cbn [filter is_recording elapsed].
        split; [exact Hb'|]. do 3 (split; [assumption|]).
        split; [rewrite Hk'; cbn; lia|exact Hd'].
      * cbn [Scheduler.next] in *.
        assert (Hd : due_timer s = None).
        { apply due_timer_not_yet; [exact Hs|].
          destruct (deadline s); [cbn [elapsed] in Ht; lia|exact I]. }
        rewrite Hd in *.
        destruct (IH s Hs Hnf Hn) as (rs & Hb' & H1 & H2 & H3 & Hk' & Hd').
        { destruct (deadline s); exact Ht. }
        exists rs. cbn [filter is_recording elapsed]. repeat split; assumption.
Qed.

End Triggers.

(** The size trigger with time passing: ninety-nine recording calls spread
    over less than 5000 ms, with the event loop running in between, and then
    the hundredth: one request, a hundred records. *)
Lemma size_trigger_within_deadline
  (pf : Platform) (dsn : string) (t0 : Z) (m : Metrics.t) (s0 : State)
  (tr : list Event) (e : Event) :
  built pf dsn (boot t0) m s0 ->
  forallb (fun e => negb (is_flush e)) tr = true ->
  recordings tr = 99%nat ->
  elapsed_since_first_recording tr < 5000 ->
  is_recording e = true ->
  transport_calls (run m s0 tr) = []
  /\ exists req items,
      transport_calls (run m s0 (tr ++ [e])) = [req]
      /\ req_body req = payload pf dsn (t0 + elapsed tr) items
      /\ List.length items = 100%nat
      /\ map m_name items = map event_name (filter is_recording (tr ++ [e])).
Proof.
  intros Hb Hnf Hn Ht He.
  destruct (built_implements _ _ _ _ _ Hb) as (pk & url & render & Hm & _ & ->).
  rewrite !(run_next _ _ _ _ _ _ Hm), fold_left_app. cbn [fold_left].
  set (s := with_flushTimer None (with_buffer [] (boot t0))).
  assert (Hs : settled s) by (left; repeat split).
  split.
  - apply (quiet_run pf dsn pk url render tr s Hs Hnf); [rewrite Hn; cbn; lia|exact Ht].
  - destruct (quiet_run_buffer pf dsn pk url render tr s Hs Hnf)
      as (rs & Hbuf & H1 & _ & _ & Hk & _); [rewrite Hn; cbn; lia|exact Ht|].
    cbn [buffer s with_flushTimer with_buffer app] in Hbuf.
    assert (Hlen : List.length rs = 99%nat).
    { rewrite <- (length_map m_name), H1, length_map. exact Hn. }
    destruct (next_full pf dsn pk url render (fold_left (Scheduler.next pf dsn pk url render) tr s)
                e He) as (_ & _ & Hc & _); [rewrite Hbuf; lia|].
    rewrite (quiet_run pf dsn pk url render tr s Hs Hnf) in Hc;
      [|rewrite Hn; cbn; lia|exact Ht].
    eexists. eexists. split; [exact Hc|]. rewrite Hbuf, Hk.
    split; [reflexivity|]. rewrite length_app, Hlen. split; [reflexivity|].
    rewrite filter_app, !map_app, H1. cbn [filter]. rewrite He. reflexivity.
Qed.

(** The time trigger: a recording call, 5000 ms, and the event loop runs the
    callback, which sends the record. *)
Lemma time_trigger_fires
  (pf : Platform) (dsn : string) (t0 : Z) (m : Metrics.t) (s0 : State) (e : Event) :
  built pf dsn (boot t0) m s0 ->
  is_recording e = true ->
  transport_calls (run m s0 [e; Advance 4999; Timer]) = []
  /\ exists req r,
      transport_calls (run m s0 [e; Advance 5000; Timer]) = [req]
      /\ req_body req = payload pf dsn (t0 + 5000) [r]
      /\ m_name r = event_name e
      /\ timers (run m s0 [e; Advance 5000; Timer]) = []
      /\ buffer (run m s0 [e; Advance 5000; Timer]) = [].
Proof.
  intros Hb He.
  destruct (built_implements _ _ _ _ _ Hb) as (pk & url & render & Hm & _ & ->).
  rewrite !(run_next _ _ _ _ _ _ Hm).
  set (s := with_flushTimer None (with_buffer [] (boot t0))).
  assert (Hs : settled s) by (left; repeat split).
  split.
  - apply (quiet_run pf dsn pk url render _ s Hs).
    + cbn. destruct e; try discriminate; reflexivity.
    + unfold recordings. cbn [filter]. rewrite He. cbn. lia.
    + cbn. rewrite He. cbn. lia.
  - cbn [fold_left].
    destruct (next_below pf dsn pk url render s e He) as (Hbuf & Hc & Hk & _); [cbn; lia|].
    pose proof (next_below_deadline pf dsn pk url render s e Hs He) as Htm.
    cbn [buffer timers s with_flushTimer with_buffer boot List.length clock next_handle app]
      in Hbuf, Htm, Hk, Hc. specialize (Htm ltac:(lia)).
    set (s1 := Scheduler.next pf dsn pk url render s e) in *.
    cbn [Scheduler.next].
    assert (Hdue : due_timer (with_clock (clock s1 + Z.of_N 5000) s1) = Some 1%positive).
    { unfold due_timer. cbn [timers with_clock clock]. rewrite Htm, Hk. cbn [filter snd].
      destruct (Z.leb_spec (t0 + 5000) (t0 + Z.of_N 5000)); [reflexivity|lia]. }
    rewrite Hdue, drain_transport, drain_eq.
    cbn [buffer expire with_timers with_clock clock timers transport_calls calls flushTimer].
    rewrite Hbuf, Hk, Htm.
    change (transport_calls (expire 1 (with_clock (t0 + Z.of_N 5000) s1)))
      with (transport_calls s1).
    rewrite Hc.
    eexists. eexists. split; [reflexivity|]. split; [reflexivity|].
    split; [reflexivity|]. split; [|reflexivity].
    destruct (flushTimer s1); cbn; reflexivity.
Qed.

(** With the clock at 2024-01-15T10:00:00.000Z a record's timestamp is the
    number 1705312800, and the payload is sent at that ISO time. *)
Example Date_toISOString_samples :
  map Date_toISOString [0; -1; 951782400123; 1709251199999; 253402300799999]
  = ["1970-01-01T00:00:00.000Z"; "1969-12-31T23:59:59.999Z"; "2000-02-29T00:00:00.123Z";
     "2024-02-29T23:59:59.999Z"; "9999-12-31T23:59:59.999Z"].
Proof. vm_compute. reflexivity. Qed.

Example timestamp_in_epoch_seconds :
  map m_timestamp
    (buffer (run TestPlatform.client (boot TestPlatform.test_time)
               [Count "test.metric" None None]))
  = [Number_of_Z 1705312800]
  /\ Date_toISOString TestPlatform.test_time = "2024-01-15T10:00:00.000Z".
Proof. split; vm_compute; reflexivity. Qed.

(* ================================================================== *)
(** * No record is lost, none is sent twice *)
(* ================================================================== *)

Section Conservation.

Variable pf : Platform.
Variables dsn publicKey envelopeUrl : string.
Variable render : list byte -> string.

Local Notation next := (Scheduler.next pf dsn publicKey envelopeUrl render).
Local Notation drain := (Scheduler.drain pf dsn publicKey envelopeUrl).
Local Notation request := (Scheduler.request pf dsn publicKey envelopeUrl).

Local Notation accounts_for := (accounts_for pf dsn).

Lemma drain_accounts (s : State) (recs : list MetricPayload) :
  (List.length (buffer s) <= 100)%nat ->
  accounts_for s recs -> accounts_for (drain s) recs.
Proof.
  intros Hl (batches & Hb & Hr & Hn).
  destruct (buffer s) as [|x b] eqn:E.
  - exists batches. rewrite drain_transport, E, app_nil_r.
    destruct (drain_fields pf dsn publicKey envelopeUrl s) as (-> & _).
    repeat split; assumption.
  - exists (batches ++ [(clock s, x :: b)])%list.
    rewrite drain_transport, E, !map_app, Hb.
    destruct (drain_fields pf dsn publicKey envelopeUrl s) as (-> & _).
    split; [reflexivity|]. split.
    + rewrite List.concat_app. cbn [map snd List.concat]. now rewrite !app_nil_r.
    + apply Forall_app. split; [exact Hn|]. constructor; [|constructor].
      cbn [snd List.length] in *. lia.
Qed.

Lemma next_accounts (s : State) (e : Event) (recs : list MetricPayload) :
  settled s ->
  accounts_for s recs ->
  exists new,
    accounts_for (next s e) (recs ++ new)
    /\ map m_name new = map event_name (filter is_recording [e])
    /\ map m_value new = map event_value (filter is_recording [e])
    /\ map m_type new = map event_type (filter is_recording [e]).
Proof.
  intros Hs H. pose proof (settled_buffer_bound s Hs) as Hbound.
  destruct (is_recording e) eqn:He.
  - exists [Scheduler.record_of pf render s (event_name e) (event_value e) (event_type e)
              (event_options e)].
    cbn [filter]. rewrite He. split; [|repeat split].
    destruct H as (batches & Hb & Hr & Hn).
    destruct (Nat.leb_spec 99 (List.length (buffer s))) as [Hl|Hl].
    + destruct (next_full pf dsn publicKey envelopeUrl render s e He Hl)
        as (Hbuf & _ & Hc & _).
      exists (batches ++ [(clock s, buffer s ++
                [Scheduler.record_of pf render s (event_name e) (event_value e)
                   (event_type e) (event_options e)])])%list.
      rewrite Hc, Hbuf, !map_app, Hb. split; [reflexivity|]. split.
      * rewrite List.concat_app. cbn [map snd List.concat]. rewrite !app_nil_r, app_assoc.
        rewrite <- Hr. reflexivity.
      * apply Forall_app. split; [exact Hn|]. constructor; [|constructor].
        cbn [snd]. rewrite length_app. cbn [List.length]. lia.
    + destruct (next_below pf dsn publicKey envelopeUrl render s e He Hl)
        as (Hbuf & Hc & _).
      exists batches. rewrite Hc, Hbuf. split; [exact Hb|]. split; [|exact Hn].
      rewrite app_assoc, <- Hr. reflexivity.
  - exists []. cbn [filter]. rewrite He, app_nil_r. split; [|repeat split].
    destruct e; try discriminate; cbn [Scheduler.next].
    + apply drain_accounts; [lia|exact H].
    + exact H.
    + destruct (due_timer s) as [h|]; [|exact H].
      apply drain_accounts; [cbn; lia|exact H].
Qed.

Lemma run_accounts (tr : list Event) (s : State) (recs : list MetricPayload) :
  settled s ->
  accounts_for s recs ->
  exists new,
    accounts_for (fold_left next tr s) (recs ++ new)
    /\ map m_name new = map event_name (filter is_recording tr)
    /\ map m_value new = map event_value (filter is_recording tr)
    /\ map m_type new = map event_type (filter is_recording tr).
Proof.
  revert s recs. induction tr as [|e tr IH]; intros s recs Hs H.
  - exists []. rewrite app_nil_r. repeat split. exact H.
  - cbn [fold_left].
    destruct (next_accounts s e recs Hs H) as (n1 & H1 & Ha & Hb & Hc).
    destruct (IH _ _ (settled_next pf dsn publicKey envelopeUrl render s e Hs) H1)
      as (n2 & H2 & Ha2 & Hb2 & Hc2).
    exists (n1 ++ n2)%list. rewrite app_assoc. split; [exact H2|].
    change (e :: tr) with ([e] ++ tr)%list.
    rewrite filter_app, !map_app, Ha, Hb, Hc, Ha2, Hb2, Hc2. repeat split.
Qed.

End Conservation.

(** X1.  No record is lost and none is sent twice: after any history, the
    batches sent so far (each of one to a hundred records, each the payload
    of one request, in the order of the requests) followed by the records
    still buffered are exactly the records of the recording calls made, in
    call order. *)
Theorem records_are_sent_once_in_order
  (pf : Platform) (dsn : string) (t0 : Z) (m : Metrics.t) (s0 : State) (tr : list Event) :
  built pf dsn (boot t0) m s0 ->
  exists (batches : list Batch) (recs : list MetricPayload),
    map req_body (transport_calls (run m s0 tr)) = map (batch_payload pf dsn) batches
    /\ Forall (fun b : Batch => (1 <= List.length (snd b) <= 100)%nat) batches
    /\ (List.concat (map snd batches) ++ buffer (run m s0 tr))%list = recs
    /\ map m_name recs = map event_name (filter is_recording tr)
    /\ map m_value recs = map event_value (filter is_recording tr)
    /\ map m_type recs = map event_type (filter is_recording tr).
Proof.
  intros Hb.
  destruct (built_implements _ _ _ _ _ Hb) as (pk & url & render & Hm & _ & ->).
  rewrite !(run_next _ _ _ _ _ _ Hm).
  destruct (run_accounts pf dsn pk url render tr
              (with_flushTimer None (with_buffer [] (boot t0))) [])
    as (new & (batches & H1 & H2 & H3) & Hn & Hv & Ht).
  - left. repeat split.
  - exists []. repeat split. constructor.
  - exists batches, new. cbn [app] in H2. repeat split; assumption.
Qed.

Lemma records_are_sent_once_in_order_witness :
  exists (batches : list Batch) (recs : list MetricPayload),
    map req_body
      (transport_calls
         (run TestPlatform.compact_client (boot TestPlatform.test_time)
            [Count "a" None None; Flush; Gauge "b" forty_two None; Advance 5000; Timer;
             Count "c" None None]))
    = map (batch_payload TestPlatform.platform TestPlatform.VALID_DSN) batches
    /\ List.length batches = 2%nat
    /\ map m_name recs = ["a"; "b"; "c"].
Proof.
  destruct (records_are_sent_once_in_order TestPlatform.platform TestPlatform.VALID_DSN
              TestPlatform.test_time TestPlatform.compact_client
              (boot TestPlatform.test_time)
              [Count "a" None None; Flush; Gauge "b" forty_two None; Advance 5000; Timer;
               Count "c" None None]
              (compact_client_built TestPlatform.test_time))
    as (batches & recs & H1 & _ & _ & Hn & _).
  exists batches, recs. split; [exact H1|]. split; [|exact Hn].
  apply (f_equal (@List.length string)) in H1. rewrite !length_map in H1.
  rewrite <- H1. vm_compute. reflexivity.
Defined.

(* ================================================================== *)
(** * The state machine and its two triggers, from any idle point *)
(* ================================================================== *)

Section QuietTimers.

Variable pf : Platform.
Variables dsn publicKey envelopeUrl : string.
Variable render : list byte -> string.

Local Notation next := (Scheduler.next pf dsn publicKey envelopeUrl render).

(** Before its time, a pending deadline stays as it is. *)
Lemma quiet_run_timers (tr : list Event) (s : State) (h : positive) (due : Z) :
  settled s ->
  timers s = [(h, due)] ->
  forallb (fun e => negb (is_flush e)) tr = true ->
  (List.length (buffer s) + recordings tr < 100)%nat ->
  clock s + elapsed tr < due ->
  timers (fold_left next tr s) = [(h, due)].
Proof.
  revert s. induction tr as [|e tr IH]; intros s Hs Htm Hnf Hn Ht; [exact Htm|].
  cbn [forallb] in Hnf. apply andb_prop in Hnf as [He Hnf].
  cbn [fold_left].
  pose proof (elapsed_nonneg tr) as Hpos.
  assert (Hs' : settled (next s e)) by now apply settled_next.
  destruct (is_recording e) eqn:Hrec.
  - assert (Hn' : (List.length (buffer s) < 99)%nat).
    { unfold recordings in Hn. cbn [filter] in Hn. rewrite Hrec in Hn.
      cbn [List.length] in Hn. lia. }
    destruct (next_below pf dsn publicKey envelopeUrl render s e Hrec Hn')
      as (Hb & _ & Hk & _).
    apply IH; [exact Hs'| |exact Hnf| |].
    + now rewrite (next_below_deadline pf dsn publicKey envelopeUrl render s e Hs Hrec Hn'), Htm.
    + rewrite Hb, length_app. cbn [List.length].
      unfold recordings in Hn |- *. cbn [filter] in Hn. rewrite Hrec in Hn.
      cbn [List.length] in Hn. lia.
    + rewrite Hk. destruct e; try discriminate; cbn [elapsed] in Ht; exact Ht.
  - destruct e; try discriminate; cbn [Scheduler.next] in *.
    + apply IH; [exact Hs'|exact Htm|exact Hnf|exact Hn|].
      cbn [clock with_clock elapsed] in *. lia.
    + assert (Hd : due_timer s = None).
      { apply due_timer_not_yet; [exact Hs|]. unfold deadline. rewrite Htm.
        cbn [elapsed] in Ht. lia. }
      rewrite Hd in *. apply IH; [exact Hs|exact Htm|exact Hnf|exact Hn|exact Ht].
Qed.

(** From an idle client: a recording call, then anything but a flush, below
    the threshold and before the deadline. *)
Lemma accumulate_from_idle (s : State) (e : Event) (post : list Event) :
  settled s -> buffer s = [] ->
  is_recording e = true ->
  forallb (fun e => negb (is_flush e)) post = true ->
  (recordings post < 99)%nat ->
  elapsed post < 5000 ->
  timers (fold_left next (e :: post) s) = [(next_handle s, clock s + 5000)]
  /\ transport_calls (fold_left next (e :: post) s) = transport_calls s
  /\ clock (fold_left next (e :: post) s) = clock s + elapsed post
  /\ exists rs,
      buffer (fold_left next (e :: post) s) = rs
      /\ rs <> []
      /\ map m_name rs = map event_name (e :: filter is_recording post)
      /\ map m_value rs = map event_value (e :: filter is_recording post)
      /\ map m_type rs = map event_type (e :: filter is_recording post).
Proof.
  intros Hs Hb He Hnf Hn Ht.
  destruct (settled_empty_Idle s Hs Hb) as (_ & Hf & Htm).
  assert (Hnf' : forallb (fun e => negb (is_flush e)) (e :: post) = true).
  { cbn [forallb]. rewrite Hnf. destruct e; try discriminate; reflexivity. }
  assert (Hrec : (List.length (buffer s) + recordings (e :: post) < 100)%nat).
  { rewrite Hb. unfold recordings in *. cbn [filter]. rewrite He. cbn [List.length]. lia. }
  assert (Hdl : match deadline s with
                | Some due => clock s + elapsed (e :: post) < due
                | None => elapsed_since_first_recording (e :: post) < 5000
                end).
  { unfold deadline. rewrite Htm. cbn [elapsed_since_first_recording]. now rewrite He. }
  split; [|split; [|split]].
  - cbn [fold_left].
    assert (Hl : (List.length (buffer s) < 99)%nat) by (rewrite Hb; cbn; lia).
    destruct (next_below pf dsn publicKey envelopeUrl render s e He Hl) as (Hb1 & _ & Hk1 & _).
    apply quiet_run_timers; [now apply settled_next| |exact Hnf| |].
    + now rewrite (next_below_deadline pf dsn publicKey envelopeUrl render s e Hs He Hl), Htm.
    + rewrite Hb1, Hb. cbn. lia.
    + rewrite Hk1. lia.
  - now apply quiet_run.
  - destruct (quiet_run_buffer pf dsn publicKey envelopeUrl render (e :: post) s Hs Hnf' Hrec Hdl)
      as (rs & _ & _ & _ & _ & Hk & _).
    rewrite Hk. destruct e; try discriminate; reflexivity.
  - destruct (quiet_run_buffer pf dsn publicKey envelopeUrl render (e :: post) s Hs Hnf' Hrec Hdl)
      as (rs & Hbuf & H1 & H2 & H3 & _).
    rewrite Hb in Hbuf. cbn [app] in Hbuf. cbn [filter] in H1, H2, H3. rewrite He in *.
    exists rs. repeat split; try assumption.
    intros ->. discriminate.
Qed.

End QuietTimers.

(** X2.  Between operations a client is in one of two states: idle, with
    nothing buffered, no handle held and no timeout scheduled; or
    accumulating, with between one and ninety-nine records buffered and a
    deadline pending.  So the buffer never holds a hundred records when a
    call returns, and a deadline is pending exactly when something is
    buffered. *)
Theorem client_is_idle_or_accumulating
  (pf : Platform) (dsn : string) (t0 : Z) (m : Metrics.t) (s0 : State) (tr : list Event) :
  built pf dsn (boot t0) m s0 ->
  (List.length (buffer (run m s0 tr)) <= 99)%nat
  /\ (buffer (run m s0 tr) = [] <-> flushTimer (run m s0 tr) = None)
  /\ (buffer (run m s0 tr) = [] <-> timers (run m s0 tr) = [])
  /\ (Idle (run m s0 tr) \/ Accumulating (run m s0 tr)).
Proof.
  intros Hb.
  destruct (built_implements _ _ _ _ _ Hb) as (pk & url & render & Hm & _ & ->).
  rewrite (run_next _ _ _ _ _ _ Hm).
  set (s := fold_left _ tr _).
  assert (Hs : settled s) by (apply settled_run; left; repeat split).
  split; [pose proof (settled_buffer_bound s Hs); lia|].
  split; [|split; [|exact Hs]].
  - destruct Hs as [(Hbuf & Hf & _)|(Hbuf & _ & h & due & Hf & _)]; rewrite Hf; split;
      intros H; congruence.
  - destruct Hs as [(Hbuf & _ & Ht)|(Hbuf & _ & h & due & _ & Ht)]; rewrite Ht; split;
      intros H; congruence.
Qed.

Lemma client_is_idle_or_accumulating_witness :
  (List.length
     (buffer (run TestPlatform.client (boot TestPlatform.test_time)
                (TestPlatform.hundred_counts ++ [Count "again" None None]))) <= 99)%nat.
Proof.
  exact (proj1 (client_is_idle_or_accumulating _ _ _ _ _
                  (TestPlatform.hundred_counts ++ [Count "again" None None])
                  (client_built TestPlatform.test_time))).
Defined.

(** X3.  The deadline is set by the first record of a batch and is not
    pushed back by the records that follow: after a recording call on a
    client with nothing buffered, whatever is recorded in the next 5000 ms
    (short of the threshold), the one pending timeout stays due 5000 ms after
    that first call. *)
Theorem deadline_is_not_postponed
  (pf : Platform) (dsn : string) (t0 : Z) (m : Metrics.t) (s0 : State)
  (history : list Event) (e : Event) (post : list Event) :
  built pf dsn (boot t0) m s0 ->
  buffer (run m s0 history) = [] ->
  is_recording e = true ->
  forallb (fun e => negb (is_flush e)) post = true ->
  (recordings post < 99)%nat ->
  elapsed post < 5000 ->
  deadline (run m s0 (history ++ e :: post)) = Some (clock (run m s0 history) + 5000)
  /\ List.length (timers (run m s0 (history ++ e :: post))) = 1%nat
  /\ clock (run m s0 (history ++ e :: post)) = clock (run m s0 history) + elapsed post.
Proof.
  intros Hb Hbuf He Hnf Hn Ht.
  destruct (built_implements _ _ _ _ _ Hb) as (pk & url & render & Hm & _ & ->).
  rewrite !(run_next _ _ _ _ _ _ Hm) in *. rewrite fold_left_app.
  set (s := fold_left _ history _) in *.
  assert (Hs : settled s) by (apply settled_run; left; repeat split).
  destruct (accumulate_from_idle pf dsn pk url render s e post Hs Hbuf He Hnf Hn Ht)
    as (Htm & _ & Hk & _).
  unfold deadline. rewrite Htm, Hk. repeat split.
Qed.

Lemma deadline_is_not_postponed_witness :
  deadline
    (run TestPlatform.client (boot TestPlatform.test_time)
       ([Count "a" None None; Flush] ++ Count "b" None None
          :: [Advance 3000; Count "c" None None; Advance 1999; Timer; Count "d" None None]))
  = Some (clock (run TestPlatform.client (boot TestPlatform.test_time)
                   [Count "a" None None; Flush]) + 5000).
Proof.
  apply (deadline_is_not_postponed TestPlatform.platform TestPlatform.VALID_DSN
           TestPlatform.test_time TestPlatform.client (boot TestPlatform.test_time)
           [Count "a" None None; Flush] (Count "b" None None)
           [Advance 3000; Count "c" None None; Advance 1999; Timer; Count "d" None None]
           (client_built TestPlatform.test_time)).
  - reflexivity.
  - reflexivity.
  - reflexivity.
  - vm_compute. lia.
  - reflexivity.
Defined.



(** X5.  The size trigger, from any idle point and with time passing: when
    ninety-nine records have gathered before the deadline, the next
    recording call sends all hundred in one request, in call order, and
    cancels the deadline, so that the timer sends nothing later. *)
Theorem size_trigger_cancels_the_deadline
  (pf : Platform) (dsn : string) (t0 : Z) (m : Metrics.t) (s0 : State)
  (history : list Event) (e : Event) (post : list Event) (e' : Event) (later : N) :
  built pf dsn (boot t0) m s0 ->
  buffer (run m s0 history) = [] ->
  is_recording e = true ->
  forallb (fun e => negb (is_flush e)) post = true ->
  recordings post = 98%nat ->
  elapsed post < 5000 ->
  is_recording e' = true ->
  exists req items,
    transport_calls (run m s0 (history ++ e :: post ++ [e']))
    = (transport_calls (run m s0 history) ++ [req])%list
    /\ req_body req = payload pf dsn (clock (run m s0 history) + elapsed post) items
    /\ List.length items = 100%nat
    /\ map m_name items = map event_name (e :: filter is_recording post ++ [e'])
    /\ Idle (run m s0 (history ++ e :: post ++ [e']))
    /\ transport_calls (run m s0 (history ++ e :: post ++ [e'; Advance later; Timer]))
       = (transport_calls (run m s0 history) ++ [req])%list.
Proof.
  intros Hb Hbuf He Hnf Hn Ht He'.
  destruct (built_implements _ _ _ _ _ Hb) as (pk & url & render & Hm & _ & ->).
  rewrite !(run_next _ _ _ _ _ _ Hm) in *.
  change (e :: post ++ [e'])%list with ((e :: post) ++ [e'])%list.
  change (e :: post ++ [e'; Advance later; Timer])%list
    with ((e :: post) ++ [e'] ++ [Advance later; Timer])%list.
  rewrite !fold_left_app.
  set (s := fold_left _ history _) in *.
  assert (Hs : settled s) by (apply settled_run; left; repeat split).
  destruct (accumulate_from_idle pf dsn pk url render s e post Hs Hbuf He Hnf
              ltac:(lia) Ht)
    as (Htm & Hc & Hk & rs & Hrs & Hne & H1 & H2 & H3).
  set (s1 := fold_left _ (e :: post) s) in *.
  assert (Hs1 : settled s1) by (apply settled_run; exact Hs).
  assert (Hlen : List.length rs = 99%nat).
  { rewrite <- (length_map m_name), H1, length_map. cbn [List.length].
    unfold recordings in Hn. now rewrite Hn. }
  cbn [fold_left].
  destruct (next_full pf dsn pk url render s1 e' He') as (Hb2 & Hf2 & Hc2 & Hk2 & _);
    [rewrite Hrs; lia|].
  assert (Hi : Idle (Scheduler.next pf dsn pk url render s1 e')).
  { destruct (settled_next pf dsn pk url render s1 e' Hs1) as [Hi|(Hx & _)];
      [exact Hi|contradiction]. }
  set (s2 := Scheduler.next pf dsn pk url render s1 e') in *.
  eexists. exists (rs ++ [Scheduler.record_of pf render s1 (event_name e') (event_value e')
                            (event_type e') (event_options e')])%list.
  split; [rewrite Hc2, Hc, Hrs; reflexivity|].
  split; [rewrite Hk; reflexivity|].
  split; [rewrite length_app, Hlen; reflexivity|].
  split; [cbn [map]; rewrite !map_app, H1; reflexivity|].
  split; [exact Hi|].
  cbn [Scheduler.next].
  destruct Hi as (_ & _ & Hti).
  unfold due_timer. cbn [timers with_clock]. rewrite Hti. cbn [filter].
  change (transport_calls (with_clock (clock s2 + Z.of_N later) s2))
    with (transport_calls s2).
  rewrite Hc2, Hc, Hrs. reflexivity.
Qed.

Lemma size_trigger_cancels_the_deadline_witness :
  exists (req : Request) (items : list MetricPayload),
    transport_calls
      (run TestPlatform.client (boot TestPlatform.test_time)
         ([] ++ Count "first" None None
             :: skipn 3 ninety_nine_spread ++ [Count "last" None None]))
    = (transport_calls (run TestPlatform.client (boot TestPlatform.test_time) []) ++ [req])%list
    /\ List.length items = 100%nat.
Proof.
  destruct (size_trigger_cancels_the_deadline TestPlatform.platform TestPlatform.VALID_DSN
              TestPlatform.test_time TestPlatform.client (boot TestPlatform.test_time)
              [] (Count "first" None None) (skipn 3 ninety_nine_spread)
              (Count "last" None None) 10000%N
              (client_built TestPlatform.test_time) eq_refl eq_refl eq_refl
              eq_refl eq_refl eq_refl)
    as (req & items & H1 & _ & H2 & _).
  exists req, items. split; [exact H1|exact H2].
Defined.

(* ================================================================== *)
(** * What construction fixes: the target of every request *)
(* ================================================================== *)

(** What each revision of [createMetrics] returns for an address that
    parses. *)
Lemma Factored_createMetrics_parsed (pf : Platform) (dsn : string) (url : URL) (s : State) :
  URL_parse pf dsn = Some url ->
  Factored.createMetrics pf dsn s
  = if negb (truthy (url_username url)) || negb (truthy (url_host url))
       || negb (truthy (slice1 (url_pathname url)))
    then (Throw (Error "Invalid DSN: missing required components"), s)
    else (Normal (Factored_client pf dsn (url_username url)
                    ("https://" ++ url_host url ++ "/api/" ++ slice1 (url_pathname url)
                     ++ "/envelope/")),
          with_flushTimer None (with_buffer [] s)).
Proof.
  intros H. unfold Factored.createMetrics, Factored.parseDSN. rewrite H.
  destruct (_ || _); reflexivity.
Qed.

Lemma Compact_createMetrics_parsed (pf : Platform) (dsn : string) (url : URL) (s : State) :
  URL_parse pf dsn = Some url ->
  Compact.createMetrics pf dsn s
  = if negb (truthy (url_username url)) || negb (truthy (url_host url))
       || negb (truthy (slice1 (url_pathname url)))
    then (Throw (Error "Invalid DSN: missing required components"), s)
    else (Normal (Compact_client pf dsn (url_username url)
                    ("https://" ++ url_host url ++ "/api" ++ url_pathname url
                     ++ "/envelope/")),
          with_flushTimer None (with_buffer [] s)).
Proof.
  intros H. unfold Compact.createMetrics. rewrite H.
  destruct (_ || _); reflexivity.
Qed.

(** X6.  Construction succeeds exactly when the address parses as a URL with
    a non-empty user name, host and path after the leading slash, in both
    revisions alike; [parseDSN] then returns exactly these three parts.  A
    client that is built starts idle: buffer empty, no handle, and nothing
    has been asked of the platform. *)
Theorem construction_succeeds_iff_complete (pf : Platform) (dsn : string) (s : State) :
  ((exists m s', Factored.createMetrics pf dsn s = (Normal m, s'))
   <-> ~ missing_component pf dsn)
  /\ ((exists m s', Compact.createMetrics pf dsn s = (Normal m, s'))
      <-> ~ missing_component pf dsn)
  /\ (forall parsed,
         Factored.parseDSN pf dsn = Normal parsed <->
         exists url,
           URL_parse pf dsn = Some url
           /\ parsed = {| Factored.publicKey := url_username url;
                          Factored.host := url_host url;
                          Factored.projectId := slice1 (url_pathname url) |}
           /\ url_username url <> EmptyString /\ url_host url <> EmptyString
           /\ slice1 (url_pathname url) <> EmptyString)
  /\ (forall m s',
         built pf dsn s m s' ->
         buffer s' = [] /\ flushTimer s' = None /\ calls s' = calls s
         /\ timers s' = timers s /\ clock s' = clock s).
Proof.
  split; [|split; [|split]].
  - unfold missing_component. destruct (URL_parse pf dsn) as [url|] eqn:E.
    + rewrite (Factored_createMetrics_parsed pf dsn url s E), <- guard_missing.
      destruct (_ || _); split.
      * intros (m & s' & H). discriminate.
      * intros H. now contradiction H.
      * intros _. discriminate.
      * intros _. eexists. eexists. reflexivity.
    + unfold Factored.createMetrics, Factored.parseDSN. rewrite E. split.
      * intros (m & s' & H). discriminate.
      * intros H. now contradiction H.
  - unfold missing_component. destruct (URL_parse pf dsn) as [url|] eqn:E.
    + rewrite (Compact_createMetrics_parsed pf dsn url s E), <- guard_missing.
      destruct (_ || _); split.
      * intros (m & s' & H). discriminate.
      * intros H. now contradiction H.
      * intros _. discriminate.
      * intros _. eexists. eexists. reflexivity.
    + unfold Compact.createMetrics. rewrite E. split.
      * intros (m & s' & H). discriminate.
      * intros H. now contradiction H.
  - intros parsed. unfold Factored.parseDSN.
    destruct (URL_parse pf dsn) as [url|] eqn:E.
    + destruct (_ || _) eqn:G; split.
      * discriminate.
      * intros (u & Hu & _ & H1 & H2 & H3). injection Hu as <-.
        apply guard_missing in G. tauto.
      * intros H. injection H as <-. exists url. split; [reflexivity|].
        split; [reflexivity|].
        assert (G' : ~ (url_username url = EmptyString \/ url_host url = EmptyString
                        \/ slice1 (url_pathname url) = EmptyString)).
        { rewrite <- guard_missing. congruence. }
        tauto.
      * intros (u & Hu & -> & _). injection Hu as <-. reflexivity.
    + split; [discriminate|]. intros (u & Hu & _). discriminate.
  - intros m s' Hb.
    destruct (built_implements _ _ _ _ _ Hb) as (_ & _ & _ & _ & _ & ->).
    repeat split.
Qed.

Section ExactRequests.

Variable pf : Platform.
Variables dsn publicKey envelopeUrl : string.
Variable render : list byte -> string.

Local Notation next := (Scheduler.next pf dsn publicKey envelopeUrl render).
Local Notation drain := (Scheduler.drain pf dsn publicKey envelopeUrl).
Local Notation request := (Scheduler.request pf dsn publicKey envelopeUrl).

Lemma next_requests_target (s : State) (e : Event) :
  Forall (fun req => req_url req = envelopeUrl /\ req_method req = "POST"
                     /\ req_headers req = expected_headers publicKey)
    (transport_calls s) ->
  Forall (fun req => req_url req = envelopeUrl /\ req_method req = "POST"
                     /\ req_headers req = expected_headers publicKey)
    (transport_calls (next s e)).
Proof.
  intros H.
  assert (Hd : forall s', transport_calls s' = transport_calls s ->
                          Forall (fun req => req_url req = envelopeUrl
                                             /\ req_method req = "POST"
                                             /\ req_headers req = expected_headers publicKey)
                            (transport_calls (drain s'))).
  { intros s' E. rewrite drain_transport, E. apply Forall_app. split; [exact H|].
    destruct (buffer s'); constructor; [repeat split|constructor]. }
  destruct (is_recording e) eqn:He.
  - destruct (Nat.leb_spec 99 (List.length (buffer s))) as [Hl|Hl].
    + destruct (next_full pf dsn publicKey envelopeUrl render s e He Hl) as (_ & _ & -> & _).
      apply Forall_app. split; [exact H|]. constructor; [repeat split|constructor].
    + now destruct (next_below pf dsn publicKey envelopeUrl render s e He Hl) as (_ & -> & _).
  - destruct e; try discriminate; cbn [Scheduler.next].
    + now apply Hd.
    + exact H.
    + destruct (due_timer s); [|exact H]. now apply Hd.
Qed.

Lemma run_requests_target (tr : list Event) (s : State) :
  Forall (fun req => req_url req = envelopeUrl /\ req_method req = "POST"
                     /\ req_headers req = expected_headers publicKey)
    (transport_calls s) ->
  Forall (fun req => req_url req = envelopeUrl /\ req_method req = "POST"
                     /\ req_headers req = expected_headers publicKey)
    (transport_calls (fold_left next tr s)).
Proof.
  revert s. induction tr as [|e tr IH]; intros s H; [exact H|].
  cbn [fold_left]. apply IH. now apply next_requests_target.
Qed.

End ExactRequests.

(** X7.  Every request of a client goes by [POST] to the one envelope URL
    fixed at construction, with the envelope content type and the credential
    of the address in the [X-Sentry-Auth] header.  The factored revision
    builds the URL from the path without its first character, the compact
    one from the whole path; for a path that begins with a slash both give
    [https://<host>/api/<project>/envelope/]. *)
Theorem requests_go_to_the_envelope_endpoint
  (pf : Platform) (dsn : string) (t0 : Z) (url : URL) (tr : list Event) :
  URL_parse pf dsn = Some url ->
  (forall m s0 req,
      Factored.createMetrics pf dsn (boot t0) = (Normal m, s0) ->
      In req (transport_calls (run m s0 tr)) ->
      req_method req = "POST"
      /\ req_headers req = expected_headers (url_username url)
      /\ req_url req
         = "https://" ++ url_host url ++ "/api/" ++ slice1 (url_pathname url) ++ "/envelope/")
  /\ (forall m s0 req,
         Compact.createMetrics pf dsn (boot t0) = (Normal m, s0) ->
         In req (transport_calls (run m s0 tr)) ->
         req_method req = "POST"
         /\ req_headers req = expected_headers (url_username url)
         /\ req_url req
            = "https://" ++ url_host url ++ "/api" ++ url_pathname url ++ "/envelope/")
  /\ (forall project m s0 req,
         url_pathname url = String "/" project ->
         built pf dsn (boot t0) m s0 ->
         In req (transport_calls (run m s0 tr)) ->
         req_url req = "https://" ++ url_host url ++ "/api/" ++ project ++ "/envelope/").
Proof.
  intros Hu.
  assert (HF : forall m s0 req,
             Factored.createMetrics pf dsn (boot t0) = (Normal m, s0) ->
             In req (transport_calls (run m s0 tr)) ->
             req_method req = "POST"
             /\ req_headers req = expected_headers (url_username url)
             /\ req_url req
                = "https://" ++ url_host url ++ "/api/" ++ slice1 (url_pathname url)
                  ++ "/envelope/").
  { intros m s0 req H Hin.
    rewrite (Factored_createMetrics_parsed pf dsn url _ Hu) in H.
    destruct (_ || _); [discriminate|]. injection H as <- <-.
    rewrite (run_next _ _ _ _ _ _ (Factored_implements pf dsn _ _)) in Hin.
    pose proof (run_requests_target pf dsn (url_username url)
                  ("https://" ++ url_host url ++ "/api/" ++ slice1 (url_pathname url)
                   ++ "/envelope/")
                  render_factored tr (boot t0) (Forall_nil _)) as Hall.
    rewrite Forall_forall in Hall. destruct (Hall req Hin) as (H1 & H2 & H3).
    repeat split; assumption. }
  assert (HC : forall m s0 req,
             Compact.createMetrics pf dsn (boot t0) = (Normal m, s0) ->
             In req (transport_calls (run m s0 tr)) ->
             req_method req = "POST"
             /\ req_headers req = expected_headers (url_username url)
             /\ req_url req
                = "https://" ++ url_host url ++ "/api" ++ url_pathname url ++ "/envelope/").
  { intros m s0 req H Hin.
    rewrite (Compact_createMetrics_parsed pf dsn url _ Hu) in H.
    destruct (_ || _); [discriminate|]. injection H as <- <-.
    rewrite (run_next _ _ _ _ _ _ (Compact_implements pf dsn _ _)) in Hin.
    pose proof (run_requests_target pf dsn (url_username url)
                  ("https://" ++ url_host url ++ "/api" ++ url_pathname url ++ "/envelope/")
                  render_compact tr (boot t0) (Forall_nil _)) as Hall.
    rewrite Forall_forall in Hall. destruct (Hall req Hin) as (H1 & H2 & H3).
    repeat split; assumption. }
  split; [exact HF|]. split; [exact HC|].
  intros project m s0 req Hp [H|H] Hin.
  - destruct (HF m s0 req H Hin) as (_ & _ & ->). rewrite Hp. reflexivity.
  - destruct (HC m s0 req H Hin) as (_ & _ & ->). rewrite Hp. reflexivity.
Qed.

Lemma requests_go_to_the_envelope_endpoint_witness :
  exists req,
    In req (transport_calls
              (run TestPlatform.compact_client (boot TestPlatform.test_time)
                 [Count "test.metric" None None; Flush]))
    /\ req_url req = "https://o123456.ingest.sentry.io/api/4567890/envelope/"
    /\ req_headers req
       = [("Content-Type", "application/x-sentry-envelope");
          ("X-Sentry-Auth", "Sentry sentry_key=abc123, sentry_version=7")].
Proof.
  assert (H : exists req,
             transport_calls
               (run TestPlatform.compact_client (boot TestPlatform.test_time)
                  [Count "test.metric" None None; Flush]) = [req])
    by (vm_compute; eexists; reflexivity).
  destruct H as [req Hreq]. exists req.
  assert (Hin : In req (transport_calls
                          (run TestPlatform.compact_client (boot TestPlatform.test_time)
                             [Count "test.metric" None None; Flush])))
    by (rewrite Hreq; now left).
  split; [exact Hin|].
  destruct (requests_go_to_the_envelope_endpoint TestPlatform.platform
              TestPlatform.VALID_DSN TestPlatform.test_time
              {| url_username := "abc123"; url_host := "o123456.ingest.sentry.io";
                 url_pathname := "/4567890" |}
              [Count "test.metric" None None; Flush] eq_refl)
    as (_ & HC & Hu).
  split.
  - exact (Hu "4567890" _ _ req eq_refl (compact_client_built TestPlatform.test_time) Hin).
  - exact (proj1 (proj2 (HC _ _ req eq_refl Hin))).
Defined.
(* ================================================================== *)
(** * The attributes of a record *)
(* ================================================================== *)

(** X8.  The attributes of a record are the tags of the call other than a tag
    named [__proto__], one for one and in the same order, each with its value
    unchanged and a kind that is one of [string], [integer], [double] and
    [boolean].  No key is added or moved and no value is ever turned into a
    string (the default case of [formatAttributeValue] is never taken); the
    one key that is dropped is [__proto__], for which the assignment
    [formatted[key] = ...] sets the prototype instead of a property, so that
    tags without that key are all kept.  Both revisions store exactly what
    [formatAttributes] returns; without tags it returns nothing. *)
Theorem attributes_are_formatted_in_order
  (pf : Platform) (dsn : string) (t0 : Z) (m : Metrics.t) (s0 : State)
  (tr : list Event) (e : Event) (unit : option string) (attrs : Attributes) :
  built pf dsn (boot t0) m s0 ->
  is_recording e = true ->
  event_options e = Some {| opt_unit := unit; opt_attributes := Some attrs |} ->
  NoDup (map fst attrs) ->
  Factored.formatAttributes pf (Some attrs)
  = Some (map (fun kv => (fst kv, Factored.formatAttributeValue pf (snd kv)))
            (kept_tags attrs))
  /\ Factored.formatAttributes pf None = None
  /\ (exists r fa,
         appended pf dsn (run m s0 tr) (run m s0 (tr ++ [e])) r
         /\ m_attributes r = Some fa
         /\ Some fa = Factored.formatAttributes pf (Some attrs)
         /\ map fst fa
            = filter (fun k => negb (String.eqb k "__proto__")) (map fst attrs)
         /\ map (fun kv => fa_value (snd kv)) fa = map snd (kept_tags attrs)
         /\ obj_get "__proto__" fa = None
         /\ (~ In "__proto__" (map fst attrs) ->
             map fst fa = map fst attrs
             /\ map (fun kv => fa_value (snd kv)) fa = map snd attrs))
  /\ (forall v,
         fa_value (Factored.formatAttributeValue pf v) = v
         /\ In (fa_type (Factored.formatAttributeValue pf v))
              ["string"; "integer"; "double"; "boolean"]).
Proof.
  intros Hb He Ho Hnd.
  assert (Hfmt : Factored.formatAttributes pf (Some attrs)
                 = Some (map (fun kv => (fst kv, Factored.formatAttributeValue pf (snd kv)))
                           (kept_tags attrs))).
  { rewrite formatAttributes_encode. cbn [option_map]. f_equal.
    rewrite (encode_attributes_kept attrs Hnd).
    apply map_ext. intros kv. now rewrite formatAttributeValue_classify. }
  assert (Hall : ~ In "__proto__" (map fst attrs) -> kept_tags attrs = attrs).
  { intros Hno. unfold kept_tags. apply forallb_filter_id. apply forallb_forall.
    intros [k v] Hin. cbn. destruct (String.eqb_spec k "__proto__") as [->|]; [|reflexivity].
    exfalso. apply Hno. change "__proto__" with (fst ("__proto__", v)). now apply in_map. }
  split; [exact Hfmt|]. split; [reflexivity|]. split.
  - destruct (built_implements _ _ _ _ _ Hb) as (pk & url & render & Hm & _ & ->).
    rewrite !(run_next _ _ _ _ _ _ Hm), fold_left_app. cbn [fold_left].
    eexists.
    exists (map (fun kv => (fst kv, Factored.formatAttributeValue pf (snd kv)))
              (kept_tags attrs)).
    assert (Hvals : map (fun kv => fa_value (snd kv))
                      (map (fun kv => (fst kv, Factored.formatAttributeValue pf (snd kv)))
                         (kept_tags attrs))
                    = map snd (kept_tags attrs)).
    { rewrite map_map. apply map_ext. intros kv.
      rewrite formatAttributeValue_classify. reflexivity. }
    assert (Hkeys : map fst
                      (map (fun kv => (fst kv, Factored.formatAttributeValue pf (snd kv)))
                         (kept_tags attrs))
                    = map fst (kept_tags attrs)).
    { rewrite map_map. reflexivity. }
    split; [apply next_appended; exact He|].
    split.
    { etransitivity; [|exact Hfmt]. rewrite formatAttributes_encode.
      unfold Scheduler.record_of, Scheduler.encode. cbn [m_attributes]. rewrite Ho.
      reflexivity. }
    split; [now rewrite Hfmt|].
    split; [rewrite Hkeys; apply kept_tags_keys|].
    split; [exact Hvals|].
    split.
    + apply obj_get_absent. rewrite Hkeys, kept_tags_keys, filter_In.
      intros [_ H]. discriminate.
    + intros Hno. rewrite Hkeys, Hvals, (Hall Hno). split; reflexivity.
  - intros v. rewrite formatAttributeValue_classify. split; [reflexivity|].
    destruct v as [s|x|b]; cbn; [tauto| |tauto].
    destruct (Number_isInteger x); cbn; tauto.
Qed.

Lemma attributes_are_formatted_in_order_witness :
  exists r fa,
    appended TestPlatform.platform TestPlatform.VALID_DSN
      (run TestPlatform.compact_client (boot TestPlatform.test_time) [])
      (run TestPlatform.compact_client (boot TestPlatform.test_time)
         ([] ++ [count_with_proto_tag])) r
    /\ m_attributes r = Some fa
    /\ map fst fa = ["route"]
    /\ obj_get "__proto__" fa = None.
Proof.
  destruct (attributes_are_formatted_in_order TestPlatform.platform TestPlatform.VALID_DSN
              TestPlatform.test_time TestPlatform.compact_client
              (boot TestPlatform.test_time) []
              count_with_proto_tag None
              [("__proto__", AString "x"); ("route", AString "/checkout")]
              (compact_client_built TestPlatform.test_time) eq_refl eq_refl
              ltac:(repeat constructor; cbn; intuition discriminate))
    as (_ & _ & (r & fa & Ha & Hm & _ & Hk & _ & Hp & _) & _).
  exists r, fa. split; [exact Ha|]. split; [exact Hm|]. split; [exact Hk|exact Hp].
Defined.

(* ================================================================== *)
(** * The two revisions behave alike *)
(* ================================================================== *)

Lemma same_records_length (a b : list MetricPayload) :
  same_records a b -> List.length a = List.length b.
Proof.
  unfold same_records. intros H. apply (f_equal (@List.length _)) in H.
  now rewrite !length_map in H.
Qed.

Lemma same_records_app (a b a' b' : list MetricPayload) :
  same_records a b -> same_records a' b' -> same_records (a ++ a') (b ++ b').
Proof. unfold same_records. intros H H'. now rewrite !map_app, H, H'. Qed.

Section TwoRenderings.

Variable pf : Platform.
Variables dsn publicKey envelopeUrl : string.
Variables render1 render2 : list byte -> string.

Local Notation next1 := (Scheduler.next pf dsn publicKey envelopeUrl render1).
Local Notation next2 := (Scheduler.next pf dsn publicKey envelopeUrl render2).
Local Notation drain := (Scheduler.drain pf dsn publicKey envelopeUrl).
Local Notation same := (same_but_ids pf dsn).

Lemma drain_same (s1 s2 : State) : same s1 s2 -> same (drain s1) (drain s2).
Proof.
  intros (Hf & Hk & Ht & Hh & Hd & Hb & Hc).
  rewrite !drain_eq. unfold same_but_ids. cbn [flushTimer clock timers next_handle drawn buffer calls].
  rewrite Hf, Hk, Ht, Hh, Hd.
  repeat split.
  apply Forall2_app; [exact Hc|]. apply Forall2_app.
  - unfold cancellation. rewrite Hf. destruct (flushTimer s2); constructor; [reflexivity|constructor].
  - unfold transmission. pose proof (same_records_length _ _ Hb) as Hl.
    destruct (buffer s1) as [|x1 b1] eqn:E1; destruct (buffer s2) as [|x2 b2] eqn:E2;
      try discriminate; constructor; [|constructor].
    cbn. repeat split. exists (clock s2), (x1 :: b1), (x2 :: b2).
    rewrite Hk. repeat split. exact Hb.
Qed.

Lemma arm_same (s1 s2 : State) : same s1 s2 -> same (Scheduler.arm s1) (Scheduler.arm s2).
Proof.
  intros H. pose proof H as (Hf & Hk & Ht & Hh & Hd & Hb & Hc).
  rewrite !arm_eq, Hf. destruct (flushTimer s2).
  - exact H.
  - unfold same_but_ids. cbn [flushTimer clock timers next_handle drawn buffer calls].
    rewrite Hk, Ht, Hh, Hd. repeat split; [exact Hb|].
    apply Forall2_app; [exact Hc|]. constructor; [|constructor]. cbn. split; reflexivity.
Qed.

Lemma push_same (r1 r2 : MetricPayload) (s1 s2 : State) :
  forget_id r1 = forget_id r2 -> same s1 s2 ->
  same (Scheduler.push pf r1 s1) (Scheduler.push pf r2 s2).
Proof.
  intros Hr (Hf & Hk & Ht & Hh & Hd & Hb & Hc).
  rewrite !push_eq. unfold same_but_ids.
  cbn [flushTimer clock timers next_handle drawn buffer calls].
  rewrite Hd. repeat split; try assumption.
  apply same_records_app; [exact Hb|]. unfold same_records. cbn. now rewrite Hr.
Qed.

Lemma record_same name value type options (s1 s2 : State) :
  same s1 s2 ->
  same (Scheduler.record pf dsn publicKey envelopeUrl render1 name value type options s1)
       (Scheduler.record pf dsn publicKey envelopeUrl render2 name value type options s2).
Proof.
  intros H. rewrite !record_eq. cbn zeta.
  assert (Hr : forget_id (Scheduler.record_of pf render1 s1 name value type options)
               = forget_id (Scheduler.record_of pf render2 s2 name value type options)).
  { destruct H as (_ & Hk & _). unfold Scheduler.record_of, Scheduler.encode, forget_id. cbn.
    now rewrite Hk. }
  assert (Hl : List.length (buffer s1) = List.length (buffer s2)).
  { apply same_records_length. apply H. }
  rewrite Hl. destruct (99 <=? List.length (buffer s2))%nat.
  - apply drain_same. now apply push_same.
  - apply arm_same. now apply push_same.
Qed.

Lemma next_same (s1 s2 : State) (e : Event) : same s1 s2 -> same (next1 s1 e) (next2 s2 e).
Proof.
  intros H. destruct e; cbn [Scheduler.next].
  - now apply record_same.
  - now apply record_same.
  - now apply record_same.
  - now apply drain_same.
  - destruct H as (Hf & Hk & Ht & Hh & Hd & Hb & Hc). unfold same_but_ids. cbn.
    rewrite Hk. repeat split; assumption.
  - assert (Hdue : due_timer s1 = due_timer s2).
    { destruct H as (_ & Hk & Ht & _). unfold due_timer. now rewrite Hk, Ht. }
    rewrite Hdue. destruct (due_timer s2) as [h|]; [|exact H].
    apply drain_same. destruct H as (Hf & Hk & Ht & Hh & Hd & Hb & Hc).
    unfold same_but_ids. cbn. rewrite Ht. repeat split; assumption.
Qed.

Lemma run_same (tr : list Event) (s1 s2 : State) :
  same s1 s2 -> same (fold_left next1 tr s1) (fold_left next2 tr s2).
Proof.
  revert s1 s2. induction tr as [|e tr IH]; intros s1 s2 H; [exact H|].
  cbn [fold_left]. apply IH. now apply next_same.
Qed.

End TwoRenderings.

(** X9.  The two revisions behave alike.  For an address whose path begins
    with a slash, a client built by the factored revision and one built by
    the compact revision, taken through the same history, end with the same
    timer, the same clock, the same pending timeout, the same number of
    random bytes used, and buffers that agree record for record but for the
    identifiers; and they have made the same platform calls in the same
    order, the requests to the same URL with the same headers and with
    payloads of batches, sent at the same time, that agree but for the
    identifiers.  Their flushes are one and the same function. *)
Theorem revisions_agree_but_for_identifiers
  (pf : Platform) (dsn : string) (t0 : Z) (url : URL) (project : string)
  (m1 m2 : Metrics.t) (s1 s2 : State) (tr : list Event) :
  URL_parse pf dsn = Some url ->
  url_pathname url = String "/" project ->
  Factored.createMetrics pf dsn (boot t0) = (Normal m1, s1) ->
  Compact.createMetrics pf dsn (boot t0) = (Normal m2, s2) ->
  same_but_ids pf dsn (run m1 s1 tr) (run m2 s2 tr)
  /\ (forall s, Metrics.flush m1 s = Metrics.flush m2 s).
Proof.
  intros Hu Hp H1 H2.
  rewrite (Factored_createMetrics_parsed pf dsn url _ Hu) in H1.
  rewrite (Compact_createMetrics_parsed pf dsn url _ Hu) in H2.
  destruct (_ || _); [discriminate|].
  assert (Hurl : "https://" ++ url_host url ++ "/api" ++ url_pathname url ++ "/envelope/"
                 = "https://" ++ url_host url ++ "/api/" ++ slice1 (url_pathname url)
                   ++ "/envelope/")
    by (rewrite Hp; reflexivity).
  rewrite Hurl in H2.
  injection H1 as <- <-. injection H2 as <- <-.
  split.
  - rewrite (run_next _ _ _ _ _ _ (Factored_implements pf dsn _ _)).
    rewrite (run_next _ _ _ _ _ _ (Compact_implements pf dsn _ _)).
    apply run_same. repeat split. constructor.
  - intros s. cbn [Metrics.flush Factored_client Compact_client].
    now rewrite Factored_flush_drain, Compact_flush_drain.
Qed.

Lemma revisions_agree_but_for_identifiers_witness :
  same_but_ids TestPlatform.platform TestPlatform.VALID_DSN
    (run TestPlatform.client (boot TestPlatform.test_time)
       [Count "a" None None; Gauge "b" forty_two (Some tagged_options); Flush;
        Distribution "c" one_eight_seven_and_a_half None])
    (run TestPlatform.compact_client (boot TestPlatform.test_time)
       [Count "a" None None; Gauge "b" forty_two (Some tagged_options); Flush;
        Distribution "c" one_eight_seven_and_a_half None]).
Proof.
  exact (proj1 (revisions_agree_but_for_identifiers TestPlatform.platform
                  TestPlatform.VALID_DSN TestPlatform.test_time
                  {| url_username := "abc123"; url_host := "o123456.ingest.sentry.io";
                     url_pathname := "/4567890" |}
                  "4567890" TestPlatform.client TestPlatform.compact_client
                  (boot TestPlatform.test_time) (boot TestPlatform.test_time)
                  [Count "a" None None; Gauge "b" forty_two (Some tagged_options); Flush;
                   Distribution "c" one_eight_seven_and_a_half None]
                  eq_refl eq_refl eq_refl eq_refl)).
Defined.
